(** * file_export.c: saving screenshots, sound and video to PCX, WAV and AVI

    A shallow embedding of [src/file_export.c] of the Atari800 emulator,
    and theorems about the byte streams it writes.

    Build configuration modelled: [SOUND] and [AVI_VIDEO_RECORDING] are
    defined, the host is little-endian ([WORDS_BIGENDIAN] undefined, so
    [fwritele] is [fwrite]), and neither [BASIC] nor [CURSES_BASIC] is
    defined.  [int] is 32 bits wide, [ULONG] is an unsigned 32-bit integer,
    [UWORD] an unsigned 16-bit integer and [UBYTE] an unsigned byte. *)

From Stdlib Require Import ZArith Lia Bool QArith Qround.
From stdpp Require Import base list strings.
From coqutil Require Import Datatypes.RecordSetters.
Import TriangleBracketNotations.

Local Open Scope Z_scope.

(** ** Machine integers *)

(** Conversion to [ULONG]: reduction modulo 2^32. *)
Definition to_ulong (x : Z) : Z := x mod 2 ^ 32.

(** Conversion to [int]: two's complement wrap-around to 32 bits. *)
Definition to_int (x : Z) : Z := (x + 2 ^ 31) mod 2 ^ 32 - 2 ^ 31.

(** Conversion to [UWORD] and to [UBYTE] / [unsigned char]. *)
Definition to_uword (x : Z) : Z := x mod 2 ^ 16.
Definition to_ubyte (x : Z) : Z := x mod 2 ^ 8.

(** ** Constants of the file *)

Definition MAX_RECORDING_SIZE : Z := 0xfff00000.
Definition FRAME_INDEX_ALLOC_SIZE : Z := 1000.
Definition VIDEO_BITMASK : Z := 0x0003ffff.
Definition AUDIO_BITSHIFT : Z := 0x00040000.
Definition AUDIO_BITMASK : Z := 0x7ffc0000.
Definition KEYFRAME_BITMASK : Z := 0x80000000.

(** ** The packed per-frame index word

    [AVI_WriteFrame] stores
    [current_screen_size + AUDIO_BITSHIFT * audio_size] in
    [frame_indexes[frames_written]] and ors [KEYFRAME_BITMASK] into it when
    [current_is_keyframe] holds (lines 1145-1152). *)
Definition frame_index_entry (current_screen_size audio_size : Z)
    (current_is_keyframe : bool) : Z :=
  let index := to_ulong (current_screen_size + AUDIO_BITSHIFT * audio_size) in
  if current_is_keyframe then Z.lor index KEYFRAME_BITMASK else index.

(** [AVI_WriteIndex] reads the three fields back (lines 1306-1320). *)
Definition index_is_keyframe (index : Z) : Z :=
  if Z.land index KEYFRAME_BITMASK =? 0 then 0 else 0x10.
Definition index_video_size (index : Z) : Z :=
  to_int (Z.land index VIDEO_BITMASK).
Definition index_audio_size (index : Z) : Z :=
  to_int (Z.land index AUDIO_BITMASK / AUDIO_BITSHIFT).

(** ** A model of stdio streams

    A stream is the bytes of the file on disk, the file position indicator,
    and what the operating system will let the program do with it: the file
    cannot grow beyond [f_limit] bytes (a full disk or a quota), and a
    stream that is not [f_seekable] (a pipe) refuses [fseek] and [ftell].
    A byte that cannot be written is dropped and the position stays where
    it is, so a short write is visible to [ftell]. *)
Record FILE := mkFILE {
  f_data : list Z;
  f_pos : Z;
  f_limit : Z;
  f_seekable : bool;
  f_open : bool }.

Definition EOF : Z := -1.

(** Writing one byte at offset [p]: in place when [p] is inside the file,
    otherwise the gap up to [p] reads as zeros. *)
Definition store (p : nat) (c : Z) (l : list Z) : list Z :=
  if (p <? length l)%nat then <[p := c]> l
  else l ++ replicate (p - length l) 0 ++ [c].

Definition fputc (c : Z) (fp : FILE) : Z * FILE :=
  if f_open fp && (0 <=? f_pos fp) && (f_pos fp <? f_limit fp) then
    (to_ubyte c,
     {| f_data := store (Z.to_nat (f_pos fp)) (to_ubyte c) (f_data fp);
        f_pos := f_pos fp + 1;
        f_limit := f_limit fp;
        f_seekable := f_seekable fp;
        f_open := f_open fp |})
  else (EOF, fp).

(** [putc] is [fputc]. *)
Definition putc : Z -> FILE -> Z * FILE := fputc.

(** [fseek(fp, offset, SEEK_SET)]: 0 on success, -1 on failure. *)
Definition fseek (offset : Z) (fp : FILE) : Z * FILE :=
  if f_open fp && f_seekable fp && (0 <=? offset) then
    (0, {| f_data := f_data fp; f_pos := offset; f_limit := f_limit fp;
           f_seekable := f_seekable fp; f_open := f_open fp |})
  else (-1, fp).

(** [ftell(fp)]: the position, or -1 on a stream that cannot tell. *)
Definition ftell (fp : FILE) : Z :=
  if f_open fp && f_seekable fp then f_pos fp else -1.

Definition fclose (fp : FILE) : FILE :=
  {| f_data := f_data fp; f_pos := f_pos fp; f_limit := f_limit fp;
     f_seekable := f_seekable fp; f_open := false |}.

(** [fopen(name, "wb")] on a file system that either refuses, or creates an
    empty file with room for [limit] bytes. *)
Definition fopen_wb (fs : string -> option (Z * bool)) (name : string)
    : option FILE :=
  match fs name with
  | Some (limit, seekable) =>
      Some {| f_data := []; f_pos := 0; f_limit := limit;
              f_seekable := seekable; f_open := true |}
  | None => None
  end.

(** Calls whose result the program ignores, as statements on the stream:
    [fp ;> f ;> g] is [f] then [g]. *)
Notation "fp ;> f" := (f fp) (at level 61, left associativity, only parsing).

Definition fputc_ (c : Z) (fp : FILE) : FILE := (fputc c fp).2.
Definition fseek_ (offset : Z) (fp : FILE) : FILE := (fseek offset fp).2.

(** The bytes [l] written one [fputc] after the other. *)
Definition emit (l : list Z) (fp : FILE) : FILE :=
  foldl (fun fp c => fputc_ c fp) fp l.

Definition bytes_of_string (s : string) : list Z :=
  (fun c => Z.of_N (Ascii.N_of_ascii c)) <$> String.list_ascii_of_string s.

Definition fputs (s : string) (fp : FILE) : FILE := emit (bytes_of_string s) fp.

(** [n] bytes read from the array [ptr]; a read past its end is undefined
    in C and reads as zero here. *)
Definition read_buf (ptr : list Z) (n : Z) : list Z :=
  take (Z.to_nat n) (ptr ++ replicate (Z.to_nat n - length ptr) 0).

(** [fwrite(ptr, size, nmemb, fp)]: the number of whole elements written. *)
Definition fwrite (ptr : list Z) (size nmemb : Z) (fp : FILE) : Z * FILE :=
  if (size <=? 0) || (nmemb <=? 0) then (0, fp)
  else
    let fp' := emit (read_buf ptr (size * nmemb)) fp in
    ((f_pos fp' - f_pos fp) / size, fp').

Definition fwrite_ (ptr : list Z) (size nmemb : Z) (fp : FILE) : FILE :=
  (fwrite ptr size nmemb fp).2.

(** ** Little-endian output (lines 377-444) *)

(** write 16-bit word as little endian *)
Definition fputw (x : Z) (fp : FILE) : FILE :=
  let x := to_uword x in
  fp ;> fputc_ (Z.land x 0xff)
     ;> fputc_ (Z.land (Z.shiftr x 8) 0xff).

(** write 32-bit long as little endian *)
Definition fputl (x : Z) (fp : FILE) : FILE :=
  let x := to_ulong x in
  fp ;> fputc_ (Z.land x 0xff)
     ;> fputc_ (Z.land (Z.shiftr x 8) 0xff)
     ;> fputc_ (Z.land (Z.shiftr x 16) 0xff)
     ;> fputc_ (Z.land (Z.shiftr x 24) 0xff).

(** [fwritele] on a little-endian host calls [fwrite] with no alteration to
    the data. *)
Definition fwritele (ptr : list Z) (size nmemb : Z) (fp : FILE) : Z * FILE :=
  fwrite ptr size nmemb fp.

Definition fwritele_ (ptr : list Z) (size nmemb : Z) (fp : FILE) : FILE :=
  (fwritele ptr size nmemb fp).2.

(** ** The rest of the emulator, as far as this file reads it *)

(** A video codec descriptor ([VIDEO_CODEC_t] of file_export.h).  The
    hooks are functions of the codec's own memory [CS]; [vc_frame source
    keyframe buf bufsize] returns the size of the compressed frame and the
    new contents of [buf].  [int] flags are booleans. *)
Record VIDEO_CODEC_t (CS : Type) := {
  vc_codec_id : string;
  vc_description : string;
  vc_fourcc : list Z;
  vc_avi_compression : list Z;
  vc_uses_interframes : bool;
  vc_init : Z -> Z -> Z -> Z -> CS -> Z * CS;
  vc_frame : list Z -> bool -> list Z -> Z -> CS -> Z * list Z * CS;
  vc_end : CS -> Z * CS }.

Arguments vc_codec_id {CS}.
Arguments vc_description {CS}.
Arguments vc_fourcc {CS}.
Arguments vc_avi_compression {CS}.
Arguments vc_uses_interframes {CS}.
Arguments vc_init {CS}.
Arguments vc_frame {CS}.
Arguments vc_end {CS}.

(** What the build fixes: constants of headers that are not part of this
    file, the codecs that are compiled in, and C's [float] with the
    floating-point expressions the file evaluates, each named after the
    expression it stands for. *)
Class Platform := {
  Screen_WIDTH : Z;
  Atari800_TV_PAL : Z;
  POKEYSND_BIT16 : Z;
  codec_state : Type;
  Video_Codec_MRLE : VIDEO_CODEC_t codec_state;
  Video_Codec_ZMBV : VIDEO_CODEC_t codec_state;
  (** [defined(VIDEO_CODEC_ZMBV) && defined(HAVE_LIBZ)] *)
  have_zmbv_and_libz : bool;
  float : Type;
  Atari800_FPS_PAL : float;
  Atari800_FPS_NTSC : float;
  (** [0.0] *)
  float_zero : float;
  (** [(ULONG)(1000000 / fps)] *)
  usec_per_frame : float -> Z;
  (** [(ULONG)(fps * 1000000)] *)
  stream_rate : float -> Z;
  (** [(int)(n / fps)] *)
  int_div_fps : Z -> float -> Z;
  (** [keyframe_residual + 1000.0 / fps] *)
  residual_advance : float -> float -> float;
  (** [keyframe_residual > keyframe_interval] *)
  residual_above : float -> Z -> bool;
  (** [keyframe_residual - ((int)(keyframe_residual / keyframe_interval) * keyframe_interval)] *)
  residual_reduce : float -> Z -> float }.

(** The variables of other modules that the file reads when it runs. *)
Record extern := {
  Screen_visible_x1 : Z;
  Screen_visible_x2 : Z;
  Screen_visible_y1 : Z;
  Screen_visible_y2 : Z;
  Screen_atari : list Z;
  Colours_table : Z -> Z;
  Colours_GetR : Z -> Z;
  Colours_GetG : Z -> Z;
  Colours_GetB : Z -> Z;
  Atari800_tv_mode : Z;
  POKEYSND_snd_flags : Z;
  POKEYSND_num_pokeys : Z;
  POKEYSND_playback_freq : Z;
  Sound_enabled : bool;
  filesystem : string -> option (Z * bool) }.

(** Calls to the logger and to the codec hooks, in the order made. *)
Inductive event :=
  | Log_print (format : string)
  | Codec_init
  | Codec_frame (keyframe : bool)
  | Codec_end.

Section FileExport.
Context `{Platform}.

(** ** The static variables of file_export.c

    together with the codec's memory and the record of calls made to the
    logger and the codec.  A pointer to an allocated array is [Some] of its
    contents, [NULL] is [None]. *)
Record state := {
  byteswritten : Z;
  frames_written : Z;
  fps : float;
  description : string;
  sample_size : Z;
  video_left_margin : Z;
  video_top_margin : Z;
  video_width : Z;
  video_height : Z;
  size_riff : Z;
  size_movi : Z;
  total_video_size : Z;
  smallest_video_frame : Z;
  largest_video_frame : Z;
  num_frames_allocated : Z;
  frame_indexes : option (list Z);
  video_buffer_size : Z;
  video_buffer : option (list Z);
  current_screen_size : Z;
  video_codec : option (VIDEO_CODEC_t codec_state);
  requested_video_codec : option (VIDEO_CODEC_t codec_state);
  keyframe_interval : Z;
  keyframe_residual : float;
  current_is_keyframe : bool;
  samples_written : Z;
  audio_buffer_size : Z;
  audio_buffer : option (list Z);
  current_audio_samples : Z;
  num_streams : Z;
  codec_memory : codec_state;
  trace : list event }.

(** [Log_print(format, ...)] *)
Definition log (format : string) (g : state) : state :=
  g <| trace := trace g ++ [Log_print format] |>.

(** Reading [a[i]]; the read is undefined in C when [a] is [NULL] or [i] is
    out of range, and gives 0 here. *)
Definition array_get (a : option (list Z)) (i : Z) : Z :=
  match a with
  | Some l => nth (Z.to_nat i) l 0
  | None => 0
  end.

(** [a[i] = v]; out of range the write is undefined in C and does nothing
    here. *)
Definition array_set (a : option (list Z)) (i : Z) (v : Z) : option (list Z) :=
  match a with
  | Some l => Some (<[Z.to_nat i := v]> l)
  | None => None
  end.

(** The contents of the array a pointer refers to, for [fwrite], [memcpy]
    and the codec. *)
Definition contents (a : option (list Z)) : list Z := default [] a.

(** [Util_malloc(n)]: [n] bytes of indeterminate value, zeros here. *)
Definition Util_malloc (n : Z) : option (list Z) := Some (replicate (Z.to_nat n) 0).

(** [Util_realloc(a, n)] for an array of [n] elements. *)
Definition Util_realloc (a : option (list Z)) (n : Z) : option (list Z) :=
  let l := contents a in
  Some (take (Z.to_nat n) l ++ replicate (Z.to_nat n - length l) 0).

(** The descriptor read through [video_codec].  Reading through [NULL] is
    undefined in C; here it reads a codec whose hooks fail.
    [AVI_OpenFile] always leaves [video_codec] set. *)
Definition null_codec : VIDEO_CODEC_t codec_state :=
  {| vc_codec_id := ""; vc_description := ""; vc_fourcc := [];
     vc_avi_compression := []; vc_uses_interframes := false;
     vc_init := fun _ _ _ _ m => (-1, m);
     vc_frame := fun _ _ buf _ m => (-1, buf, m);
     vc_end := fun m => (0, m) |}.

Definition codec (g : state) : VIDEO_CODEC_t codec_state :=
  default null_codec (video_codec g).

(** [video_codec->init(width, height, left_margin, top_margin)] *)
Definition call_init (g : state) : Z * state :=
  let '(r, m) := vc_init (codec g) (video_width g) (video_height g)
                   (video_left_margin g) (video_top_margin g) (codec_memory g) in
  (to_int r, g <| codec_memory := m |> <| trace := trace g ++ [Codec_init] |>).

(** [video_codec->frame((UBYTE * )Screen_atari, current_is_keyframe,
    video_buffer, video_buffer_size)] *)
Definition call_frame (e : extern) (g : state) : Z * state :=
  let '(r, buf, m) := vc_frame (codec g) (Screen_atari e) (current_is_keyframe g)
                        (contents (video_buffer g)) (video_buffer_size g)
                        (codec_memory g) in
  (to_int r,
   g <| video_buffer := Some buf |> <| codec_memory := m |>
     <| trace := trace g ++ [Codec_frame (current_is_keyframe g)] |>).

(** [video_codec->end()] *)
Definition call_end (g : state) : state :=
  let '(_, m) := vc_end (codec g) (codec_memory g) in
  g <| codec_memory := m |> <| trace := trace g ++ [Codec_end] |>.

Definition get_best_video_codec : VIDEO_CODEC_t codec_state :=
  if have_zmbv_and_libz then Video_Codec_ZMBV else Video_Codec_MRLE.

(** [File_Export_CurrentSize] *)
Definition File_Export_CurrentSize (g : state) : Z := to_int (byteswritten g).

(** [set_video_margins], without [SUPPORTS_CHANGE_VIDEOMODE]. *)
Definition set_video_margins (e : extern) (g : state) : state :=
  let g := g <| video_left_margin := Screen_visible_x1 e |> in
  let g := g <| video_width := to_int (Screen_visible_x2 e - video_left_margin g) |> in
  let g := g <| video_top_margin := Screen_visible_y1 e |> in
  g <| video_height := to_int (Screen_visible_y2 e - video_top_margin g) |>.


(** ** PCX_SaveScreen (lines 480-558) *)

(** [*ptr] for a [UBYTE *ptr] at index [p] of the array [a]. *)
Definition rd (a : list Z) (p : Z) : Z := to_ubyte (nth (Z.to_nat p) a 0).

(** The value the loops compare and write for the pixel at [p]:
    [*ptr1] without interlace, otherwise the average of one colour plane of
    the two screens.  [ptr1] and [ptr2] always move together, so one index
    [p] stands for both. *)
Definition pcx_pixel (e : extern) (ptr1 : list Z) (ptr2 : option (list Z))
    (plane p : Z) : Z :=
  match ptr2 with
  | Some a2 =>
      Z.shiftr (Z.land (Z.shiftr (Colours_table e (rd ptr1 p)) plane) 0xff
                + Z.land (Z.shiftr (Colours_table e (rd a2 p)) plane) 0xff) 1
  | None => rd ptr1 p
  end.

(** The innermost [do ... while]: count the pixels equal to [last].
    Recursion is on [fuel]; [None] means the fuel ran out. *)
Fixpoint pcx_run (fuel : nat) (pixel : Z -> Z) (width last : Z) (p count x : Z)
    : option (Z * Z * Z) :=
  match fuel with
  | O => None
  | S fuel =>
      let p := p + 1 in
      let count := to_ubyte (count + 1) in
      let x := x + 1 in
      if (last =? pixel p) && (count <? 0xff) && (x <? width)
      then pcx_run fuel pixel width last p count x
      else Some (p, count, x)
  end.

(** The [do ... while (x < video_width)] loop over one scan line.  [out] is
    the sequence of bytes handed to [fputc] so far. *)
Fixpoint pcx_line (fuel : nat) (pixel : Z -> Z) (width : Z) (out : list Z)
    (p x : Z) : option (list Z * Z * Z) :=
  match fuel with
  | O => None
  | S fuel =>
      let last := to_ubyte (pixel p) in
      let count := 0xc0 in
      match pcx_run 64 pixel width last p count x with
      | None => None
      | Some (p, count, x) =>
          let out := if (0xc1 <? count) || (0xc0 <=? last)
                     then out ++ [count] else out in
          let out := out ++ [last] in
          if x <? width then pcx_line fuel pixel width out p x
          else Some (out, p, x)
      end
  end.

(** The [for (y = 0; y < video_height; )] loop. *)
Fixpoint pcx_rows (fuel : nat) (e : extern) (ptr1 : list Z)
    (ptr2 : option (list Z)) (width height : Z) (out : list Z)
    (p plane y : Z) : option (list Z) :=
  match fuel with
  | O => None
  | S fuel =>
      if y <? height then
        match pcx_line (Z.to_nat (Z.max 1 width)) (pcx_pixel e ptr1 ptr2 plane)
                width out p 0 with
        | None => None
        | Some (out, p, x) =>
            if bool_decide (ptr2 <> None) && negb (plane =? 0) then
              pcx_rows fuel e ptr1 ptr2 width height out
                (p - width) (to_ubyte (plane - 8)) y
            else
              pcx_rows fuel e ptr1 ptr2 width height out
                (p + (Screen_WIDTH - width))
                (if bool_decide (ptr2 <> None) then 16 else plane) (y + 1)
        end
      else Some out
  end.

(** The run-length encoded pixel data: the arguments of the [fputc] calls
    of the loops, in order. *)
Definition PCX_pixels (e : extern) (ptr1 : list Z) (ptr2 : option (list Z))
    (g : state) : option (list Z) :=
  pcx_rows (Z.to_nat (3 * Z.max 0 (video_height g) + 1)) e ptr1 ptr2
    (video_width g) (video_height g) []
    (Screen_WIDTH * video_top_margin g + video_left_margin g) 16 0.

(** The 256 palette entries written after the [0xc] marker. *)
Definition PCX_palette (e : extern) : list Z :=
  i ← seqZ 0 256; [Colours_GetR e i; Colours_GetG e i; Colours_GetB e i].

Definition PCX_SaveScreen (e : extern) (fp : FILE) (ptr1 : list Z)
    (ptr2 : option (list Z)) (g : state) : option (FILE * state) :=
  let g := set_video_margins e g in
  let fp := fp ;> fputc_ 0xa          (* pcx signature *)
               ;> fputc_ 0x5          (* version 5 *)
               ;> fputc_ 0x1          (* RLE encoding *)
               ;> fputc_ 0x8          (* bits per pixel *)
               ;> fputw 0             (* XMin *)
               ;> fputw 0             (* YMin *)
               ;> fputw (video_width g - 1)   (* XMax *)
               ;> fputw (video_height g - 1)  (* YMax *)
               ;> fputw 0             (* HRes *)
               ;> fputw 0             (* VRes *)
               ;> emit (replicate 48 0)       (* EGA color palette *)
               ;> fputc_ 0            (* reserved *)
               ;> fputc_ (if bool_decide (ptr2 <> None) then 3 else 1)
               ;> fputw (video_width g)
               ;> fputw 1             (* palette info *)
               ;> fputw (video_width g)       (* screen resolution *)
               ;> fputw (video_height g)
               ;> emit (replicate 54 0) in    (* unused *)
  match PCX_pixels e ptr1 ptr2 g with
  | None => None
  | Some pixels =>
      let fp := fp ;> emit pixels in
      let fp := if bool_decide (ptr2 = None)
                then fp ;> fputc_ 0xc ;> emit (PCX_palette e)   (* write palette *)
                else fp in
      Some (fp, g)
  end.

(** ** WAV files (lines 678-825) *)

Definition WAV_OpenFile (e : extern) (szFileName : string) (g : state)
    : option FILE * state :=
  match fopen_wb (filesystem e) szFileName with
  | None => (None, g)
  | Some fp =>
      let g := g <| sample_size :=
                      if Z.land (POKEYSND_snd_flags e) POKEYSND_BIT16 =? 0
                      then 1 else 2 |>
                 <| frames_written := 0 |>
                 <| fps := if Atari800_tv_mode e =? Atari800_TV_PAL
                           then Atari800_FPS_PAL else Atari800_FPS_NTSC |>
                 <| description := "WAV" |> in
      let fp := fp ;> fputs "RIFF"
                   ;> fputl 0   (* length to be filled in upon file close *)
                   ;> fputs "WAVE"
                   ;> fputs "fmt "
                   ;> fputl 16
                   ;> fputw 1
                   ;> fputw (POKEYSND_num_pokeys e)
                   ;> fputl (POKEYSND_playback_freq e)
                   ;> fputl (POKEYSND_playback_freq e * sample_size g)
                   ;> fputw (POKEYSND_num_pokeys e * sample_size g)
                   ;> fputw (sample_size g * 8)
                   ;> fputs "data"
                   ;> fputl 0 in (* length to be filled in upon file close *)
      if negb (ftell fp =? 44) then (None, g)   (* fclose(fp) *)
      else (Some fp, g <| byteswritten := 0 |>)
  end.

(** [buf] and [fp] may be [NULL]; [num_samples] is an [unsigned int]. *)
Definition WAV_WriteSamples (buf : option (list Z)) (num_samples : Z)
    (fp : option FILE) (g : state) : Z * option FILE * state :=
  match fp, buf with
  | Some f, Some b =>
      if num_samples =? 0 then (0, fp, g)
      else
        let '(n, f) := fwritele b (sample_size g) num_samples f in
        let result := to_int n in
        let result := if negb (to_ulong result =? to_ulong num_samples)
                      then 0 else to_int (result * sample_size g) in
        let g := g <| byteswritten := to_ulong (byteswritten g + result) |> in
        let g := g <| frames_written := to_ulong (frames_written g + 1) |> in
        if MAX_RECORDING_SIZE <? byteswritten g then (0, Some f, g)
        else (result, Some f, g)
  | _, _ => (0, fp, g)
  end.

(** The stream returned is the file as [fclose] leaves it. *)
Definition WAV_CloseFile (fp : option FILE) (g : state) : bool * option FILE :=
  let bSuccess := true in
  let aligned := 0 in
  match fp with
  | Some f =>
      (* A RIFF file's chunks must be word-aligned. So let's align. *)
      let '(bSuccess, aligned, f) :=
        if negb (Z.land (byteswritten g) 1 =? 0) then
          let '(r, f') := putc 0 f in
          if r =? EOF then (false, aligned, f') else (bSuccess, 1, f')
        else (bSuccess, aligned, f) in
      let '(bSuccess, f) :=
        if bSuccess then
          (* Sound file is finished, so modify header and close it. *)
          let '(r, f) := fseek 4 f in
          if negb (r =? 0) then (false, f)
          else
            let f := f ;> fputl (byteswritten g + 36 + aligned) in
            let '(r, f) := fseek 40 f in
            if negb (r =? 0) then (false, f)
            else (bSuccess, f ;> fputl (byteswritten g))
        else (bSuccess, f) in
      (bSuccess, Some (fclose f))
  | None => (bSuccess, None)
  end.

(** ** AVI files (lines 827-1385) *)

(** 256 * 4 = 1024 bytes of palette in ARGB little-endian order *)
Definition AVI_palette (e : extern) : list Z :=
  i ← seqZ 0 256; [Colours_GetB e i; Colours_GetG e i; Colours_GetR e i; 0].

Definition AVI_WriteHeader (e : extern) (fp : FILE) (g : state)
    : bool * FILE * state :=
  let fp := fp ;> fseek_ 0 in
  (* RIFF AVI header *)
  let fp := fp ;> fputs "RIFF"
               ;> fputl (size_riff g)   (* length of entire file minus 8 bytes *)
               ;> fputs "AVI "
               ;> fputs "LIST" in
  let list_size := 4 + 8 + 56 + (12 + (8 + 56 + 8 + 40 + 256*4 + 8 + 16)) in
  let list_size := if num_streams g =? 2
                   then list_size + (12 + (8 + 56 + 8 + 18 + 8 + 12))
                   else list_size in
  let fp := fp ;> fputl list_size        (* length of header payload *)
               ;> fputs "hdrl"
               ;> fputs "avih"
               ;> fputl 56
               ;> fputl (usec_per_frame (fps g))   (* microseconds per frame *)
               ;> fputl (video_width g * video_height g * 3)
               ;> fputl 0                (* reserved *)
               ;> fputl 0x10             (* flags *)
               ;> fputl (frames_written g)   (* number of frames in the video *)
               ;> fputl 0                (* initial frames *)
               ;> fputl (num_streams g)
               ;> fputl (video_width g * video_height g * 3)
               ;> fputl (video_width g)
               ;> fputl (video_height g)
               ;> fputl 0 ;> fputl 0 ;> fputl 0 ;> fputl 0
               (* video stream format *)
               ;> fputs "LIST"
               ;> fputl (4 + 8 + 56 + 8 + 40 + 256*4 + 8 + 16)
               ;> fputs "strl"
               ;> fputs "strh"
               ;> fputl 56
               ;> fputs "vids"
               ;> fwrite_ (vc_fourcc (codec g)) 4 1
               ;> fputl 0                (* flags *)
               ;> fputw 0                (* priority *)
               ;> fputw 0                (* language *)
               ;> fputl 0                (* initial_frames *)
               ;> fputl 1000000          (* scale *)
               ;> fputl (stream_rate (fps g))   (* rate *)
               ;> fputl 0                (* start *)
               ;> fputl (frames_written g)   (* length *)
               ;> fputl (video_width g * video_height g * 3)
               ;> fputl 0                (* quality *)
               ;> fputl 0                (* sample size *)
               ;> fputl 0                (* rcRect, ignored *)
               ;> fputl 0
               ;> fputs "strf"
               ;> fputl (40 + 256*4)
               ;> fputl 40               (* header_size *)
               ;> fputl (video_width g)
               ;> fputl (video_height g)
               ;> fputw 1                (* number of bitplanes *)
               ;> fputw 8                (* bits per pixel *)
               ;> fwrite_ (vc_avi_compression (codec g)) 4 1
               ;> fputl (video_width g * video_height g * 3)   (* image_size *)
               ;> fputl 0
               ;> fputl 0
               ;> fputl 256              (* colors_used *)
               ;> fputl 0                (* colors_important *)
               ;> emit (AVI_palette e)
               ;> fputs "strn"
               ;> fputl 16               (* length of name *)
               ;> fputs "atari800 video"
               ;> fputc_ 0               (* null terminator *)
               ;> fputc_ 0 in            (* padding to get to 16 bytes *)
  let fp :=
    if num_streams g =? 2 then
      (* audio stream format *)
      fp ;> fputs "LIST"
         ;> fputl (4 + 8 + 56 + 8 + 18 + 8 + 12)
         ;> fputs "strl"
         ;> fputs "strh"
         ;> fputl 56
         ;> fputs "auds"
         ;> fputl 1                      (* 1 = uncompressed audio *)
         ;> fputl 0                      (* flags *)
         ;> fputw 0                      (* priority *)
         ;> fputw 0                      (* language *)
         ;> fputl 0                      (* initial_frames *)
         ;> fputl 1                      (* scale *)
         ;> fputl (POKEYSND_playback_freq e)   (* rate *)
         ;> fputl 0                      (* start time *)
         ;> fputl (samples_written g)    (* length *)
         ;> fputl (POKEYSND_playback_freq e * POKEYSND_num_pokeys e * sample_size g)
         ;> fputl 0                      (* quality *)
         ;> fputl (POKEYSND_num_pokeys e * sample_size g)   (* sample size *)
         ;> fputl 0                      (* rcRect, ignored *)
         ;> fputl 0
         ;> fputs "strf"
         ;> fputl 18                     (* length of header *)
         ;> fputw 1                      (* format_type *)
         ;> fputw (POKEYSND_num_pokeys e)   (* channels *)
         ;> fputl (POKEYSND_playback_freq e)   (* sample_rate *)
         ;> fputl (POKEYSND_playback_freq e * POKEYSND_num_pokeys e * sample_size g)
         ;> fputw (POKEYSND_num_pokeys e * sample_size g)   (* bytes per frame *)
         ;> fputw (sample_size g * 8)    (* bits_per_sample *)
         ;> fputw 0                      (* size *)
         ;> fputs "strn"
         ;> fputl 12                     (* length of name *)
         ;> fputs "POKEY audio"
         ;> fputc_ 0                     (* null terminator *)
    else fp in
  (* audio/video data *)
  let fp := fp ;> fputs "LIST"
               ;> fputl (size_movi g) in   (* length of all video and audio chunks *)
  let g := g <| size_movi := to_ulong (ftell fp) |> in   (* start of movi payload *)
  let fp := fp ;> fputs "movi" in
  (ftell fp =? 12 + 8 + list_size + 12, fp, g).

Definition AVI_OpenFile (e : extern) (szFileName : string) (g : state)
    : option FILE * state :=
  match fopen_wb (filesystem e) szFileName with
  | None => (None, g)
  | Some fp =>
      let g := g <| size_riff := 0 |>
                 <| size_movi := 0 |>
                 <| frames_written := 0 |>
                 <| keyframe_residual := float_zero |>
                 <| current_is_keyframe := true |>   (* first frame always a keyframe *)
                 <| current_screen_size := -1 |>     (* screen not generated yet *)
                 <| fps := if Atari800_tv_mode e =? Atari800_TV_PAL
                           then Atari800_FPS_PAL else Atari800_FPS_NTSC |> in
      let g := set_video_margins e g in
      let g := g <| num_frames_allocated := FRAME_INDEX_ALLOC_SIZE |> in
      let g := g <| frame_indexes :=
                      Some (replicate (Z.to_nat (num_frames_allocated g)) 0) |> in
      let g := match video_codec g with
               | None =>
                   match requested_video_codec g with
                   | None => g <| video_codec := Some get_best_video_codec |>
                   | Some c => g <| video_codec := Some c |>
                   end
               | Some _ => g
               end in
      let g := g <| description := "AVI " +:+ vc_codec_id (codec g) |> in
      let '(n, g) := call_init g in
      let g := g <| video_buffer_size := n |> in
      if video_buffer_size g <? 0 then
        (None, log "Failed to initialize video codec" g)   (* fclose(fp) *)
      else
        let g := g <| video_buffer := Util_malloc (video_buffer_size g) |> in
        let g := g <| current_audio_samples := -1 |>
                   <| samples_written := 0 |> in
        let g :=
          if Sound_enabled e then
            let g := g <| num_streams := 2 |>
                       <| sample_size :=
                            if Z.land (POKEYSND_snd_flags e) POKEYSND_BIT16 =? 0
                            then 1 else 2 |> in
            let g := g <| audio_buffer_size :=
                            to_int (int_div_fps (POKEYSND_playback_freq e
                                                 * POKEYSND_num_pokeys e
                                                 * sample_size g) (fps g) + 1024) |> in
            g <| audio_buffer := Util_malloc (audio_buffer_size g) |>
          else
            g <| num_streams := 1 |>
              <| sample_size := 0 |>
              <| audio_buffer_size := 0 |>
              <| audio_buffer := None |> in
        let '(ok, fp, g) := AVI_WriteHeader e fp g in
        if negb ok then (None, call_end g)   (* fclose(fp) *)
        else
          (* set up video statistics *)
          let g := g <| byteswritten := to_ulong (ftell fp + 8) |>
                     <| total_video_size := 0 |>
                     <| smallest_video_frame := 0xffffffff |>
                     <| largest_video_frame := 0 |> in
          (Some fp, g)
  end.

(** [AVI_WriteFrame] writes out a single frame of video and audio, and
    saves the index data for the end-of-file index chunk.  Its body is
    given in the order of the source, one definition for each of its parts. *)

(** Lines 1118-1143: the [00dc] chunk and, with two streams, the [01wb]
    chunk.  Returns the stream, the variables, [audio_size] and
    [expected_frame_size]. *)
Definition AVI_WriteFrame_chunks (fp : FILE) (g : state)
    : FILE * state * Z * Z :=
  let video_padding := Z.rem (current_screen_size g) 2 in
  let fp := fp ;> fputs "00dc"
               ;> fputl (current_screen_size g)
               ;> fwrite_ (contents (video_buffer g)) 1 (current_screen_size g) in
  let fp := if negb (video_padding =? 0) then fp ;> fputc_ 0 else fp in
  let expected_frame_size := to_int (8 + current_screen_size g + video_padding) in
  if num_streams g =? 2 then
    let audio_size := to_int (current_audio_samples g * sample_size g) in
    let audio_padding := Z.rem audio_size 2 in
    let fp := fp ;> fputs "01wb"
                 ;> fputl audio_size
                 ;> fwritele_ (contents (audio_buffer g)) (sample_size g)
                      (current_audio_samples g) in
    let fp := if negb (audio_padding =? 0) then fp ;> fputc_ 0 else fp in
    let g := g <| samples_written :=
                    to_ulong (samples_written g + current_audio_samples g) |> in
    (fp, g, audio_size,
     to_int (expected_frame_size + (8 + audio_size + audio_padding)))
  else (fp, g, 0, expected_frame_size).

(** Lines 1145-1157: the index entry of the frame, and more room for the
    index when it is full. *)
Definition AVI_WriteFrame_index (audio_size : Z) (g : state) : state :=
  let g := g <| frame_indexes :=
                  array_set (frame_indexes g) (frames_written g)
                    (frame_index_entry (current_screen_size g) audio_size
                       (current_is_keyframe g)) |> in
  let g := g <| frames_written := to_ulong (frames_written g + 1) |> in
  if to_ulong (num_frames_allocated g) <=? frames_written g then
    let g := g <| num_frames_allocated :=
                    to_int (num_frames_allocated g + FRAME_INDEX_ALLOC_SIZE) |> in
    g <| frame_indexes := Util_realloc (frame_indexes g) (num_frames_allocated g) |>
  else g.

(** Lines 1166-1173: update statistics. *)
Definition AVI_WriteFrame_statistics (g : state) : state :=
  let g := g <| total_video_size :=
                  to_ulong (total_video_size g + current_screen_size g) |> in
  let g := if to_ulong (current_screen_size g) <? smallest_video_frame g
           then g <| smallest_video_frame := to_ulong (current_screen_size g) |>
           else g in
  if largest_video_frame g <? to_ulong (current_screen_size g)
  then g <| largest_video_frame := to_ulong (current_screen_size g) |>
  else g.

(** Lines 1175-1190: a keyframe is requested when the interval has passed,
    unless the codec has no inter-frames; then everything is a keyframe. *)
Definition AVI_WriteFrame_keyframe (g : state) : state :=
  if vc_uses_interframes (codec g) then
    let g := g <| keyframe_residual :=
                    residual_advance (keyframe_residual g) (fps g) |> in
    if residual_above (keyframe_residual g) (keyframe_interval g) then
      g <| current_is_keyframe := true |>
        <| keyframe_residual :=
             residual_reduce (keyframe_residual g) (keyframe_interval g) |>
    else g <| current_is_keyframe := false |>
  else g <| current_is_keyframe := true |>.

Definition AVI_WriteFrame (fp : FILE) (g : state) : bool * FILE * state :=
  let frame_size := to_int (ftell fp) in
  let '(fp, g, audio_size, expected_frame_size) := AVI_WriteFrame_chunks fp g in
  let g := AVI_WriteFrame_index audio_size g in
  (* check expected file data written equals the calculated size *)
  let frame_size := to_int (ftell fp - frame_size) in
  let result := frame_size =? expected_frame_size in
  (* update size limit calculation including the 32 bytes needed for each
     index entry *)
  let g := g <| byteswritten := to_ulong (byteswritten g + (frame_size + 32)) |> in
  let g := AVI_WriteFrame_statistics g in
  let g := AVI_WriteFrame_keyframe g in
  (* reset size indicators for next frame *)
  let g := g <| current_screen_size := -1 |>
             <| current_audio_samples := -1 |> in
  if MAX_RECORDING_SIZE <? byteswritten g then
    (false, fp, g)   (* force file close when at the limit *)
  else (result, fp, g).

(** The tail of [AVI_AddVideoFrame]: encode the screen. *)
Definition AVI_AddVideoFrame_encode (e : extern) (fp : FILE) (g : state)
    : bool * FILE * state :=
  let '(n, g) := call_frame e g in
  let g := g <| current_screen_size := n |> in
  (0 <=? current_screen_size g, fp, g).

Definition AVI_AddVideoFrame (e : extern) (fp : FILE) (g : state)
    : bool * FILE * state :=
  if 0 <=? current_screen_size g then
    if (num_streams g =? 1) || (0 <? current_audio_samples g) then
      let '(ok, fp, g) := AVI_WriteFrame fp g in
      if negb ok then (false, fp, g)
      else AVI_AddVideoFrame_encode e fp g
    else
      (false, fp,
       log "AVI write error: attempted to write video frame without audio data" g)
  else if (current_screen_size g <? -1) || (current_audio_samples g <? -1) then
    (* error condition; force close of file *)
    (false, fp, g)
  else AVI_AddVideoFrame_encode e fp g.

(** [memcpy(dst, src, n)] *)
Definition memcpy (dst : option (list Z)) (src : list Z) (n : Z)
    : option (list Z) :=
  match dst with
  | Some l => Some (read_buf src n ++ drop (Z.to_nat n) l)
  | None => None
  end.

(** The tail of [AVI_AddAudioSamples]: check the size and copy. *)
Definition AVI_AddAudioSamples_copy (buf : list Z) (num_samples : Z)
    (fp : FILE) (g : state) : bool * FILE * state :=
  let size := to_int (num_samples * sample_size g) in
  if audio_buffer_size g <? size then
    let g := log "AVI write error: audio buffer size too small to hold %d samples" g in
    (* set error condition *)
    (false, fp, g <| current_audio_samples := -2 |>)
  else
    let g := g <| current_audio_samples := num_samples |> in
    let g := g <| audio_buffer := memcpy (audio_buffer g) buf size |> in
    (true, fp, g).

Definition AVI_AddAudioSamples (buf : list Z) (num_samples : Z) (fp : FILE)
    (g : state) : bool * FILE * state :=
  if 0 <=? current_audio_samples g then
    if 0 <=? current_screen_size g then
      let '(ok, fp, g) := AVI_WriteFrame fp g in
      if negb ok then (false, fp, g)
      else AVI_AddAudioSamples_copy buf num_samples fp g
    else
      (false, fp,
       log "AVI write error: attempted to write audio data without video frame" g)
  else if (current_screen_size g <? -1) || (current_audio_samples g <? -1) then
    (* error condition; force close of file *)
    (false, fp, g)
  else AVI_AddAudioSamples_copy buf num_samples fp g.

(** One turn of the loop of [AVI_WriteIndex]: the two entries of frame [i],
    and the offset advanced past its two chunks. *)
Definition AVI_WriteIndex_frame (g : state) (s : FILE * Z) (i : Z) : FILE * Z :=
  let '(fp, offset) := s in
  let index := array_get (frame_indexes g) i in
  let is_keyframe := index_is_keyframe index in
  let fp := fp ;> fputs "00dc"         (* stream 0, a compressed video frame *)
               ;> fputl is_keyframe     (* flags: is a keyframe *)
               ;> fputl offset in       (* offset in bytes from start of the 'movi' list *)
  let size := index_video_size index in
  let fp := fp ;> fputl size in         (* size of video frame *)
  let offset := to_int (offset + (size + 8 + Z.rem size 2)) in
  let fp := fp ;> fputs "01wb"         (* stream 1, audio data *)
               ;> fputl 0x10            (* flags: PCM audio is always a keyframe *)
               ;> fputl offset in       (* offset in bytes from start of the 'movi' list *)
  let size := index_audio_size index in
  let fp := fp ;> fputl size in         (* size of audio data *)
  let offset := to_int (offset + (size + 8 + Z.rem size 2)) in
  (fp, offset).

Definition AVI_WriteIndex (fp : FILE) (g : state) : bool * FILE :=
  if frames_written g =? 0 then (false, fp)
  else
    let chunk_size := to_int (ftell fp) in
    let offset := 4 in
    let index_size := to_int (to_ulong (frames_written g * 16 * 2)) in
    let fp := fp ;> fputs "idx1"
                 ;> fputl index_size in
    let '(fp, offset) :=
      foldl (AVI_WriteIndex_frame g) (fp, offset) (seqZ 0 (frames_written g)) in
    let chunk_size := to_int (ftell fp - chunk_size) in
    (chunk_size =? 8 + index_size, fp).

Definition AVI_CloseFile (e : extern) (fp : FILE) (g : state)
    : bool * FILE * state :=
  (* write out final frame if one exists *)
  let '(result, fp, g) :=
    if (0 <=? current_screen_size g) && (0 <=? current_audio_samples g)
    then AVI_WriteFrame fp g
    else (true, fp, g) in
  let g := if 0 <? frames_written g
           then log "AVI stats: %d:%02d:%02d, %dMB, %d frames; video codec avg frame size %.1fkB, min=%.1fkB, max=%.1fkB" g
           else g in
  let '(result, fp, g) :=
    if result then
      let g := g <| size_movi := to_ulong (ftell fp - size_movi g) |> in
      let '(r, fp) := AVI_WriteIndex fp g in
      (r, fp, g)
    else (result, fp, g) in
  let '(result, fp, g) :=
    if result then
      let g := g <| size_riff := to_ulong (ftell fp - 8) |> in
      AVI_WriteHeader e fp g
    else (result, fp, g) in
  let fp := fclose fp in
  let g := if 0 <? audio_buffer_size g
           then g <| audio_buffer := None |>   (* free(audio_buffer) *)
           else g in
  let g := g <| audio_buffer_size := 0 |>
             <| current_audio_samples := -1 |> in
  let g := call_end g in
  let g := g <| video_buffer := None |>        (* free(video_buffer) *)
             <| video_buffer_size := 0 |>
             <| current_screen_size := -1 |>
             <| frame_indexes := None |>       (* free(frame_indexes) *)
             <| num_frames_allocated := 0 |> in
  (result, fp, g).

(** ** Recording sessions

    The emulator drives a recording by calling [AVI_AddVideoFrame] and
    [AVI_AddAudioSamples] once per frame, each time with the screen and the
    settings of the moment. *)
Inductive call :=
  | Video (e : extern)
  | Audio (buf : list Z) (num_samples : Z).

Definition do_call (c : call) (fp : FILE) (g : state) : bool * FILE * state :=
  match c with
  | Video e => AVI_AddVideoFrame e fp g
  | Audio buf num_samples => AVI_AddAudioSamples buf num_samples fp g
  end.

(** The calls made in order, with the value each returned. *)
Fixpoint session (calls : list call) (fp : FILE) (g : state)
    : list bool * FILE * state :=
  match calls with
  | [] => ([], fp, g)
  | c :: calls =>
      let '(r, fp, g) := do_call c fp g in
      let '(rs, fp, g) := session calls fp g in
      (r :: rs, fp, g)
  end.

(** A sound recording: [WAV_WriteSamples] called with each buffer in turn. *)
Fixpoint wav_session (calls : list (list Z * Z)) (fp : option FILE) (g : state)
    : list Z * option FILE * state :=
  match calls with
  | [] => ([], fp, g)
  | (buf, num_samples) :: calls =>
      let '(r, fp, g) := WAV_WriteSamples (Some buf) num_samples fp g in
      let '(rs, fp, g) := wav_session calls fp g in
      (r :: rs, fp, g)
  end.

End FileExport.

(** ** Bytes on the stream and in the file, for the statements *)

(** The two bytes [fputw] writes and the four bytes [fputl] writes. *)
Definition le16 (x : Z) : list Z :=
  let x := to_uword x in [Z.land x 0xff; Z.land (Z.shiftr x 8) 0xff].

Definition le32 (x : Z) : list Z :=
  let x := to_ulong x in
  [Z.land x 0xff; Z.land (Z.shiftr x 8) 0xff;
   Z.land (Z.shiftr x 16) 0xff; Z.land (Z.shiftr x 24) 0xff].

(** The bytes [fwrite] hands to the stream. *)
Definition fwrite_bytes (ptr : list Z) (size nmemb : Z) : list Z :=
  if (size <=? 0) || (nmemb <=? 0) then [] else read_buf ptr (size * nmemb).

(** The 32-bit little-endian value stored at offset [off] of a file. *)
Definition read32 (data : list Z) (off : Z) : Z :=
  let b i := nth (Z.to_nat (off + i)) data 0 in
  b 0 + 2 ^ 8 * b 1 + 2 ^ 16 * b 2 + 2 ^ 24 * b 3.

(** The [n] bytes stored from offset [off] on. *)
Definition slice (data : list Z) (off n : Z) : list Z :=
  take (Z.to_nat n) (drop (Z.to_nat off) data).

(** A stream positioned at the end of its file. *)
Definition at_end (fp : FILE) : Prop :=
  f_open fp = true /\ f_pos fp = Z.of_nat (length (f_data fp)).

(** What holds of a sound recording between two calls. *)
Definition wav_inv `{Platform} (fp : FILE) (g : state) : Prop :=
  at_end fp /\ f_seekable fp = true /\
  byteswritten g = Z.of_nat (length (f_data fp)) - 44 /\
  0 <= byteswritten g /\
  (sample_size g = 1 \/ sample_size g = 2).

(** ** Reading a PCX pixel stream

    A run is a pair [(n, v)]: the value [v] repeated [n] times.  Version 5
    of the format stores a run as a count byte [0xC0 | n] followed by [v],
    except that a single byte below [0xC0] may stand for itself. *)
Definition pcx_group (run : Z * Z) : list Z :=
  let '(n, v) := run in
  if (n =? 1) && (v <? 0xc0) then [v] else [Z.lor 0xc0 n; v].

Definition pcx_encode (runs : list (Z * Z)) : list Z :=
  run ← runs; pcx_group run.

Definition pcx_expand (runs : list (Z * Z)) : list Z :=
  run ← runs; replicate (Z.to_nat run.1) run.2.

(** A run as a property: between 1 and 63 bytes of one value. *)
Definition pcx_run_ok (run : Z * Z) : Prop :=
  1 <= run.1 <= 63 /\ 0 <= run.2 < 256.

(** Decoding one scan line of [need] pixels: a byte with its two top bits
    set is a count, its low six bits say how often the next byte repeats;
    any other byte is one pixel.  A run that would go past the end of the
    scan line is an error. *)
Fixpoint pcx_decode_line (s : list Z) (need : Z) : option (list Z * list Z) :=
  if need <=? 0 then (if need =? 0 then Some ([], s) else None)
  else
    match s with
    | [] => None
    | b :: s' =>
        if Z.land b 0xc0 =? 0xc0 then
          match s' with
          | [] => None
          | v :: s'' =>
              let n := Z.land b 0x3f in
              if n <=? need then
                match pcx_decode_line s'' (need - n) with
                | Some (px, rest) => Some (replicate (Z.to_nat n) v ++ px, rest)
                | None => None
                end
              else None
          end
        else
          match pcx_decode_line s' (need - 1) with
          | Some (px, rest) => Some (b :: px, rest)
          | None => None
          end
    end.

(** Decoding [height] scan lines of [width] pixels each. *)
Fixpoint pcx_decode (height : nat) (width : Z) (s : list Z)
    : option (list (list Z) * list Z) :=
  match height with
  | O => Some ([], s)
  | S height =>
      match pcx_decode_line s width with
      | Some (row, rest) =>
          match pcx_decode height width rest with
          | Some (rows, rest) => Some (row :: rows, rest)
          | None => None
          end
      | None => None
      end
  end.

(** The part of the screen that is saved: [video_height] rows of
    [video_width] pixels, from the top left corner given by the margins. *)
Definition cropped `{Platform} (ptr1 : list Z) (g : state) : list (list Z) :=
  (fun y => rd ptr1 <$> seqZ (Screen_WIDTH * (video_top_margin g + y)
                              + video_left_margin g) (video_width g))
  <$> seqZ 0 (video_height g).

(** The 128 bytes of a PCX header for [planes] bit planes. *)
Definition PCX_header `{Platform} (g : state) (planes : Z) : list Z :=
  [0xa] ++ [0x5] ++ [0x1] ++ [0x8] ++ le16 0 ++ le16 0
  ++ le16 (video_width g - 1) ++ le16 (video_height g - 1)
  ++ le16 0 ++ le16 0 ++ replicate 48 0 ++ [0] ++ [planes]
  ++ le16 (video_width g) ++ le16 1 ++ le16 (video_width g)
  ++ le16 (video_height g) ++ replicate 54 0.

(** ** AVI chunks *)

(** A RIFF chunk as [AVI_WriteFrame] writes it: the tag, the length of the
    payload, the payload, and a zero byte when the length is odd. *)
Definition chunk_bytes (tag : string) (size : Z) (payload : list Z) : list Z :=
  bytes_of_string tag ++ le32 size ++ payload
  ++ (if negb (Z.rem size 2 =? 0) then [0] else []).

(** The bytes [AVI_WriteFrame] hands to the stream for the pending frame:
    the video chunk and, with two streams, the audio chunk. *)
Definition frame_bytes `{Platform} (g : state) : list Z :=
  chunk_bytes "00dc" (current_screen_size g)
    (fwrite_bytes (contents (video_buffer g)) 1 (current_screen_size g))
  ++ (if num_streams g =? 2 then
        chunk_bytes "01wb" (to_int (current_audio_samples g * sample_size g))
          (fwrite_bytes (contents (audio_buffer g)) (sample_size g)
             (current_audio_samples g))
      else []).

(** The size recorded for the audio chunk of the pending frame. *)
Definition pending_audio_size `{Platform} (g : state) : Z :=
  if num_streams g =? 2 then to_int (current_audio_samples g * sample_size g)
  else 0.

(** The variables [AVI_WriteFrame] leaves alone. *)
Definition same_setup `{Platform} (g g' : state) : Prop :=
  num_streams g' = num_streams g /\
  sample_size g' = sample_size g /\
  video_codec g' = video_codec g /\
  audio_buffer_size g' = audio_buffer_size g /\
  audio_buffer g' = audio_buffer g /\
  video_buffer_size g' = video_buffer_size g /\
  video_buffer g' = video_buffer g /\
  size_movi g' = size_movi g /\
  size_riff g' = size_riff g /\
  fps g' = fps g /\
  keyframe_interval g' = keyframe_interval g /\
  codec_memory g' = codec_memory g /\
  trace g' = trace g /\
  video_width g' = video_width g /\
  video_height g' = video_height g.

(** The number of bytes [AVI_WriteFrame] expects the pending frame to take
    in the file ([expected_frame_size] of the source). *)
Definition expected_frame_size `{Platform} (g : state) : Z :=
  let expected := to_int (8 + current_screen_size g
                          + Z.rem (current_screen_size g) 2) in
  if num_streams g =? 2 then
    let audio_size := to_int (current_audio_samples g * sample_size g) in
    to_int (expected + (8 + audio_size + Z.rem audio_size 2))
  else expected.

(** The index array holds [num_frames_allocated] words, of which the first
    [frames_written] are in use. *)
Definition index_ok `{Platform} (g : state) : Prop :=
  exists l, frame_indexes g = Some l /\
    Z.of_nat (length l) = num_frames_allocated g /\
    0 <= frames_written g < num_frames_allocated g /\
    num_frames_allocated g <= frames_written g + FRAME_INDEX_ALLOC_SIZE.

(** What a call leaves alone when it encodes a frame, copies samples or
    fails, apart from writing a pending frame first: the frames recorded so
    far and the settings of the recording. *)
Definition same_recording `{Platform} (g g' : state) : Prop :=
  frame_indexes g' = frame_indexes g /\
  frames_written g' = frames_written g /\
  num_frames_allocated g' = num_frames_allocated g /\
  current_is_keyframe g' = current_is_keyframe g /\
  byteswritten g' = byteswritten g /\
  num_streams g' = num_streams g /\
  sample_size g' = sample_size g /\
  video_codec g' = video_codec g /\
  audio_buffer_size g' = audio_buffer_size g /\
  size_movi g' = size_movi g.

(** ** Options and configuration (lines 178-332)

    [File_Export_Initialise] and [File_Export_ReadConfig] set
    [requested_video_codec], [keyframe_interval] and
    [FILE_EXPORT_compression_level]. *)

(** What this part of the file takes from util.c and from the build. *)
Class Config `{Platform} := {
  (** [Util_stricmp(a, b)]: 0 when the strings are equal but for case *)
  Util_stricmp : string -> string -> Z;
  (** [Util_sscandec(s)]: the decimal number [s], -1 when it is none *)
  Util_sscandec : string -> Z;
  (** [Video_Codec_MPNG], when [VIDEO_CODEC_PNG] is defined *)
  Video_Codec_MPNG : option (VIDEO_CODEC_t codec_state);
  (** [defined(VIDEO_CODEC_ZMBV)] *)
  have_zmbv : bool;
  (** [defined(HAVE_LIBPNG) || defined(HAVE_LIBZ)] *)
  have_compression : bool }.

Section Configuration.
Context `{Config}.

(** The static variables of this part: those of the recorder, and
    [FILE_EXPORT_compression_level], which other files read. *)
Record settings := {
  vars : state;
  FILE_EXPORT_compression_level : Z }.

Definition log_s (format : string) (s : settings) : settings :=
  {| vars := log format (vars s);
     FILE_EXPORT_compression_level := FILE_EXPORT_compression_level s |}.

Definition set_requested_video_codec (c : option (VIDEO_CODEC_t codec_state))
    (s : settings) : settings :=
  {| vars := (vars s) <| requested_video_codec := c |>;
     FILE_EXPORT_compression_level := FILE_EXPORT_compression_level s |}.

Definition set_keyframe_interval (n : Z) (s : settings) : settings :=
  {| vars := (vars s) <| keyframe_interval := n |>;
     FILE_EXPORT_compression_level := FILE_EXPORT_compression_level s |}.

Definition set_compression_level (n : Z) (s : settings) : settings :=
  {| vars := vars s; FILE_EXPORT_compression_level := n |}.

(** The table [known_video_codecs], without the [NULL] that ends it. *)
Definition known_video_codecs : list (VIDEO_CODEC_t codec_state) :=
  [Video_Codec_MRLE]
  ++ match Video_Codec_MPNG with Some c => [c] | None => [] end
  ++ (if have_zmbv then [Video_Codec_ZMBV] else []).

(** The [while ( *v)] loop of [match_video_codec], from [v] on. *)
Fixpoint match_video_codec_from (v : list (VIDEO_CODEC_t codec_state))
    (id : string) : option (VIDEO_CODEC_t codec_state) :=
  match v with
  | [] => None
  | c :: v =>
      if Util_stricmp id (vc_codec_id c) =? 0 then Some c
      else match_video_codec_from v id
  end.

Definition match_video_codec (id : string)
    : option (VIDEO_CODEC_t codec_state) :=
  match_video_codec_from known_video_codecs id.

(** [video_codec_args]: the usage line of [-videocodec]; it starts with a
    tab. *)
Definition video_codec_args : string :=
  foldl (fun buf c => buf +:+ "|" +:+ vc_codec_id c)
    (String (Ascii.ascii_of_nat 9) "-videocodec auto") known_video_codecs.

(** [strcmp(a, b) == 0] *)
Definition streq (a b : string) : bool := String.eqb a b.

(** [File_Export_ReadConfig(string, ptr)] for the line [string=ptr] of the
    configuration file. *)
Definition File_Export_ReadConfig (string_ ptr : string) (s : settings)
    : bool * settings :=
  if streq string_ "VIDEO_CODEC" then
    if Util_stricmp ptr "auto" =? 0 then
      (true, set_requested_video_codec None s)   (* want best available *)
    else
      let s := set_requested_video_codec (match_video_codec ptr) s in
      match requested_video_codec (vars s) with
      | None => (false, s)
      | Some _ => (true, s)
      end
  else if streq string_ "VIDEO_CODEC_KEYFRAME_INTERVAL" then
    let num := to_int (Util_sscandec ptr) in
    if 0 <? num then (true, set_keyframe_interval num s)
    else (false, s)
  else if have_compression && streq string_ "COMPRESSION_LEVEL" then
    let num := to_int (Util_sscandec ptr) in
    if (0 <=? num) && (num <=? 9) then (true, set_compression_level num s)
    else (false, s)
  else (false, s).

(** [argv[i]]; reading past the end of the array is undefined in C and
    gives the empty string here. *)
Definition arg (argv : list string) (i : Z) : string :=
  nth (Z.to_nat i) argv "".

(** The lines [-help] prints. *)
Definition help (s : settings) : settings :=
  let s := s ;> log_s video_codec_args
             ;> log_s "	                 Select video codec (default: auto)"
             ;> log_s "	-keyframe-interval <ms>"
             ;> log_s "	                 Select interval between video keyframes in milliseconds" in
  if have_compression then
    s ;> log_s "	-compression-level <n>"
      ;> log_s "	                 Set zlib/PNG compression level 0-9 (default 6)"
  else s.

(** What [File_Export_Initialise] returns: its value, [*argc], [argv] and
    the variables. *)
Definition initialised : Type := bool * Z * list string * settings.

(** The [for] loop of [File_Export_Initialise] from [i] and [j] on, and
    the two lines after it.  Recursion is on [fuel]; the loop ends before
    it runs out when [fuel] is at least [argc - i]. *)
Fixpoint File_Export_Initialise_from (fuel : nat) (argc i j : Z)
    (argv : list string) (s : settings) : initialised :=
  match fuel with
  | O => (true, j, argv, s)
  | S fuel =>
      if i <? argc then
        let i_a := i + 1 <? argc in   (* is argument available? *)
        if streq (arg argv i) "-videocodec" then
          if i_a then
            let i := i + 1 in
            let mode := arg argv i in
            if streq mode "auto" then
              File_Export_Initialise_from fuel argc (i + 1) j argv
                (set_requested_video_codec None s)   (* want best available *)
            else
              let s := set_requested_video_codec (match_video_codec mode) s in
              match requested_video_codec (vars s) with
              | None => (false, argc, argv, log_s "Invalid argument for '%s'" s)
              | Some _ => File_Export_Initialise_from fuel argc (i + 1) j argv s
              end
          else (false, argc, argv, log_s "Missing argument for '%s'" s)
        else if streq (arg argv i) "-keyframe-interval" then
          if i_a then
            let i := i + 1 in
            let s := set_keyframe_interval (to_int (Util_sscandec (arg argv i))) s in
            if keyframe_interval (vars s) <? 1 then
              (false, argc, argv,
               log_s "Invalid keyframe interval time, must be 1 millisecond or greater." s)
            else File_Export_Initialise_from fuel argc (i + 1) j argv s
          else (false, argc, argv, log_s "Missing argument for '%s'" s)
        else if have_compression && streq (arg argv i) "-compression-level" then
          if i_a then
            let i := i + 1 in
            let s := set_compression_level (to_int (Util_sscandec (arg argv i))) s in
            if (FILE_EXPORT_compression_level s <? 0)
               || (9 <? FILE_EXPORT_compression_level s) then
              (false, argc, argv,
               log_s "Invalid png/zlib compression level - must be between 0 and 9" s)
            else File_Export_Initialise_from fuel argc (i + 1) j argv s
          else (false, argc, argv, log_s "Missing argument for '%s'" s)
        else
          let s := if streq (arg argv i) "-help" then help s else s in
          let argv := <[Z.to_nat j := arg argv i]> argv in
          File_Export_Initialise_from fuel argc (i + 1) (j + 1) argv s
      else (true, j, argv, s)
  end.

Definition File_Export_Initialise (argc : Z) (argv : list string) (s : settings)
    : initialised :=
  File_Export_Initialise_from (Z.to_nat argc) argc 1 1 argv s.

End Configuration.

(** ** Recording sessions, seen from outside *)

(** The variables a recording starts from. *)
Definition recording_started `{Platform} (e : extern) (g : state) : Prop :=
  frames_written g = 0 /\ current_is_keyframe g = true /\
  current_screen_size g = -1 /\ current_audio_samples g = -1 /\
  index_ok g /\
  num_streams g = (if Sound_enabled e then 2 else 1).

(** A recording in error: a sentinel below -1.  The video sentinel stops
    every call; the audio sentinel stops every call of a recording with
    sound. *)
Definition poisoned `{Platform} (g : state) : Prop :=
  current_screen_size g < -1 \/
  (current_audio_samples g < -1 /\ num_streams g <> 1).

(** ** The index chunk *)

(** An entry of the [idx1] chunk (AVIOLDINDEX): the chunk it describes, its
    flags, its offset from the start of the [movi] list and its length. *)
Record idx1_entry := {
  ckid : string;
  dwFlags : Z;
  dwChunkOffset : Z;
  dwChunkLength : Z }.

Definition idx1_entry_bytes (en : idx1_entry) : list Z :=
  bytes_of_string (ckid en) ++ le32 (dwFlags en) ++ le32 (dwChunkOffset en)
  ++ le32 (dwChunkLength en).

(** The room a chunk of [size] bytes takes in the file: its tag and
    length, the bytes, and the padding to an even length. *)
Definition chunk_span (size : Z) : Z := size + 8 + Z.rem size 2.

(** The room [AVI_WriteIndex] reckons for the frame with index word
    [index]: a video chunk and an audio chunk. *)
Definition frame_span (index : Z) : Z :=
  chunk_span (index_video_size index) + chunk_span (index_audio_size index).

(** The offset [AVI_WriteIndex] reckons for frame [k]: 4 for the tag [movi]
    and the room of the frames before. *)
Definition frame_offset `{Platform} (g : state) (k : Z) : Z :=
  4 + foldr Z.add 0
        ((fun i => frame_span (array_get (frame_indexes g) i)) <$> seqZ 0 k).

(** The two index entries of frame [k]. *)
Definition idx1_frame_entries `{Platform} (g : state) (k : Z) : list idx1_entry :=
  let index := array_get (frame_indexes g) k in
  [ {| ckid := "00dc"; dwFlags := index_is_keyframe index;
       dwChunkOffset := frame_offset g k;
       dwChunkLength := index_video_size index |};
    {| ckid := "01wb"; dwFlags := 0x10;
       dwChunkOffset := frame_offset g k + chunk_span (index_video_size index);
       dwChunkLength := index_audio_size index |} ].

(** The index chunk of a recording of [frames_written] frames. *)
Definition idx1_bytes `{Platform} (g : state) : list Z :=
  bytes_of_string "idx1" ++ le32 (32 * frames_written g)
  ++ (k ← seqZ 0 (frames_written g);
      en ← idx1_frame_entries g k; idx1_entry_bytes en).

(** ** Closing *)

(** The variables as the last lines of [AVI_CloseFile] leave them
    (lines 1367-1382): buffers and index released, sizes and sentinels
    reset, the codec's end hook called. *)
Definition released `{Platform} (g : state) : state :=
  (call_end
     ((if 0 <? audio_buffer_size g then g <| audio_buffer := None |> else g)
        <| audio_buffer_size := 0 |> <| current_audio_samples := -1 |>))
    <| video_buffer := None |> <| video_buffer_size := 0 |>
    <| current_screen_size := -1 |> <| frame_indexes := None |>
    <| num_frames_allocated := 0 |>.

(** ** Little-endian words in a file *)

(** The 16-bit little-endian value stored at offset [off] of a file. *)
Definition read16 (data : list Z) (off : Z) : Z :=
  nth (Z.to_nat off) data 0 + 2 ^ 8 * nth (Z.to_nat (off + 1)) data 0.

(** ** The interlaced picture *)

(** What [PCX_SaveScreen] is to save of two screens: for every line of the
    window three scan lines, the red, green and blue planes (shifts 16, 8
    and 0) of the average of the two screens' colours. *)
Definition blended `{Platform} (e : extern) (ptr1 ptr2 : list Z) (g : state)
    : list (list Z) :=
  y ← seqZ 0 (video_height g);
  plane ← [16; 8; 0];
  [pcx_pixel e ptr1 (Some ptr2) plane
   <$> seqZ (Screen_WIDTH * (video_top_margin g + y) + video_left_margin g)
         (video_width g)].

(** ** Options, seen from outside *)

(** An option of this file that takes a value. *)
Definition is_option `{Config} (a : string) : bool :=
  streq a "-videocodec" || streq a "-keyframe-interval"
  || (have_compression && streq a "-compression-level").

(** The arguments that are left for the rest of the emulator: all but the
    options of this file and their values. *)
Fixpoint kept `{Config} (args : list string) : list string :=
  match args with
  | [] => []
  | a :: rest =>
      if is_option a then
        match rest with
        | [] => []
        | _ :: rest => kept rest
        end
      else a :: kept rest
  end.

(** Settings a recording can start from: a keyframe interval of at least a
    millisecond, a compression level from 0 to 9, and a requested codec
    that is one of the table, if any. *)
Definition valid_settings `{Config} (s : settings) : Prop :=
  1 <= keyframe_interval (vars s) /\
  0 <= FILE_EXPORT_compression_level s <= 9 /\
  forall c, requested_video_codec (vars s) = Some c -> c ∈ known_video_codecs.

(** The variables of the recorder, but for the three that options and
    configuration lines touch: two states are the same recorder when they
    differ in those at most. *)
Definition but_settings `{Platform} (g : state) : state :=
  g <| requested_video_codec := None |> <| keyframe_interval := 0 |>
    <| trace := [] |>.

Definition same_recorder `{Platform} (g g' : state) : Prop :=
  but_settings g' = but_settings g.

(** ** A concrete platform, for running the code on examples *)

Module Example.

(** A codec that stores the screen as it is: [frame] copies [source] into
    [buf] and fails when it does not fit; [init] asks for a buffer of
    [bufsize] bytes.  The codec has no memory. *)
Definition raw_codec (bufsize : Z) (interframes : bool) : VIDEO_CODEC_t unit :=
  {| vc_codec_id := "raw";
     vc_description := "uncompressed";
     vc_fourcc := [0x72; 0x61; 0x77; 0x20];
     vc_avi_compression := [0; 0; 0; 0];
     vc_uses_interframes := interframes;
     vc_init := fun _ _ _ _ m => (bufsize, m);
     vc_frame := fun source _ buf size m =>
       if Z.of_nat (length source) <=? size
       then (Z.of_nat (length source), source ++ drop (length source) buf, m)
       else (-1, buf, m);
     vc_end := fun m => (1, m) |}.

(** [float] as exact rationals. *)
#[export] Instance platform : Platform :=
  {| Screen_WIDTH := 384;
     Atari800_TV_PAL := 312;
     POKEYSND_BIT16 := 1;
     codec_state := unit;
     Video_Codec_MRLE := raw_codec 4096 true;
     Video_Codec_ZMBV := raw_codec 4096 false;
     have_zmbv_and_libz := false;
     float := Q;
     Atari800_FPS_PAL := 498607597 # 10000000;
     Atari800_FPS_NTSC := 599227434 # 10000000;
     float_zero := 0%Q;
     usec_per_frame := fun f => Qfloor (1000000 / f);
     stream_rate := fun f => Qfloor (f * 1000000);
     int_div_fps := fun n f => Qfloor (inject_Z n / f);
     residual_advance := fun r f => Qred (r + 1000 / f);
     residual_above := fun r k => negb (Qle_bool r (inject_Z k));
     residual_reduce := fun r k =>
       Qred (r - inject_Z (Qfloor (r / inject_Z k) * k)) |}.

(** A PAL machine with a visible window of [w] by [h] pixels at (8, 4), a
    grey-scale palette, and a disk with room for [limit] bytes. *)
Definition machine (sound : bool) (limit : Z) (w h : Z) (screen : list Z)
    : extern :=
  {| Screen_visible_x1 := 8;
     Screen_visible_x2 := 8 + w;
     Screen_visible_y1 := 4;
     Screen_visible_y2 := 4 + h;
     Screen_atari := screen;
     Colours_table := fun i => i * 0x010101;
     Colours_GetR := fun i => i;
     Colours_GetG := fun i => i;
     Colours_GetB := fun i => i;
     Atari800_tv_mode := 312;
     POKEYSND_snd_flags := 1;
     POKEYSND_num_pokeys := 2;
     POKEYSND_playback_freq := 44100;
     Sound_enabled := sound;
     filesystem := fun _ => Some (limit, true) |}.

(** The static variables as the program starts, with [codec] requested. *)
Definition start (codec : option (VIDEO_CODEC_t unit)) : state :=
  {| byteswritten := 0; frames_written := 0; fps := 0%Q; description := "";
     sample_size := 0;
     video_left_margin := 0; video_top_margin := 0; video_width := 0;
     video_height := 0;
     size_riff := 0; size_movi := 0;
     total_video_size := 0; smallest_video_frame := 0; largest_video_frame := 0;
     num_frames_allocated := 0; frame_indexes := None;
     video_buffer_size := 0; video_buffer := None;
     current_screen_size := -1;
     video_codec := None; requested_video_codec := codec;
     keyframe_interval := 1000; keyframe_residual := 0%Q;
     current_is_keyframe := false;
     samples_written := 0; audio_buffer_size := 0; audio_buffer := None;
     current_audio_samples := -1;
     num_streams := 0;
     codec_memory := tt;
     trace := [] |}.

(** A screen of [Screen_WIDTH] by 6 whose visible window of 6 by 2 holds
    the rows [7 7 7 200 5 5] and [1 2 3 3 3 3]. *)
Definition small_screen : list Z :=
  replicate (4 * 384) 0
  ++ (replicate 8 0 ++ [7; 7; 7; 200; 5; 5] ++ replicate 370 0)
  ++ (replicate 8 0 ++ [1; 2; 3; 3; 3; 3] ++ replicate 370 0).

(** A new file with room for [limit] bytes. *)
Definition new_file (limit : Z) : FILE :=
  {| f_data := []; f_pos := 0; f_limit := limit; f_seekable := true;
     f_open := true |}.

(** [AVI_OpenFile] on [machine], expected to succeed. *)
Definition open_avi (e : extern) (g : state) : FILE * state :=
  match AVI_OpenFile e "video.avi" g with
  | (Some fp, g) => (fp, g)
  | (None, g) => (new_file 0, g)
  end.

(** A recording: the file opened, then the calls made. *)
Definition record (e : extern) (g : state) (calls : list call)
    : list bool * FILE * state :=
  let '(fp, g) := open_avi e g in session calls fp g.

End Example.

(** ** Small recordings, run *)

Module Demo.

Import Example.

(** A PAL machine with sound, a window of 4 by 2 and room for 100000 bytes
    on its disk, and the same without sound. *)
Definition sound : extern := machine true 100000 4 2 [1; 2; 3].
Definition silent : extern := machine false 100000 4 2 [1; 2; 3].

(** A codec without inter-frames. *)
Definition intra : VIDEO_CODEC_t unit := raw_codec 4096 false.

(** The file and the variables after the calls [calls] of a recording on
    [e]. *)
Definition after (e : extern) (codec : option (VIDEO_CODEC_t unit))
    (calls : list call) : FILE * state :=
  let '(_, fp, g) := record e (start codec) calls in (fp, g).

(** Just opened. *)
Definition opened : FILE * state := Eval vm_compute in after sound None [].

(** A frame encoded and four 16-bit samples delivered: a whole
    frame is pending. *)
Definition pending : FILE * state :=
  Eval vm_compute in
    after sound None [Video sound; Audio [1; 2; 3; 4; 5; 6; 7; 8] 4].

(** A frame encoded, and an audio call that brought no samples. *)
Definition no_samples : FILE * state :=
  Eval vm_compute in after sound None [Video sound; Audio [] 0].

(** Two frames written and a third encoded. *)
Definition two_frames : FILE * state :=
  Eval vm_compute in
    after sound None
      [Video sound; Audio [1; 2; 3; 4] 2; Video sound; Audio [5; 6] 1;
       Video sound].

(** More samples delivered than the audio buffer holds. *)
Definition overrun : FILE * state :=
  Eval vm_compute in after sound None [Video sound; Audio [] 5000].

(** A frame encoded, no samples yet. *)
Definition encoded : FILE * state := Eval vm_compute in after sound None [Video sound].

(** Single calls, with what they returned. *)
Definition audio_too_large : bool * FILE * state :=
  Eval vm_compute in AVI_AddAudioSamples [] 5000 opened.1 opened.2.
Definition audio_added : bool * FILE * state :=
  Eval vm_compute in AVI_AddAudioSamples [1; 2; 3; 4; 5; 6; 7; 8] 4 encoded.1 encoded.2.
Definition video_added : bool * FILE * state :=
  Eval vm_compute in AVI_AddVideoFrame sound pending.1 pending.2.
Definition frame_written : bool * FILE * state :=
  Eval vm_compute in AVI_WriteFrame pending.1 pending.2.
Definition closed : bool * FILE * state :=
  Eval vm_compute in AVI_CloseFile sound pending.1 pending.2.

(** Five calls after [opened], with what they returned; the same with the
    codec [intra]. *)
Definition five_calls : list call :=
  [Video sound; Audio [1; 2; 3; 4] 2; Video sound; Audio [5; 6] 1; Video sound].
Definition ran : list bool * FILE * state :=
  Eval vm_compute in session five_calls opened.1 opened.2.
Definition opened_intra : FILE * state :=
  Eval vm_compute in after sound (Some intra) [].
Definition ran_intra : list bool * FILE * state :=
  Eval vm_compute in session five_calls opened_intra.1 opened_intra.2.

(** A codec that refuses to initialise, and the variables after
    [AVI_OpenFile] has failed on it. *)
Definition refusing : VIDEO_CODEC_t unit := raw_codec (-1) false.
Definition refused : state :=
  Eval vm_compute in (AVI_OpenFile sound "video.avi" (start (Some refusing))).2.

End Demo.

(** ** A concrete build, for running the option code on examples *)

Module Setup.

Import Example.

(** ASCII lower case. *)
Definition lower (c : Ascii.ascii) : Ascii.ascii :=
  let n := Z.of_N (Ascii.N_of_ascii c) in
  if (65 <=? n) && (n <=? 90) then Ascii.ascii_of_N (Z.to_N (n + 32)) else c.

Fixpoint lower_case (s : string) : string :=
  match s with
  | EmptyString => EmptyString
  | String c s => String (lower c) (lower_case s)
  end.

(** A comparison that is 0 exactly on strings equal but for case. *)
Definition stricmp (a b : string) : Z :=
  if String.eqb (lower_case a) (lower_case b) then 0 else 1.

(** The decimal number a string of digits spells, -1 for any other. *)
Fixpoint digits (s : string) (acc : Z) : Z :=
  match s with
  | EmptyString => acc
  | String c s =>
      let d := Z.of_N (Ascii.N_of_ascii c) - 48 in
      if (0 <=? d) && (d <=? 9) then digits s (10 * acc + d) else -1
  end.

Definition sscandec (s : string) : Z :=
  match s with
  | EmptyString => -1
  | _ => digits s 0
  end.

(** A third codec, named [png]. *)
Definition png : VIDEO_CODEC_t unit :=
  let c := raw_codec 4096 false in
  {| vc_codec_id := "png";
     vc_description := "Portable Network Graphics";
     vc_fourcc := [0x4d; 0x50; 0x4e; 0x47];
     vc_avi_compression := [0x4d; 0x50; 0x4e; 0x47];
     vc_uses_interframes := false;
     vc_init := vc_init c;
     vc_frame := vc_frame c;
     vc_end := vc_end c |}.

(** A build with all three codecs and compression. *)
#[export] Instance config : Config :=
  {| Util_stricmp := stricmp;
     Util_sscandec := sscandec;
     Video_Codec_MPNG := Some png;
     have_zmbv := true;
     have_compression := true |}.

(** The settings as the program starts. *)
Definition defaults : settings :=
  {| vars := start None; FILE_EXPORT_compression_level := 6 |}.

(** A command line with options of this file among others. *)
Definition command_line : list string :=
  ["atari800"; "-videocodec"; "PNG"; "-nobasic"; "-keyframe-interval"; "250";
   "-help"; "game.xex"].

(** What [File_Export_Initialise] makes of it: the codec and the interval
    set, the usage printed, four arguments left. *)
Definition parsed : initialised :=
  (true, 4,
   ["atari800"; "-nobasic"; "-help"; "game.xex"; "-keyframe-interval"; "250";
    "-help"; "game.xex"],
   help (set_keyframe_interval 250
           (set_requested_video_codec (Some png) defaults))).

(** A command line whose keyframe interval is no number. *)
Definition bad_command_line : list string :=
  ["atari800"; "-nobasic"; "-keyframe-interval"; "soon"; "game.xex"].

Definition rejected : initialised :=
  (false, 5, bad_command_line,
   log_s "Invalid keyframe interval time, must be 1 millisecond or greater."
     (set_keyframe_interval (-1) defaults)).

(** A line of the configuration file. *)
Definition configured : bool * settings :=
  (true, set_keyframe_interval 250 defaults).

End Setup.

(** ** Sound files and screenshots, run *)

Module Stills.

Import Example.

(** A machine with two POKEYs and 16-bit sound, and a disk with room for
    [limit] bytes. *)
Definition stereo (limit : Z) : extern := machine true limit 6 2 [].

(** A sound file just opened, with room for 1000 bytes. *)
Definition wav_opened : option FILE * state :=
  Eval vm_compute in WAV_OpenFile (stereo 1000) "sound.wav" (start None).


(** The first screen shifted by one pixel. *)
Definition second_screen : list Z := 0 :: small_screen.

(** The variables with the window of [machine _ _ 6 2 _]. *)
Definition window : state :=
  Eval vm_compute in set_video_margins (stereo 0) (start None).

(** The pixel data of [small_screen]. *)
Definition pixels : list Z :=
  Eval vm_compute in
    match PCX_pixels (stereo 0) small_screen None window with
    | Some stream => stream
    | None => []
    end.

End Stills.

(** * Properties *)

Section Proofs.
Context `{Platform}.

Arguments emit : simpl never.
Arguments fputs : simpl never.
Arguments fputl : simpl never.
Arguments fputw : simpl never.
Arguments fputc_ : simpl never.
Arguments fseek_ : simpl never.
Arguments fwrite_ : simpl never.
Arguments fwritele_ : simpl never.
Arguments le32 : simpl never.
Arguments le16 : simpl never.
Arguments bytes_of_string : simpl never.
Arguments read_buf : simpl never.
Arguments fwrite_bytes : simpl never.
Arguments to_ulong : simpl never.
Arguments to_int : simpl never.
Arguments to_ubyte : simpl never.
Arguments to_uword : simpl never.
Arguments ftell : simpl never.
Arguments WAV_OpenFile : simpl never.
Arguments WAV_WriteSamples : simpl never.
Arguments WAV_CloseFile : simpl never.
Arguments AVI_WriteHeader : simpl never.
Arguments AVI_OpenFile : simpl never.
Arguments AVI_WriteFrame : simpl never.
Arguments AVI_AddVideoFrame : simpl never.
Arguments AVI_AddAudioSamples : simpl never.
Arguments AVI_WriteIndex : simpl never.
Arguments AVI_CloseFile : simpl never.

(** ** Machine integers *)

Lemma to_ulong_small x : 0 <= x < 2 ^ 32 -> to_ulong x = x.
Proof. intros; unfold to_ulong; apply Z.mod_small; lia. Qed.

Lemma to_int_small x : - 2 ^ 31 <= x < 2 ^ 31 -> to_int x = x.
Proof. intros; unfold to_int; rewrite Z.mod_small; lia. Qed.

Lemma to_ubyte_small x : 0 <= x < 256 -> to_ubyte x = x.
Proof. intros; unfold to_ubyte; apply Z.mod_small; lia. Qed.

Lemma to_ulong_range x : 0 <= to_ulong x < 2 ^ 32.
Proof. unfold to_ulong; apply Z.mod_pos_bound; lia. Qed.

Lemma to_int_range x : - 2 ^ 31 <= to_int x < 2 ^ 31.
Proof. unfold to_int; pose proof (Z.mod_pos_bound (x + 2 ^ 31) (2 ^ 32)); lia. Qed.

Lemma to_ubyte_range x : 0 <= to_ubyte x < 256.
Proof. unfold to_ubyte; apply Z.mod_pos_bound; lia. Qed.

(** ** Streams *)

Lemma fputc_attrs c fp :
  f_limit (fputc_ c fp) = f_limit fp /\ f_seekable (fputc_ c fp) = f_seekable fp
  /\ f_open (fputc_ c fp) = f_open fp.
Proof. unfold fputc_, fputc. destruct (_ && _); simpl; auto. Qed.

Lemma emit_nil fp : emit [] fp = fp.
Proof. reflexivity. Qed.

Lemma emit_cons c l fp : emit (c :: l) fp = emit l (fputc_ c fp).
Proof. reflexivity. Qed.

Lemma emit_app l1 l2 fp : emit (l1 ++ l2) fp = emit l2 (emit l1 fp).
Proof. unfold emit. apply foldl_app. Qed.

Lemma emit_attrs l fp :
  f_limit (emit l fp) = f_limit fp /\ f_seekable (emit l fp) = f_seekable fp
  /\ f_open (emit l fp) = f_open fp.
Proof.
  revert fp. induction l as [|c l IH]; intros fp; [auto|].
  rewrite emit_cons. destruct (IH (fputc_ c fp)) as (A & B & C).
  destruct (fputc_attrs c fp) as (A' & B' & C'). repeat split; congruence.
Qed.

Lemma fputc__emit c fp : fputc_ c fp = emit [c] fp.
Proof. reflexivity. Qed.

Lemma fputw_emit x fp : fputw x fp = emit (le16 x) fp.
Proof. reflexivity. Qed.

Lemma fputl_emit x fp : fputl x fp = emit (le32 x) fp.
Proof. reflexivity. Qed.

Lemma fputs_emit s fp : fputs s fp = emit (bytes_of_string s) fp.
Proof. reflexivity. Qed.

Lemma fwrite__emit ptr size nmemb fp :
  fwrite_ ptr size nmemb fp = emit (fwrite_bytes ptr size nmemb) fp.
Proof. unfold fwrite_, fwrite, fwrite_bytes. destruct (_ || _); reflexivity. Qed.

Lemma fwritele__emit ptr size nmemb fp :
  fwritele_ ptr size nmemb fp = emit (fwrite_bytes ptr size nmemb) fp.
Proof. apply fwrite__emit. Qed.

Lemma store_end (l : list Z) c : store (length l) c l = l ++ [c].
Proof.
  unfold store. rewrite (proj2 (Nat.ltb_ge _ _)) by lia.
  now rewrite Nat.sub_diag.
Qed.

Lemma fputc_at_end c fp :
  at_end fp -> f_pos fp < f_limit fp ->
  fputc c fp = (to_ubyte c,
                mkFILE (f_data fp ++ [to_ubyte c]) (f_pos fp + 1) (f_limit fp)
                  (f_seekable fp) (f_open fp)).
Proof.
  intros [Ho Hp] Hl. unfold fputc. rewrite Ho.
  rewrite (proj2 (Z.leb_le _ _)), (proj2 (Z.ltb_lt _ _)) by lia. simpl.
  rewrite Hp, Nat2Z.id, store_end. reflexivity.
Qed.

Lemma fputc_full c fp :
  f_open fp = true -> f_limit fp <= f_pos fp -> fputc c fp = (EOF, fp).
Proof.
  intros Ho Hl. unfold fputc. rewrite (proj2 (Z.ltb_ge _ _)) by lia.
  now rewrite andb_false_r.
Qed.

Lemma emit_full l fp :
  f_open fp = true -> f_limit fp <= f_pos fp -> emit l fp = fp.
Proof.
  intros Ho Hl. induction l as [|c l IH]; [reflexivity|].
  rewrite emit_cons. unfold fputc_. rewrite fputc_full by auto. exact IH.
Qed.

(** The bytes that fit are appended, the rest are dropped. *)
Lemma emit_at_end l fp :
  at_end fp ->
  let k := Z.to_nat (Z.min (Z.of_nat (length l)) (Z.max 0 (f_limit fp - f_pos fp))) in
  emit l fp = mkFILE (f_data fp ++ (to_ubyte <$> take k l)) (f_pos fp + Z.of_nat k)
                (f_limit fp) (f_seekable fp) (f_open fp).
Proof.
  revert fp. induction l as [|c l IH]; intros fp He k.
  - assert (Hk : k = 0%nat) by (subst k; simpl length; lia).
    rewrite Hk. simpl. rewrite app_nil_r, Z.add_0_r. now destruct fp.
  - rewrite emit_cons. destruct (Z.lt_ge_cases (f_pos fp) (f_limit fp)) as [Hl|Hl].
    + unfold fputc_. rewrite fputc_at_end by auto. simpl.
      set (fp' := mkFILE _ _ _ _ _).
      assert (He' : at_end fp').
      { destruct He as [Ho Hp]. split; [exact Ho|]. subst fp'; simpl.
        rewrite length_app; simpl. lia. }
      rewrite (IH fp' He'). subst fp'; simpl.
      assert (Hk : k = S (Z.to_nat (Z.min (Z.of_nat (length l))
                                  (Z.max 0 (f_limit fp - (f_pos fp + 1)))))).
      { subst k. simpl length. lia. }
      rewrite Hk. simpl. rewrite <- app_assoc. simpl. f_equal. lia.
    + destruct He as [Ho Hp]. rewrite (emit_full l), fputc__emit, emit_full; auto.
      * assert (Hk : k = 0%nat) by (subst k; lia).
        rewrite Hk. simpl. rewrite app_nil_r, Z.add_0_r. now destruct fp.
      * unfold fputc_. now rewrite fputc_full.
      * unfold fputc_. now rewrite fputc_full.
Qed.

(** ** Bits of the packed index word *)

Lemma land_pow2 x n : 0 <= n -> Z.land x (2 ^ n) = if Z.testbit x n then 2 ^ n else 0.
Proof.
  intros Hn. apply Z.bits_inj'. intros i Hi.
  rewrite Z.land_spec, Z.pow2_bits_eqb by lia.
  destruct (Z.eqb_spec n i) as [->|Hne].
  - destruct (Z.testbit x i) eqn:E; simpl.
    + rewrite Z.pow2_bits_true; lia.
    + now rewrite Z.bits_0.
  - rewrite andb_false_r. destruct (Z.testbit x n).
    + rewrite Z.pow2_bits_false; lia.
    + now rewrite Z.bits_0.
Qed.

Lemma testbit_high x n : 0 <= n -> 0 <= x < 2 ^ (n + 1) -> Z.testbit x n = (2 ^ n <=? x).
Proof.
  intros Hn Hx. rewrite Z.pow_add_r in Hx by lia. change (2 ^ 1) with 2 in Hx.
  assert (P : 0 < 2 ^ n) by (apply Z.pow_pos_nonneg; lia).
  destruct (Z.leb_spec (2 ^ n) x).
  - apply Z.testbit_true; [lia|].
    assert (E : 1 = x / 2 ^ n) by (apply Z.div_unique with (r := x - 2 ^ n); lia).
    now rewrite <- E.
  - apply Z.testbit_false; [lia|]. rewrite Z.div_small by lia. reflexivity.
Qed.

Lemma lor_pow2 x n : 0 <= n -> 0 <= x < 2 ^ n -> Z.lor x (2 ^ n) = x + 2 ^ n.
Proof.
  intros Hn Hx. rewrite <- Z.lxor_lor, <- Z.add_nocarry_lxor; auto;
  rewrite land_pow2 by lia; rewrite testbit_high; try lia;
  destruct (Z.leb_spec (2 ^ n) x); try lia.
  all: rewrite Z.pow_add_r by lia; lia.
Qed.

Lemma frame_index_entry_sum (v a : Z) (kf : bool) :
  0 <= v <= 262143 -> 0 <= a <= 8191 ->
  frame_index_entry v a kf = v + 2 ^ 18 * a + (if kf then 2 ^ 31 else 0).
Proof.
  intros Hv Ha. unfold frame_index_entry, AUDIO_BITSHIFT, KEYFRAME_BITMASK.
  rewrite to_ulong_small by lia.
  destruct kf; [|lia].
  change 0x80000000 with (2 ^ 31). rewrite lor_pow2; lia.
Qed.

(** The bits [lo] to [hi - 1] of [x], left in place. *)
Lemma land_bit_field x hi lo : 0 <= lo -> 0 <= hi ->
  Z.land x (Z.ldiff (Z.ones hi) (Z.ones lo)) = 2 ^ lo * ((x mod 2 ^ hi) / 2 ^ lo).
Proof.
  intros Hlo Hhi.
  assert (E : Z.land x (Z.ldiff (Z.ones hi) (Z.ones lo))
              = Z.ldiff (Z.land x (Z.ones hi)) (Z.ones lo)).
  { apply Z.bits_inj'. intros i Hi.
    rewrite !Z.land_spec, !Z.ldiff_spec, Z.land_spec. apply andb_assoc. }
  rewrite E, Z.land_ones, Z.ldiff_ones_r, Z.shiftl_mul_pow2, Z.shiftr_div_pow2 by lia.
  lia.
Qed.

Lemma land_audio_mask x : 0 <= x ->
  Z.land x AUDIO_BITMASK = 2 ^ 18 * ((x mod 2 ^ 31) / 2 ^ 18).
Proof.
  intros Hx.
  replace AUDIO_BITMASK with (Z.ldiff (Z.ones 31) (Z.ones 18)) by reflexivity.
  now rewrite land_bit_field by lia.
Qed.

(** Claim C2.  For a video size of at most 262143 and an audio size of at
    most 8191, the word [AVI_WriteFrame] stores unpacks in [AVI_WriteIndex]
    to the same video size, audio size and keyframe flag: bits 0-17 hold the
    video size, bits 18-30 the audio size, bit 31 the keyframe flag. *)
Theorem frame_index_entry_roundtrip (v a : Z) (keyframe : bool) :
  0 <= v <= 262143 -> 0 <= a <= 8191 ->
  let entry := frame_index_entry v a keyframe in
  index_video_size entry = v /\
  index_audio_size entry = a /\
  index_is_keyframe entry = (if keyframe then 0x10 else 0) /\
  (forall i, 0 <= i < 18 -> Z.testbit entry i = Z.testbit v i) /\
  (forall i, 18 <= i < 31 -> Z.testbit entry i = Z.testbit a (i - 18)) /\
  Z.testbit entry 31 = keyframe /\
  (forall i, 31 < i -> Z.testbit entry i = false).
Proof.
  intros Hv Ha entry.
  set (k := if keyframe then 1 else 0).
  assert (Hk : 0 <= k <= 1) by (subst k; destruct keyframe; lia).
  assert (He : entry = v + 2 ^ 18 * (a + 2 ^ 13 * k)).
  { subst entry k. rewrite frame_index_entry_sum by lia. destruct keyframe; lia. }
  assert (Hr : 0 <= entry < 2 ^ 32) by lia.
  assert (Hlow : entry mod 2 ^ 18 = v).
  { symmetry. apply Z.mod_unique with (q := a + 2 ^ 13 * k); lia. }
  assert (Hdiv : entry / 2 ^ 18 = a + 2 ^ 13 * k).
  { symmetry. apply Z.div_unique with (r := v); lia. }
  assert (Hmid : (entry mod 2 ^ 31) / 2 ^ 18 = a).
  { replace (entry mod 2 ^ 31) with (v + 2 ^ 18 * a).
    - symmetry. apply Z.div_unique with (r := v); lia.
    - apply Z.mod_unique with (q := k); lia. }
  assert (H31 : Z.testbit entry 31 = keyframe).
  { rewrite (testbit_high entry 31) by lia. subst k.
    destruct keyframe; [apply Z.leb_le | apply Z.leb_gt]; lia. }
  repeat split.
  - unfold index_video_size, VIDEO_BITMASK. change 0x0003ffff with (Z.ones 18).
    rewrite Z.land_ones, Hlow, to_int_small; lia.
  - unfold index_audio_size. rewrite land_audio_mask, Hmid by lia.
    unfold AUDIO_BITSHIFT. change 0x00040000 with (2 ^ 18).
    rewrite Z.mul_comm, Z.div_mul, to_int_small; lia.
  - unfold index_is_keyframe, KEYFRAME_BITMASK. change 0x80000000 with (2 ^ 31).
    rewrite land_pow2, H31 by lia. now destruct keyframe.
  - intros i Hi. rewrite <- Hlow. symmetry. apply Z.mod_pow2_bits_low. lia.
  - intros i Hi. replace i with ((i - 18) + 18) at 1 by lia.
    rewrite <- Z.div_pow2_bits, Hdiv by lia.
    rewrite <- (Z.mod_pow2_bits_low (a + 2 ^ 13 * k) 13) by lia.
    f_equal. symmetry. apply Z.mod_unique with (q := k); lia.
  - exact H31.
  - intros i Hi. apply Z.testbit_false; [lia|].
    rewrite Z.div_small; [reflexivity|].
    split; [lia|]. apply Z.lt_le_trans with (2 ^ 32); [lia|].
    apply Z.pow_le_mono_r; lia.
Qed.

(** ** More on streams *)

Lemma emit_at_end_room l fp :
  at_end fp -> f_pos fp + Z.of_nat (length l) <= f_limit fp ->
  emit l fp = mkFILE (f_data fp ++ (to_ubyte <$> l)) (f_pos fp + Z.of_nat (length l))
                (f_limit fp) (f_seekable fp) (f_open fp).
Proof.
  intros He Hl. rewrite emit_at_end by auto.
  replace (Z.to_nat _) with (length l) by lia.
  now rewrite firstn_all.
Qed.

Lemma emit_at_end_keeps l fp : at_end fp -> at_end (emit l fp).
Proof.
  intros He. rewrite emit_at_end by auto. destruct He as [Ho Hp].
  split; simpl; [exact Ho|].
  rewrite length_app, length_fmap, length_take. lia.
Qed.

Lemma emit_at_end_pos l fp :
  at_end fp -> f_pos fp <= f_pos (emit l fp) <= f_pos fp + Z.of_nat (length l).
Proof. intros He. rewrite emit_at_end by auto. simpl. lia. Qed.

(** All the bytes were written exactly when the position advanced by their
    number. *)
Lemma emit_at_end_all l fp :
  at_end fp -> f_pos (emit l fp) = f_pos fp + Z.of_nat (length l) ->
  emit l fp = mkFILE (f_data fp ++ (to_ubyte <$> l)) (f_pos fp + Z.of_nat (length l))
                (f_limit fp) (f_seekable fp) (f_open fp).
Proof.
  intros He Hp. rewrite emit_at_end in Hp |- * by auto. simpl in Hp.
  set (k := Z.to_nat _) in *. assert (k = length l) as -> by lia.
  now rewrite firstn_all.
Qed.

Lemma store_inside p c (l : list Z) :
  (p < length l)%nat -> store p c l = take p l ++ c :: drop (S p) l.
Proof.
  intros Hp. unfold store. rewrite (proj2 (Nat.ltb_lt _ _)) by lia.
  now apply insert_take_drop.
Qed.

Lemma length_store_inside p c (l : list Z) :
  (p < length l)%nat -> length (store p c l) = length l.
Proof.
  intros Hp. unfold store. rewrite (proj2 (Nat.ltb_lt _ _)) by lia.
  apply length_insert.
Qed.

(** Writing over bytes that are already in the file. *)
Lemma emit_inside l fp :
  f_open fp = true -> 0 <= f_pos fp ->
  f_pos fp + Z.of_nat (length l) <= Z.of_nat (length (f_data fp)) ->
  f_pos fp + Z.of_nat (length l) <= f_limit fp ->
  emit l fp = mkFILE (take (Z.to_nat (f_pos fp)) (f_data fp) ++ (to_ubyte <$> l)
                        ++ drop (Z.to_nat (f_pos fp) + length l) (f_data fp))
                (f_pos fp + Z.of_nat (length l))
                (f_limit fp) (f_seekable fp) (f_open fp).
Proof.
  revert fp. induction l as [|c l IH]; intros fp Ho Hp Hd Hl.
  - simpl. rewrite Nat.add_0_r, take_drop, Z.add_0_r. now destruct fp.
  - simpl length in *. rewrite emit_cons. unfold fputc_, fputc. rewrite Ho.
    rewrite (proj2 (Z.leb_le _ _)), (proj2 (Z.ltb_lt _ _)) by lia. simpl.
    set (p := Z.to_nat (f_pos fp)). set (d := f_data fp) in *.
    assert (Hpd : (p < length d)%nat) by lia.
    rewrite IH; simpl; fold p d; try rewrite length_store_inside; try lia; auto.
    replace (Z.to_nat (f_pos fp + 1)) with (S p) by lia.
    f_equal; [|lia].
    rewrite store_inside by exact Hpd.
    assert (Ht : length (take p d) = p) by (rewrite length_take; lia).
    rewrite (take_app_ge (take p d)), Ht by lia.
    replace (S p - p)%nat with 1%nat by lia. simpl take. rewrite take_0.
    rewrite <- app_assoc. simpl. do 3 f_equal.
    rewrite drop_app_ge, Ht by lia.
    assert (E : (S (p + length l) - p = S (length l))%nat) by lia.
    rewrite E. simpl drop at 1. rewrite drop_drop. f_equal. lia.
Qed.
Lemma land_ff y : Z.land y 0xff = y mod 256.
Proof. change 0xff with (Z.ones 8). now rewrite Z.land_ones. Qed.

Lemma le32_length x : length (le32 x) = 4%nat.
Proof. reflexivity. Qed.

Lemma le16_length x : length (le16 x) = 2%nat.
Proof. reflexivity. Qed.

Lemma le32_bytes x : to_ubyte <$> le32 x = le32 x.
Proof.
  unfold le32. simpl. rewrite !land_ff.
  repeat f_equal; apply to_ubyte_small; apply Z.mod_pos_bound; lia.
Qed.

Lemma le16_bytes x : to_ubyte <$> le16 x = le16 x.
Proof.
  unfold le16. simpl. rewrite !land_ff.
  repeat f_equal; apply to_ubyte_small; apply Z.mod_pos_bound; lia.
Qed.

Lemma le32_value x :
  nth 0 (le32 x) 0 + 2 ^ 8 * nth 1 (le32 x) 0 + 2 ^ 16 * nth 2 (le32 x) 0
  + 2 ^ 24 * nth 3 (le32 x) 0 = to_ulong x.
Proof.
  unfold le32. simpl nth. rewrite !land_ff, !Z.shiftr_div_pow2 by lia.
  pose proof (to_ulong_range x) as Hr. set (y := to_ulong x) in *.
  pose proof (Z.div_mod y 256 ltac:(lia)).
  pose proof (Z.div_mod (y / 2 ^ 8) 256 ltac:(lia)).
  pose proof (Z.div_mod (y / 2 ^ 16) 256 ltac:(lia)).
  assert (y / 2 ^ 16 = y / 2 ^ 8 / 256) by (rewrite Z.div_div by lia; reflexivity).
  assert (y / 2 ^ 24 = y / 2 ^ 16 / 256) by (rewrite Z.div_div by lia; reflexivity).
  assert (0 <= y / 2 ^ 24 < 256).
  { split; [apply Z.div_pos; lia|]. apply Z.div_lt_upper_bound; lia. }
  rewrite (Z.mod_small (y / 2 ^ 24)) by lia.
  change (2 ^ 8) with 256 in *. lia.
Qed.

(** Reading back four bytes written by [fputl]. *)
Lemma read32_le32 (a b : list Z) x off :
  off = Z.of_nat (length a) -> read32 (a ++ le32 x ++ b) off = to_ulong x.
Proof.
  intros ->. unfold read32.
  assert (E : forall i, 0 <= i < 4 ->
    nth (Z.to_nat (Z.of_nat (length a) + i)) (a ++ le32 x ++ b) 0
    = nth (Z.to_nat i) (le32 x) 0).
  { intros i Hi. replace (Z.to_nat (_ + _)) with (length a + Z.to_nat i)%nat by lia.
    rewrite app_nth2_plus, app_nth1; [reflexivity|rewrite le32_length; lia]. }
  rewrite !E by lia. apply le32_value.
Qed.

Lemma fseek_result_attrs off f f' :
  f_open f' = f_open f -> f_seekable f' = f_seekable f ->
  (fseek off f').1 = (fseek off f).1.
Proof. intros Ho Hs. unfold fseek. rewrite Ho, Hs. now destruct (_ && _). Qed.

Lemma fseek_attrs off f :
  f_limit (fseek off f).2 = f_limit f /\ f_seekable (fseek off f).2 = f_seekable f
  /\ f_open (fseek off f).2 = f_open f.
Proof. unfold fseek. destruct (_ && _); simpl; auto. Qed.



Lemma emit_emit l1 l2 fp : emit l2 (emit l1 fp) = emit (l1 ++ l2) fp.
Proof. symmetry. apply emit_app. Qed.

Lemma ftell_eq fp n : 0 <= n -> ftell fp = n ->
  f_open fp = true /\ f_seekable fp = true /\ f_pos fp = n.
Proof.
  unfold ftell. destruct (f_open fp), (f_seekable fp); simpl; intros; try lia; auto.
Qed.


Lemma read_buf_length ptr n : length (read_buf ptr n) = Z.to_nat n.
Proof.
  unfold read_buf. rewrite length_take, length_app, length_replicate. lia.
Qed.


Lemma read32_ext d1 d2 off :
  0 <= off ->
  (forall i, (Z.to_nat off <= i < Z.to_nat off + 4)%nat -> nth i d1 0 = nth i d2 0) ->
  read32 d1 off = read32 d2 off.
Proof.
  intros Ho E. unfold read32. rewrite !E by lia. reflexivity.
Qed.

Lemma fseek_ok off f :
  f_open f = true -> f_seekable f = true -> 0 <= off ->
  fseek off f = (0, mkFILE (f_data f) off (f_limit f) (f_seekable f) (f_open f)).
Proof. intros Ho Hs Hoff. unfold fseek. rewrite Ho, Hs. now rewrite (proj2 (Z.leb_le _ _)). Qed.

(** Seeking to offsets 4 and 40 of a file of at least 44 bytes and writing
    a long at each. *)
Lemma patch_header f x y :
  f_open f = true -> f_seekable f = true ->
  44 <= Z.of_nat (length (f_data f)) -> 44 <= f_limit f ->
  let f1 := fputl x (fseek 4 f).2 in
  let f2 := fputl y (fseek 40 f1).2 in
  (fseek 4 f).1 = 0 /\ (fseek 40 f1).1 = 0 /\
  read32 (f_data f2) 4 = to_ulong x /\ read32 (f_data f2) 40 = to_ulong y /\
  length (f_data f2) = length (f_data f).
Proof.
  intros Ho Hs Hlen Hlim f1 f2.
  assert (E1 : f1 = mkFILE (take 4 (f_data f) ++ le32 x ++ drop 8 (f_data f)) 8
                     (f_limit f) (f_seekable f) (f_open f)).
  { subst f1. rewrite fseek_ok, fputl_emit by (auto; lia). cbn [snd].
    rewrite emit_inside by (simpl; rewrite ?le32_length; auto; lia).
    rewrite le32_bytes, le32_length. reflexivity. }
  assert (L1 : length (f_data f1) = length (f_data f)).
  { rewrite E1. cbn [f_data].
    rewrite !length_app, length_take, length_drop, le32_length. lia. }
  assert (A1 : f_open f1 = true /\ f_seekable f1 = true /\ f_limit f1 = f_limit f).
  { rewrite E1. cbn. auto. }
  destruct A1 as (Ho1 & Hs1 & Hlim1).
  assert (E2 : f2 = mkFILE (take 40 (f_data f1) ++ le32 y ++ drop 44 (f_data f1)) 44
                     (f_limit f) (f_seekable f) (f_open f)).
  { subst f2. rewrite fseek_ok, fputl_emit by (auto; lia). cbn [snd].
    rewrite emit_inside by (cbn [f_data f_pos f_limit f_open]; rewrite ?le32_length; auto; lia).
    rewrite le32_bytes, le32_length. cbn [f_data f_pos f_limit f_open f_seekable].
    rewrite Hlim1, Ho1, Hs1, Ho, Hs. reflexivity. }
  split; [now rewrite fseek_ok by (auto; lia)|].
  split; [now rewrite fseek_ok by (auto; lia)|].
  split; [|split].
  - rewrite E2. cbn [f_data].
    rewrite (read32_ext _ (f_data f1) 4); [|lia|].
    + rewrite E1. cbn [f_data]. apply read32_le32. rewrite length_take. lia.
    + intros i Hi. rewrite app_nth1 by (rewrite length_take; lia).
      rewrite nth_firstn. replace (i <? 40)%nat with true; [reflexivity|].
      symmetry. apply Nat.ltb_lt. lia.
  - rewrite E2. cbn [f_data]. apply read32_le32. rewrite length_take. lia.
  - rewrite E2. cbn [f_data].
    rewrite !length_app, length_take, length_drop, le32_length. lia.
Qed.


(** ** WAV files *)

Lemma WAV_OpenFile_ok e name g0 fp g :
  WAV_OpenFile e name g0 = (Some fp, g) ->
  at_end fp /\ f_seekable fp = true /\ f_pos fp = 44 /\ 44 <= f_limit fp
  /\ byteswritten g = 0 /\ (sample_size g = 1 \/ sample_size g = 2).
Proof.
  unfold WAV_OpenFile. destruct (fopen_wb _ _) as [fp0|] eqn:Ef; [|discriminate].
  assert (He0 : at_end fp0 /\ f_pos fp0 = 0).
  { unfold fopen_wb in Ef. destruct (filesystem e name) as [[l s]|]; [|discriminate].
    injection Ef as <-. repeat split. }
  destruct He0 as [He0 Hp0].
  record.simp. rewrite ?fputs_emit, ?fputl_emit, ?fputw_emit, ?emit_emit.
  match goal with |- context [emit ?l fp0] => set (hdr := l) end.
  assert (Hlen : length hdr = 44%nat) by reflexivity.
  destruct (Z.eqb_spec (ftell (emit hdr fp0)) 44) as [Ht|Ht]; simpl; [|discriminate].
  intros [= <- <-]. record.simp.
  apply ftell_eq in Ht; [|lia]. destruct Ht as (Ho & Hs & Hp).
  pose proof (emit_at_end_keeps hdr fp0 He0) as He.
  pose proof (emit_attrs hdr fp0) as (Hl & _ & _).
  assert (Hp' := Hp). rewrite emit_at_end in Hp' by auto. simpl in Hp'.
  split; [exact He|]. split; [exact Hs|]. split; [exact Hp|].
  split; [lia|]. split; [reflexivity|].
  destruct (_ =? 0); auto.
Qed.

(** Claim C9.  [WAV_CloseFile] with a [NULL] file pointer writes nothing
    (there is no stream) and returns [TRUE]; it returns [FALSE] only for a
    file pointer that is not [NULL], and only when the padding write fails
    or a seek fails. *)
Theorem WAV_CloseFile_NULL (g : state) :
  WAV_CloseFile None g = (true, None) /\
  forall fp fp', WAV_CloseFile fp g = (false, fp') ->
    exists f, fp = Some f /\
      ((Z.land (byteswritten g) 1 <> 0 /\ (putc 0 f).1 = EOF)
       \/ (fseek 4 f).1 <> 0 \/ (fseek 40 f).1 <> 0).
Proof.
  split; [reflexivity|].
  intros [f|] fp' Hc; [|discriminate]. exists f. split; [reflexivity|].
  unfold WAV_CloseFile in Hc.
  destruct (Z.eqb_spec (Z.land (byteswritten g) 1) 0) as [Hodd|Hodd]; simpl in Hc.
  - right.
    destruct (fseek 4 f) as [r4 f4] eqn:E4. simpl.
    destruct (Z.eqb_spec r4 0) as [->|Hr4]; simpl in Hc; [|now left].
    right.
    destruct (fseek 40 (fputl _ f4)) as [r40 f40] eqn:E40.
    destruct (Z.eqb_spec r40 0) as [->|Hr40]; simpl in Hc; [discriminate|].
    rewrite <- (fseek_result_attrs 40 f (fputl (byteswritten g + 36 + 0) f4)), E40; auto.
    + rewrite fputl_emit. destruct (emit_attrs (le32 (byteswritten g + 36 + 0)) f4) as (_ & _ & ->).
      pose proof (fseek_attrs 4 f) as (_ & _ & Ho). now rewrite E4 in Ho.
    + rewrite fputl_emit. destruct (emit_attrs (le32 (byteswritten g + 36 + 0)) f4) as (_ & -> & _).
      pose proof (fseek_attrs 4 f) as (_ & Hs & _). now rewrite E4 in Hs.
  - destruct (putc 0 f) as [r f1] eqn:E1. simpl.
    destruct (Z.eqb_spec r EOF) as [->|Hr]; simpl in Hc; [now left|].
    right.
    assert (A1 : f_open f1 = f_open f /\ f_seekable f1 = f_seekable f).
    { pose proof (fputc_attrs 0 f) as (_ & Hs & Ho). unfold fputc_, putc in *.
      rewrite E1 in Hs, Ho. auto. }
    destruct A1 as [Ho1 Hs1].
    rewrite <- (fseek_result_attrs 4 f f1), <- (fseek_result_attrs 40 f f1) by auto.
    destruct (fseek 4 f1) as [r4 f4] eqn:E4. simpl.
    destruct (Z.eqb_spec r4 0) as [->|Hr4]; simpl in Hc; [|now left].
    right.
    destruct (fseek 40 (fputl _ f4)) as [r40 f40] eqn:E40.
    destruct (Z.eqb_spec r40 0) as [->|Hr40]; simpl in Hc; [discriminate|].
    rewrite <- (fseek_result_attrs 40 f1 (fputl (byteswritten g + 36 + 1) f4)), E40; auto.
    + rewrite fputl_emit. destruct (emit_attrs (le32 (byteswritten g + 36 + 1)) f4) as (_ & _ & ->).
      pose proof (fseek_attrs 4 f1) as (_ & _ & Ho). now rewrite E4 in Ho.
    + rewrite fputl_emit. destruct (emit_attrs (le32 (byteswritten g + 36 + 1)) f4) as (_ & -> & _).
      pose proof (fseek_attrs 4 f1) as (_ & Hs & _). now rewrite E4 in Hs.
Qed.

Lemma WAV_WriteSamples_full buf n fp g r fp' g' :
  wav_inv fp g ->
  WAV_WriteSamples (Some buf) n (Some fp) g = (r, fp', g') ->
  r = n * sample_size g ->
  byteswritten g + r < 2 ^ 32 ->
  0 <= r /\
  exists f', fp' = Some f' /\ wav_inv f' g' /\
    f_limit f' = f_limit fp /\ sample_size g' = sample_size g /\
    Z.of_nat (length (f_data f')) = Z.of_nat (length (f_data fp)) + r.
Proof.
  intros (He & Hs & Hb & Hb0 & Hss) Hw Hr Hlt. unfold WAV_WriteSamples in Hw.
  destruct (Z.eqb_spec n 0) as [->|Hn].
  { injection Hw as <- <- <-. split; [lia|]. exists fp.
    repeat split; auto; try apply He; lia. }
  unfold fwritele, fwrite in Hw.
  set (ss := sample_size g) in *.
  assert (Hss0 : (ss <=? 0) = false) by (apply Z.leb_gt; lia).
  rewrite Hss0 in Hw. simpl orb in Hw.
  destruct (Z.leb_spec n 0) as [Hneg|Hpos].
  { exfalso. record.simp_hyps. change (to_int 0) with 0 in Hw.
    rewrite Z.mul_0_l in Hw. change (to_int 0) with 0 in Hw.
    assert (r = 0); [|nia].
    destruct (negb _), (_ <? _); injection Hw as <- _ _; reflexivity. }
  set (bytes := read_buf buf (ss * n)) in *.
  assert (Hlen : Z.of_nat (length bytes) = ss * n).
  { subst bytes. rewrite read_buf_length. nia. }
  pose proof (emit_at_end_pos bytes fp He) as Hk.
  set (f := emit bytes fp) in *.
  set (k := f_pos f - f_pos fp) in *.
  assert (Hn0 : 0 <= k / ss <= n).
  { split; [apply Z.div_pos; lia|]. apply Z.div_le_upper_bound; lia. }
  record.simp_hyps.
  set (res := if negb _ then 0 else _) in Hw.
  assert (Hres : r = res \/ r = 0).
  { destruct (_ <? _); injection Hw as <- _ _; auto. }
  assert (Hr0 : r <> 0) by nia.
  destruct Hres as [Hres|]; [|contradiction].
  subst res. destruct (Z.eqb_spec (to_ulong (to_int (k / ss))) (to_ulong n)) as [Heq|];
    simpl negb in Hres; cbv iota in Hres; [|contradiction].
  pose proof (to_int_range (to_int (k / ss) * ss)) as Hri. rewrite <- Hres in Hri.
  assert (Hnr : n < 2 ^ 31) by nia.
  rewrite (to_int_small (k / ss)) in Heq by lia.
  rewrite !to_ulong_small in Heq by lia.
  assert (Hkk : k = ss * n).
  { pose proof (Z.mul_div_le k ss ltac:(lia)). nia. }
  assert (Hf : f = mkFILE (f_data fp ++ (to_ubyte <$> bytes))
                     (f_pos fp + Z.of_nat (length bytes)) (f_limit fp)
                     (f_seekable fp) (f_open fp)).
  { apply emit_at_end_all; auto. fold f. lia. }
  split; [lia|]. exists f.
  assert (Hgb : byteswritten g' = byteswritten g + r /\ sample_size g' = ss
                /\ fp' = Some f).
  { rewrite Heq, (to_int_small n) in Hw by lia.
    simpl negb in Hw. cbv iota in Hw.
    replace (n * ss) with r in Hw by lia.
    rewrite (to_int_small r) in Hw by lia.
    rewrite to_ulong_small in Hw by lia.
    destruct (_ <? _); [injection Hw as E0 _ _; congruence|].
    injection Hw as <- <-. record.simp. auto. }
  destruct Hgb as (Hgb & Hgs & ->).
  split; [reflexivity|].
  assert (Hl' : Z.of_nat (length (f_data f)) = Z.of_nat (length (f_data fp)) + r).
  { rewrite Hf. simpl. rewrite length_app, length_fmap. lia. }
  repeat split.
  - rewrite Hf. apply He.
  - rewrite Hf. simpl. rewrite length_app, length_fmap. destruct He as [_ Hp]. lia.
  - rewrite Hf. exact Hs.
  - lia.
  - lia.
  - rewrite Hgs. exact Hss.
  - rewrite Hf. reflexivity.
  - exact Hgs.
  - exact Hl'.
Qed.



Lemma WAV_WriteSamples_sample_size buf n fp g :
  sample_size (WAV_WriteSamples buf n fp g).2 = sample_size g.
Proof.
  unfold WAV_WriteSamples. destruct fp as [f|], buf as [b|]; try reflexivity.
  destruct (n =? 0); [reflexivity|].
  destruct (fwritele _ _ _ _) as [n0 f']. try record.simp.
  destruct (_ <? _); reflexivity.
Qed.

Lemma WAV_WriteSamples_nonneg buf n fp g :
  sample_size g = 1 \/ sample_size g = 2 ->
  (WAV_WriteSamples buf n fp g).1.1 = n * sample_size g -> 0 <= n.
Proof.
  intros Hss. unfold WAV_WriteSamples. destruct fp as [f|], buf as [b|]; simpl; try nia.
  destruct (Z.eqb_spec n 0) as [->|Hn]; [lia|].
  unfold fwritele, fwrite.
  destruct (Z.leb_spec n 0) as [Hneg|Hpos]; [|lia].
  rewrite orb_true_r. try record.simp. change (to_int 0) with 0.
  rewrite Z.mul_0_l. change (to_int 0) with 0.
  destruct (negb _), (_ <? _); simpl; nia.
Qed.

Lemma wav_session_nonneg calls : forall fp g rs fp' g',
  sample_size g = 1 \/ sample_size g = 2 ->
  wav_session calls fp g = (rs, fp', g') ->
  rs = map (fun c => c.2 * sample_size g) calls ->
  0 <= foldr Z.add 0 rs.
Proof.
  induction calls as [|[buf n] calls IH]; intros fp g rs fp' g' Hss Hs Hrs.
  - subst rs. simpl. lia.
  - simpl in Hs.
    destruct (WAV_WriteSamples (Some buf) n fp g) as [[r fp1] g1] eqn:E1.
    destruct (wav_session calls fp1 g1) as [[rs1 fp2] g2] eqn:E2.
    injection Hs as <- <- <-. simpl in Hrs. injection Hrs as Hr Hrs1.
    assert (Hn : 0 <= n).
    { apply (WAV_WriteSamples_nonneg (Some buf) n fp g Hss). now rewrite E1. }
    assert (Hg1 : sample_size g1 = sample_size g).
    { pose proof (WAV_WriteSamples_sample_size (Some buf) n fp g) as E.
      now rewrite E1 in E. }
    rewrite <- Hg1 in Hrs1, Hss.
    specialize (IH _ _ _ _ _ Hss E2 Hrs1). simpl. nia.
Qed.

Lemma wav_session_full calls : forall fp g rs fp' g',
  wav_inv fp g ->
  wav_session calls (Some fp) g = (rs, fp', g') ->
  rs = map (fun c => c.2 * sample_size g) calls ->
  byteswritten g + foldr Z.add 0 rs < 2 ^ 32 ->
  exists f', fp' = Some f' /\ wav_inv f' g' /\ f_limit f' = f_limit fp /\
    Z.of_nat (length (f_data f')) = Z.of_nat (length (f_data fp)) + foldr Z.add 0 rs.
Proof.
  induction calls as [|[buf n] calls IH]; intros fp g rs fp' g' Hi Hs Hrs Hlt.
  - injection Hs as <- <- <-. simpl. exists fp.
    repeat split; auto; try apply Hi. lia.
  - simpl in Hs.
    destruct (WAV_WriteSamples (Some buf) n (Some fp) g) as [[r fp1] g1] eqn:E1.
    destruct (wav_session calls fp1 g1) as [[rs1 fp2] g2] eqn:E2.
    injection Hs as <- <- <-. simpl in Hrs. injection Hrs as Hr Hrs1.
    simpl in Hlt |- *.
    assert (Hss : sample_size g = 1 \/ sample_size g = 2) by apply Hi.
    assert (Hg1 : sample_size g1 = sample_size g).
    { pose proof (WAV_WriteSamples_sample_size (Some buf) n (Some fp) g) as E.
      now rewrite E1 in E. }
    rewrite <- Hg1 in Hrs1.
    assert (Hrs0 : 0 <= foldr Z.add 0 rs1).
    { apply (wav_session_nonneg calls fp1 g1 rs1 fp2 g2);
        [rewrite Hg1; exact Hss | exact E2 | exact Hrs1]. }
    destruct (WAV_WriteSamples_full _ _ _ _ _ _ _ Hi E1 Hr ltac:(lia))
      as (Hr0 & f1 & -> & Hi1 & Hl1 & _ & Hlen1).
    assert (Hb1 : byteswritten g1 = byteswritten g + r).
    { destruct Hi as (_ & _ & Hb & _), Hi1 as (_ & _ & Hb1 & _). lia. }
    destruct (IH _ _ _ _ _ Hi1 E2 Hrs1 ltac:(lia)) as (f2 & -> & Hi2 & Hl2 & Hlen2).
    exists f2. repeat split; try apply Hi2; lia.
Qed.

Lemma WAV_CloseFile_patches fp g fp' :
  wav_inv fp g -> 44 <= f_limit fp ->
  byteswritten g + 36 + byteswritten g mod 2 < 2 ^ 32 ->
  WAV_CloseFile (Some fp) g = (true, fp') ->
  let pad := byteswritten g mod 2 in
  exists f, fp' = Some f /\ f_open f = false /\
    read32 (f_data f) 4 = byteswritten g + 36 + pad /\
    read32 (f_data f) 40 = byteswritten g /\
    Z.of_nat (length (f_data f)) = 44 + byteswritten g + pad.
Proof.
  intros (He & Hs & Hb & Hb0 & Hss) Hl Hlt Hc pad.
  assert (Hpad : Z.land (byteswritten g) 1 = pad).
  { change 1 with (Z.ones 1). now rewrite Z.land_ones by lia. }
  assert (Hpr : 0 <= pad < 2) by (apply Z.mod_pos_bound; lia).
  unfold WAV_CloseFile in Hc. rewrite Hpad in Hc.
  (* the stream and the alignment byte after the padding step *)
  assert (Hstep : exists f, f_open f = true /\ f_seekable f = true /\ f_limit f = f_limit fp /\
            Z.of_nat (length (f_data f)) = 44 + byteswritten g + pad /\
            (if negb (pad =? 0)
             then let '(r, f') := putc 0 fp in
                  if r =? EOF then (false, 0, f') else (true, 1, f')
             else (true, 0, fp)) = (true, pad, f)).
  { destruct (Z.eqb_spec pad 0) as [E0|E0]; simpl negb; cbv iota.
    - exists fp. rewrite E0. destruct He as [Ho Hp]. repeat split; auto; lia.
    - assert (pad = 1) as E1 by lia.
      destruct (Z.lt_ge_cases (f_pos fp) (f_limit fp)) as [Hroom|Hfull].
      + unfold putc. rewrite fputc_at_end by auto.
        change (to_ubyte 0 =? EOF) with false. cbv iota. rewrite E1.
        exists (mkFILE (f_data fp ++ [to_ubyte 0]) (f_pos fp + 1) (f_limit fp)
                  (f_seekable fp) (f_open fp)).
        cbn [f_data f_open f_seekable f_limit].
        split; [apply He|]. split; [exact Hs|]. split; [reflexivity|].
        split; [|reflexivity].
        rewrite length_app. simpl length. lia.
      + exfalso. unfold putc in Hc. rewrite fputc_full in Hc by (auto; apply He).
        cbn in Hc. discriminate. }
  destruct Hstep as (f & Ho & Hsk & Hlim & Hlen & Hst). rewrite Hst in Hc.
  pose proof (patch_header f (byteswritten g + 36 + pad) (byteswritten g) Ho Hsk
                ltac:(lia) ltac:(lia)) as (S4 & S40 & R4 & R40 & L).
  cbv zeta in S4, S40, R4, R40, L.
  destruct (fseek 4 f) as [r4 f4] eqn:E4. simpl in S4. subst r4.
  cbn [fst snd] in *.
  simpl negb in Hc. cbv iota in Hc.
  destruct (fseek 40 (fputl (byteswritten g + 36 + pad) f4)) as [r40 f40] eqn:E40.
  simpl in S40. subst r40. simpl negb in Hc. cbv iota in Hc.
  cbn [snd] in *. injection Hc as <-.
  eexists. split; [reflexivity|]. split; [reflexivity|].
  cbn [fclose f_data]. rewrite R4, R40, L, !to_ulong_small by lia. auto.
Qed.

(** Claim C6.  In a sound recording where [WAV_OpenFile] wrote its 44-byte
    header and every [WAV_WriteSamples] call returned the number of bytes
    it was given, [data_bytes] in all, a [WAV_CloseFile] that returns
    [TRUE] leaves [data_bytes + 36 + pad] at offset 4 and [data_bytes] at
    offset 40, both as 32-bit little-endian values, and a file of
    [44 + data_bytes + pad] bytes, where [pad = data_bytes mod 2]. *)
Theorem WAV_CloseFile_header e szFileName g0 fp0 g1 calls rs fp g fp' :
  WAV_OpenFile e szFileName g0 = (Some fp0, g1) ->
  wav_session calls (Some fp0) g1 = (rs, fp, g) ->
  rs = map (fun c => c.2 * sample_size g1) calls ->
  let data_bytes := foldr Z.add 0 rs in
  let pad := data_bytes mod 2 in
  data_bytes + 36 + pad < 2 ^ 32 ->
  WAV_CloseFile fp g = (true, fp') ->
  (exists f, fp = Some f /\ Z.of_nat (length (f_data f)) = 44 + data_bytes) /\
  (exists f', fp' = Some f' /\ f_open f' = false /\
     read32 (f_data f') 4 = data_bytes + 36 + pad /\
     read32 (f_data f') 40 = data_bytes /\
     Z.of_nat (length (f_data f')) = 44 + data_bytes + pad).
Proof.
  intros Hopen Hsess Hrs data_bytes pad Hlt Hclose.
  destruct (WAV_OpenFile_ok _ _ _ _ _ Hopen) as (He & Hs & Hp & Hl & Hb & Hss).
  assert (Hi : wav_inv fp0 g1).
  { destruct He as [Ho Hq]. repeat split; auto; lia. }
  assert (Hd0 : 0 <= data_bytes).
  { subst data_bytes. eapply wav_session_nonneg; eauto. }
  assert (Hpr : 0 <= pad < 2) by (apply Z.mod_pos_bound; lia).
  destruct (wav_session_full calls fp0 g1 rs fp g Hi Hsess Hrs ltac:(fold data_bytes; lia))
    as (f & -> & Hi' & Hl' & Hlen').
  fold data_bytes in Hlen'.
  assert (Hlen0 : Z.of_nat (length (f_data fp0)) = 44) by (destruct He; lia).
  assert (Hbw : byteswritten g = data_bytes) by (destruct Hi' as (_ & _ & -> & _); lia).
  split; [exists f; split; [reflexivity|lia]|].
  destruct (WAV_CloseFile_patches f g fp' Hi' ltac:(lia) ltac:(rewrite Hbw; exact Hlt) Hclose)
    as (f' & -> & Hc & R4 & R40 & L).
  rewrite Hbw in R4, R40, L. fold pad in R4, L.
  exists f'. auto.
Qed.

(** ** PCX files *)

Lemma land_c0 x : 0 <= x -> Z.land x 0xc0 = 64 * ((x mod 256) / 64).
Proof.
  intros Hx. change 0xc0 with (Z.ldiff (Z.ones 8) (Z.ones 6)).
  rewrite land_bit_field by lia. reflexivity.
Qed.

Lemma count_byte n : 0 <= n < 64 ->
  Z.lor 0xc0 n = 0xc0 + n /\ Z.land (0xc0 + n) 0xc0 = 0xc0 /\ Z.land (0xc0 + n) 0x3f = n.
Proof.
  intros Hn. split; [|split].
  - pose proof (Z.add_lor_land 0xc0 n) as E.
    rewrite (Z.land_comm 0xc0 n), land_c0 in E by lia.
    rewrite (Z.mod_small n 256), (Z.div_small n 64) in E by lia. lia.
  - rewrite land_c0 by lia. rewrite Z.mod_small by lia.
    replace ((0xc0 + n) / 64) with 3; [reflexivity|].
    apply Z.div_unique with (r := n); lia.
  - change 0x3f with (Z.ones 6). rewrite Z.land_ones by lia.
    symmetry. apply Z.mod_unique with (q := 3); lia.
Qed.

Lemma literal_byte v : 0 <= v < 0xc0 -> (Z.land v 0xc0 =? 0xc0) = false.
Proof.
  intros Hv. apply Z.eqb_neq. rewrite land_c0, Z.mod_small by lia.
  assert (v / 64 < 3) by (apply Z.div_lt_upper_bound; lia). lia.
Qed.
(** The innermost loop counts a run of 1 to 63 pixels equal to [last] that
    ends at the end of the scan line at the latest. *)
Lemma pcx_run_spec pixel width last : forall fuel p count x,
  0xc0 <= count < 0xff -> 0xff - count <= Z.of_nat fuel -> x < width ->
  exists n, 1 <= n <= 0xff - count /\ x + n <= width /\
    pcx_run fuel pixel width last p count x = Some (p + n, count + n, x + n) /\
    (forall i, 1 <= i < n -> pixel (p + i) = last).
Proof.
  induction fuel as [|fuel IH]; intros p count x Hc Hf Hx; [lia|].
  cbn [pcx_run]. rewrite (to_ubyte_small (count + 1)) by lia.
  destruct ((last =? pixel (p + 1)) && (count + 1 <? 255) && (x + 1 <? width)) eqn:E.
  - apply andb_prop in E as [E Ex]. apply andb_prop in E as [El Ec].
    apply Z.eqb_eq in El. apply Z.ltb_lt in Ec, Ex.
    destruct (IH (p + 1) (count + 1) (x + 1)) as (n & Hn & Hw & Hr & Hpix); try lia.
    exists (n + 1). split; [lia|]. split; [lia|]. split.
    + rewrite Hr.
      replace (p + 1 + n) with (p + (n + 1)) by lia.
      replace (count + 1 + n) with (count + (n + 1)) by lia.
      replace (x + 1 + n) with (x + (n + 1)) by lia. reflexivity.
    + intros i Hi. destruct (Z.eq_dec i 1) as [->|Hi1]; [congruence|].
      replace (p + i) with (p + 1 + (i - 1)) by lia. apply Hpix. lia.
  - exists 1. split; [lia|]. split; [lia|]. split; [reflexivity|]. intros i Hi. lia.
Qed.

Lemma pcx_group_code n v out :
  1 <= n <= 63 ->
  (if (0xc1 <? 0xc0 + n) || (0xc0 <=? v) then out ++ [0xc0 + n] else out) ++ [v]
  = out ++ pcx_group (n, v).
Proof.
  intros Hn. unfold pcx_group.
  destruct (count_byte n ltac:(lia)) as (-> & _ & _).
  destruct (Z.eqb_spec n 1) as [->|Hn1], (Z.ltb_spec v 0xc0) as [Hv|Hv]; simpl andb; cbv iota.
  - rewrite (proj2 (Z.ltb_ge _ _)), (proj2 (Z.leb_gt _ _)) by lia. reflexivity.
  - rewrite (proj2 (Z.leb_le 0xc0 v)), orb_true_r by lia. cbv iota.
    now rewrite <- app_assoc.
  - rewrite (proj2 (Z.ltb_lt _ _)) by lia. simpl orb. cbv iota.
    now rewrite <- app_assoc.
  - rewrite (proj2 (Z.ltb_lt _ _)) by lia. simpl orb. cbv iota.
    now rewrite <- app_assoc.
Qed.

Lemma fmap_seqZ_const (pixel : Z -> Z) v : forall n p, 0 <= n ->
  (forall i, 0 <= i < n -> pixel (p + i) = v) ->
  pixel <$> seqZ p n = replicate (Z.to_nat n) v.
Proof.
  intros n p Hn. revert p. pattern n. apply natlike_ind; [| |exact Hn].
  - intros p _. reflexivity.
  - clear n Hn. intros n Hn IH p Hp.
    rewrite seqZ_cons by lia. rewrite Z2Nat.inj_succ by lia. cbn [fmap list_fmap replicate].
    f_equal.
    + rewrite <- (Hp 0) by lia. f_equal. lia.
    + rewrite Z.pred_succ. apply IH. intros i Hi.
      replace (Z.succ p + i) with (p + (i + 1)) by lia. apply Hp. lia.
Qed.

Lemma pcx_encode_cons r runs : pcx_encode (r :: runs) = pcx_group r ++ pcx_encode runs.
Proof. reflexivity. Qed.

Lemma pcx_expand_cons r runs :
  pcx_expand (r :: runs) = replicate (Z.to_nat r.1) r.2 ++ pcx_expand runs.
Proof. reflexivity. Qed.

(** The loop over a scan line writes runs that make up exactly the pixels
    from [x] to the end of the line. *)
Lemma pcx_line_spec pixel width :
  (forall p, 0 <= pixel p < 256) ->
  forall fuel out p x, 0 <= x < width -> width - x <= Z.of_nat fuel ->
  exists runs,
    pcx_line fuel pixel width out p x
    = Some (out ++ pcx_encode runs, p + (width - x), width) /\
    Forall pcx_run_ok runs /\
    pcx_expand runs = pixel <$> seqZ p (width - x).
Proof.
  intros Hpix. induction fuel as [|fuel IH]; intros out p x Hx Hf; [lia|].
  cbn [pcx_line]. rewrite (to_ubyte_small (pixel p)) by apply Hpix.
  destruct (pcx_run_spec pixel width (pixel p) 64 p 0xc0 x) as (n & Hn & Hw & -> & Hrun);
    try lia.
  cbv beta iota zeta. rewrite (pcx_group_code n (pixel p) out) by lia.
  assert (Hfirst : pixel <$> seqZ p n = replicate (Z.to_nat n) (pixel p)).
  { apply fmap_seqZ_const; [lia|]. intros i Hi.
    destruct (Z.eq_dec i 0) as [->|Hi0]; [f_equal; lia|]. apply Hrun. lia. }
  destruct (Z.ltb_spec (x + n) width) as [Hlt|Hge].
  - destruct (IH (out ++ pcx_group (n, pixel p)) (p + n) (x + n)) as (runs & -> & Hok & Hex);
      try lia.
    exists ((n, pixel p) :: runs). split; [|split].
    + rewrite pcx_encode_cons, app_assoc.
      replace (p + n + (width - (x + n))) with (p + (width - x)) by lia. reflexivity.
    + constructor; [|exact Hok]. split; simpl; [lia|apply Hpix].
    + rewrite pcx_expand_cons, Hex. cbn [fst snd]. rewrite <- Hfirst, <- fmap_app.
      f_equal. replace (width - x) with (n + (width - (x + n))) by lia.
      rewrite seqZ_app by lia. reflexivity.
  - exists [(n, pixel p)]. split; [|split].
    + rewrite pcx_encode_cons. cbn [pcx_encode mbind list_bind]. rewrite app_nil_r.
      replace (p + (width - x)) with (p + n) by lia.
      replace (x + n) with width by lia. reflexivity.
    + constructor; [|constructor]. split; simpl; [lia|apply Hpix].
    + rewrite pcx_expand_cons. cbn [pcx_expand mbind list_bind fst snd].
      rewrite app_nil_r, <- Hfirst. replace (width - x) with n by lia. reflexivity.
Qed.
Lemma pcx_decode_line_0 s : pcx_decode_line s 0 = Some ([], s).
Proof. destruct s; reflexivity. Qed.

Lemma pcx_decode_line_literal v s need : 0 < need -> 0 <= v < 0xc0 ->
  pcx_decode_line (v :: s) need
  = match pcx_decode_line s (need - 1) with
    | Some (px, rest) => Some (v :: px, rest)
    | None => None
    end.
Proof.
  intros Hn Hv. cbn [pcx_decode_line].
  rewrite (proj2 (Z.leb_gt need 0)) by lia. now rewrite literal_byte.
Qed.

Lemma pcx_decode_line_count n v s need : 0 < need -> 0 <= n < 64 -> n <= need ->
  pcx_decode_line (Z.lor 0xc0 n :: v :: s) need
  = match pcx_decode_line s (need - n) with
    | Some (px, rest) => Some (replicate (Z.to_nat n) v ++ px, rest)
    | None => None
    end.
Proof.
  intros Hneed Hn Hle. cbn [pcx_decode_line].
  destruct (count_byte n Hn) as (-> & -> & ->).
  rewrite (proj2 (Z.leb_gt need 0)) by lia.
  rewrite Z.eqb_refl. now rewrite (proj2 (Z.leb_le n need)).
Qed.

(** Decoding what was encoded. *)
Lemma pcx_decode_line_encode runs : Forall pcx_run_ok runs ->
  forall rest, pcx_decode_line (pcx_encode runs ++ rest) (Z.of_nat (length (pcx_expand runs)))
               = Some (pcx_expand runs, rest).
Proof.
  induction 1 as [|[n v] runs [Hn Hv] Hok IH]; intros rest.
  - apply pcx_decode_line_0.
  - cbn [fst snd] in Hn, Hv.
    rewrite pcx_encode_cons, pcx_expand_cons, <- app_assoc. cbn [fst snd].
    rewrite length_app, length_replicate, Nat2Z.inj_add, Z2Nat.id by lia.
    set (m := Z.of_nat (length (pcx_expand runs))) in *.
    assert (Hm : 0 <= m) by (subst m; lia).
    unfold pcx_group.
    destruct (Z.eqb_spec n 1) as [->|Hn1], (Z.ltb_spec v 0xc0) as [Hlt|Hge];
      simpl andb; cbv iota; cbn [app].
    + rewrite pcx_decode_line_literal by lia.
      replace (1 + m - 1) with m by lia. now rewrite IH.
    + rewrite pcx_decode_line_count by lia.
      replace (1 + m - 1) with m by lia. now rewrite IH.
    + rewrite pcx_decode_line_count by lia.
      replace (n + m - n) with m by lia. now rewrite IH.
    + rewrite pcx_decode_line_count by lia.
      replace (n + m - n) with m by lia. now rewrite IH.
Qed.

Lemma pcx_decode_encode width (rows : list (list (Z * Z))) :
  Forall (Forall pcx_run_ok) rows ->
  Forall (fun runs => Z.of_nat (length (pcx_expand runs)) = width) rows ->
  forall rest,
  pcx_decode (length rows) width (concat (pcx_encode <$> rows) ++ rest)
  = Some (pcx_expand <$> rows, rest).
Proof.
  intros Hok Hw. induction rows as [|runs rows IH]; intros rest; [reflexivity|].
  apply Forall_cons in Hok as [Hok1 Hok], Hw as [Hw1 Hw].
  cbn [length pcx_decode fmap list_fmap concat]. rewrite <- app_assoc.
  rewrite <- Hw1 at 1. rewrite pcx_decode_line_encode by exact Hok1.
  now rewrite (IH Hok Hw).
Qed.
Lemma rd_range a p : 0 <= rd a p < 256.
Proof. apply to_ubyte_range. Qed.

(** The loop over the scan lines, without interlace. *)
Lemma pcx_rows_spec e ptr1 width height : 0 < width ->
  forall fuel out p plane y, 0 <= y -> Z.max 0 (height - y) < Z.of_nat fuel ->
  exists rows : list (list (Z * Z)),
    pcx_rows fuel e ptr1 None width height out p plane y
    = Some (out ++ concat (pcx_encode <$> rows)) /\
    Forall (Forall pcx_run_ok) rows /\
    pcx_expand <$> rows
    = (fun j => rd ptr1 <$> seqZ (p + Screen_WIDTH * j) width) <$> seqZ 0 (height - y).
Proof.
  intros Hw. induction fuel as [|fuel IH]; intros out p plane y Hy Hf; [lia|].
  cbn [pcx_rows]. destruct (Z.ltb_spec y height) as [Hlt|Hge].
  - destruct (pcx_line_spec (pcx_pixel e ptr1 None plane) width (rd_range ptr1)
                (Z.to_nat (Z.max 1 width)) out p 0) as (runs & -> & Hok & Hex); try lia.
    cbv beta iota zeta.
    replace (bool_decide (@None (list Z) <> None)) with false
      by (symmetry; apply bool_decide_eq_false; intros E; now apply E).
    cbn [andb].
    destruct (IH (out ++ pcx_encode runs) (p + (width - 0) + (Screen_WIDTH - width))
                plane (y + 1)) as (rows & -> & Hoks & Hexs); try lia.
    exists (runs :: rows). split; [|split].
    + cbn [fmap list_fmap concat]. now rewrite app_assoc.
    + now constructor.
    + cbn [fmap list_fmap]. rewrite Hex, Hexs.
      rewrite (seqZ_cons 0 (height - y)) by lia. cbn [fmap list_fmap].
      f_equal.
      * unfold pcx_pixel. do 2 f_equal; lia.
      * replace (Z.pred (height - y)) with (height - (y + 1)) by lia.
        rewrite <- (fmap_add_seqZ 1 0). rewrite <- list_fmap_compose.
        apply list_fmap_ext. intros i j _. unfold compose. do 2 f_equal. lia.
  - exists []. split; [|split].
    + cbn. now rewrite app_nil_r.
    + constructor.
    + rewrite seqZ_nil by lia. reflexivity.
Qed.

(** Claim C7.  Without interlace, the pixel data [PCX_SaveScreen] writes
    after its 128-byte header is, scan line by scan line, a sequence of
    runs of 1 to 63 equal bytes that make up exactly that line of the
    cropped screen; a run of one byte below [0xC0] is written as that byte,
    any other run as the count byte [0xC0 | n] and the value; and a
    version-5 decoder reads the cropped screen back from it.  The window
    is at least one pixel wide. *)
Theorem PCX_SaveScreen_roundtrip e fp ptr1 g :
  let g' := set_video_margins e g in
  0 < video_width g' ->
  exists rows : list (list (Z * Z)),
    let stream := concat (pcx_encode <$> rows) in
    PCX_pixels e ptr1 None g' = Some stream /\
    PCX_SaveScreen e fp ptr1 None g
    = Some (emit (PCX_header g' 1 ++ stream ++ 0xc :: PCX_palette e) fp, g') /\
    length (PCX_header g' 1) = 128%nat /\
    Forall (Forall pcx_run_ok) rows /\
    pcx_expand <$> rows = cropped ptr1 g' /\
    pcx_decode (Z.to_nat (video_height g')) (video_width g') stream
    = Some (cropped ptr1 g', []).
Proof.
  intros g' Hw.
  destruct (pcx_rows_spec e ptr1 (video_width g') (video_height g') Hw
              (Z.to_nat (3 * Z.max 0 (video_height g') + 1)) []
              (Screen_WIDTH * video_top_margin g' + video_left_margin g') 16 0)
    as (rows & Hpix & Hok & Hex); try lia.
  rewrite Z.sub_0_r in Hex. cbn [app] in Hpix.
  change (PCX_pixels e ptr1 None g' = Some (concat (pcx_encode <$> rows))) in Hpix.
  assert (Hcrop : pcx_expand <$> rows = cropped ptr1 g').
  { rewrite Hex. unfold cropped. apply list_fmap_ext. intros i y _.
    do 2 f_equal. lia. }
  assert (Hlen : length rows = Z.to_nat (video_height g')).
  { rewrite <- (length_fmap pcx_expand), Hcrop. unfold cropped.
    now rewrite length_fmap, length_seqZ. }
  assert (Hwidth : Forall (fun runs => Z.of_nat (length (pcx_expand runs)) = video_width g') rows).
  { assert (F : Forall (fun px : list Z => Z.of_nat (length px) = video_width g')
                  (pcx_expand <$> rows)).
    { rewrite Hex. apply Forall_fmap, Forall_forall. intros j _. unfold compose.
      rewrite length_fmap, length_seqZ. lia. }
    apply Forall_fmap in F. exact F. }
  exists rows. cbv zeta.
  split; [exact Hpix|]. split; [|split; [|split; [exact Hok|split; [exact Hcrop|]]]].
  - unfold PCX_SaveScreen. cbv zeta. fold g'. rewrite Hpix.
    rewrite bool_decide_eq_true_2 by reflexivity.
    replace (bool_decide (@None (list Z) <> None)) with false
      by (symmetry; apply bool_decide_eq_false; intros E; now apply E).
    rewrite ?fputc__emit, ?fputw_emit, ?emit_emit.
    unfold PCX_header. rewrite <- !app_assoc. reflexivity.
  - reflexivity.
  - rewrite <- Hlen, <- Hcrop, <- (app_nil_r (concat _)).
    now apply pcx_decode_encode.
Qed.

(** ** AVI files: writing one frame *)

Arguments AVI_WriteFrame_chunks : simpl never.
Arguments AVI_WriteFrame_index : simpl never.
Arguments AVI_WriteFrame_statistics : simpl never.
Arguments AVI_WriteFrame_keyframe : simpl never.

Lemma if_emit (c : bool) l fp : (if c then emit l fp else fp) = emit (if c then l else []) fp.
Proof. now destruct c. Qed.

Lemma same_setup_refl g : same_setup g g.
Proof. repeat split. Qed.

Lemma same_setup_trans g1 g2 g3 : same_setup g1 g2 -> same_setup g2 g3 -> same_setup g1 g3.
Proof.
  unfold same_setup. intros A B.
  destruct A as (?&?&?&?&?&?&?&?&?&?&?&?&?&?&?).
  destruct B as (?&?&?&?&?&?&?&?&?&?&?&?&?&?&?).
  repeat split; congruence.
Qed.

Ltac split_ifs :=
  repeat match goal with
         | |- context [if ?c then _ else _] => destruct c
         end.

Lemma AVI_WriteFrame_chunks_file fp g :
  (AVI_WriteFrame_chunks fp g).1.1.1 = emit (frame_bytes g) fp.
Proof.
  unfold AVI_WriteFrame_chunks, frame_bytes, chunk_bytes. cbv zeta.
  rewrite ?fputs_emit, ?fputl_emit, ?fwrite__emit, ?fwritele__emit, ?fputc__emit.
  rewrite ?if_emit, ?emit_emit.
  destruct (num_streams g =? 2); cbn [fst].
  - rewrite ?if_emit, ?emit_emit. f_equal; rewrite <- ?app_assoc; reflexivity.
  - rewrite app_nil_r. f_equal; rewrite <- ?app_assoc; reflexivity.
Qed.

Lemma AVI_WriteFrame_chunks_setup fp g :
  let g' := (AVI_WriteFrame_chunks fp g).1.1.2 in
  same_setup g g' /\ frame_indexes g' = frame_indexes g /\
  frames_written g' = frames_written g /\
  num_frames_allocated g' = num_frames_allocated g /\
  current_screen_size g' = current_screen_size g /\
  current_audio_samples g' = current_audio_samples g /\
  current_is_keyframe g' = current_is_keyframe g /\
  byteswritten g' = byteswritten g.
Proof.
  unfold AVI_WriteFrame_chunks. cbv zeta. destruct (num_streams g =? 2); cbn [fst snd];
    repeat split.
Qed.

Lemma AVI_WriteFrame_chunks_sizes fp g :
  (AVI_WriteFrame_chunks fp g).1.2 = pending_audio_size g.
Proof.
  unfold AVI_WriteFrame_chunks, pending_audio_size. cbv zeta.
  now destruct (num_streams g =? 2).
Qed.
Lemma AVI_WriteFrame_chunks_expected fp g :
  (AVI_WriteFrame_chunks fp g).2 = expected_frame_size g.
Proof.
  unfold AVI_WriteFrame_chunks, expected_frame_size. cbv zeta.
  now destruct (num_streams g =? 2).
Qed.

(** What the index part of [AVI_WriteFrame] leaves alone. *)
Lemma AVI_WriteFrame_index_setup a g :
  let g' := AVI_WriteFrame_index a g in
  same_setup g g' /\
  frames_written g' = to_ulong (frames_written g + 1) /\
  current_screen_size g' = current_screen_size g /\
  current_audio_samples g' = current_audio_samples g /\
  current_is_keyframe g' = current_is_keyframe g /\
  byteswritten g' = byteswritten g.
Proof.
  unfold AVI_WriteFrame_index. cbv zeta.
  destruct (_ <=? _); repeat split.
Qed.

Lemma nth_insert_eq (l : list Z) i v : (i < length l)%nat -> nth i (<[i := v]> l) 0 = v.
Proof.
  intros Hi. rewrite nth_lookup, list_lookup_insert_eq; auto.
Qed.

Lemma nth_insert_ne (l : list Z) i j v : i <> j -> nth j (<[i := v]> l) 0 = nth j l 0.
Proof.
  intros Hi. rewrite !nth_lookup, list_lookup_insert_ne; auto.
Qed.

(** The index entry of the frame is stored in slot [frames_written], the
    entries before it stay, and the array grows before it is full. *)
Lemma AVI_WriteFrame_index_entry a g :
  index_ok g -> frames_written g + 2000 < 2 ^ 31 ->
  let g' := AVI_WriteFrame_index a g in
  index_ok g' /\
  frames_written g' = frames_written g + 1 /\
  array_get (frame_indexes g') (frames_written g)
  = frame_index_entry (current_screen_size g) a (current_is_keyframe g) /\
  (forall i, 0 <= i < frames_written g ->
     array_get (frame_indexes g') i = array_get (frame_indexes g) i).
Proof.
  intros (l & Hl & Hlen & Hfw & Hnear) Hmax g'.
  unfold FRAME_INDEX_ALLOC_SIZE in *.
  set (v := frame_index_entry (current_screen_size g) a (current_is_keyframe g)).
  set (l1 := <[Z.to_nat (frames_written g) := v]> l).
  assert (Hl1 : length l1 = length l) by apply length_insert.
  assert (Hfw1 : to_ulong (frames_written g + 1) = frames_written g + 1)
    by (apply to_ulong_small; lia).
  assert (Hn1 : forall i, 0 <= i < frames_written g ->
            nth (Z.to_nat i) l1 0 = nth (Z.to_nat i) l 0).
  { intros i Hi. apply nth_insert_ne. lia. }
  assert (Hv1 : nth (Z.to_nat (frames_written g)) l1 0 = v).
  { apply nth_insert_eq. lia. }
  subst g'. unfold AVI_WriteFrame_index, FRAME_INDEX_ALLOC_SIZE. cbv zeta. record.simp.
  rewrite Hl. cbn [array_set]. fold v l1. rewrite Hfw1.
  rewrite (to_ulong_small (num_frames_allocated g)) by lia.
  destruct (Z.leb_spec (num_frames_allocated g) (frames_written g + 1)) as [Hfull|Hroom].
  - record.simp. rewrite (to_int_small (num_frames_allocated g + 1000)) by lia.
    unfold Util_realloc. cbn [contents default array_get].
    set (n := Z.to_nat (num_frames_allocated g + 1000)).
    assert (Htake : take n l1 = l1) by (apply take_ge; lia).
    unfold id. rewrite Htake.
    split; [|split; [reflexivity|split]].
    + unfold index_ok, FRAME_INDEX_ALLOC_SIZE. record.simp.
      eexists. split; [reflexivity|].
      rewrite length_app, length_replicate. repeat split; lia.
    + rewrite app_nth1 by lia. exact Hv1.
    + intros i Hi. rewrite app_nth1 by lia. apply Hn1, Hi.
  - record.simp. cbn [array_get].
    split; [|split; [reflexivity|split]].
    + unfold index_ok, FRAME_INDEX_ALLOC_SIZE. record.simp.
      exists l1. repeat split; lia.
    + exact Hv1.
    + intros i Hi. apply Hn1, Hi.
Qed.

Lemma AVI_WriteFrame_statistics_setup g :
  let g' := AVI_WriteFrame_statistics g in
  same_setup g g' /\
  frame_indexes g' = frame_indexes g /\
  frames_written g' = frames_written g /\
  num_frames_allocated g' = num_frames_allocated g /\
  current_screen_size g' = current_screen_size g /\
  current_audio_samples g' = current_audio_samples g /\
  current_is_keyframe g' = current_is_keyframe g /\
  byteswritten g' = byteswritten g.
Proof.
  unfold AVI_WriteFrame_statistics. cbv zeta.
  destruct (_ <? _); destruct (_ <? _); repeat split.
Qed.

Lemma AVI_WriteFrame_keyframe_setup g :
  let g' := AVI_WriteFrame_keyframe g in
  same_setup g g' /\
  frame_indexes g' = frame_indexes g /\
  frames_written g' = frames_written g /\
  num_frames_allocated g' = num_frames_allocated g /\
  current_screen_size g' = current_screen_size g /\
  current_audio_samples g' = current_audio_samples g /\
  byteswritten g' = byteswritten g /\
  (vc_uses_interframes (codec g) = false -> current_is_keyframe g' = true).
Proof.
  unfold AVI_WriteFrame_keyframe. cbv zeta.
  destruct (vc_uses_interframes (codec g)); [destruct (residual_above _ _)|];
    repeat split; discriminate.
Qed.
Lemma index_ok_same g g' :
  frame_indexes g' = frame_indexes g -> frames_written g' = frames_written g ->
  num_frames_allocated g' = num_frames_allocated g -> index_ok g -> index_ok g'.
Proof. unfold index_ok. intros -> -> ->. auto. Qed.

(** [AVI_WriteFrame] in one statement. *)
Lemma AVI_WriteFrame_spec fp g r fp' g' :
  AVI_WriteFrame fp g = (r, fp', g') ->
  fp' = emit (frame_bytes g) fp /\
  same_setup g g' /\
  current_screen_size g' = -1 /\ current_audio_samples g' = -1 /\
  frames_written g' = to_ulong (frames_written g + 1) /\
  (let frame_size := to_int (ftell fp' - to_int (ftell fp)) in
   byteswritten g' = to_ulong (byteswritten g + (frame_size + 32)) /\
   r = (frame_size =? expected_frame_size g)
       && negb (MAX_RECORDING_SIZE <? byteswritten g')) /\
  (vc_uses_interframes (codec g) = false -> current_is_keyframe g' = true) /\
  (index_ok g -> frames_written g + 2000 < 2 ^ 31 ->
   index_ok g' /\
   array_get (frame_indexes g') (frames_written g)
   = frame_index_entry (current_screen_size g) (pending_audio_size g)
       (current_is_keyframe g) /\
   (forall i, 0 <= i < frames_written g ->
      array_get (frame_indexes g') i = array_get (frame_indexes g) i)).
Proof.
  unfold AVI_WriteFrame.
  pose proof (AVI_WriteFrame_chunks_file fp g) as Hfile.
  pose proof (AVI_WriteFrame_chunks_setup fp g) as Hc.
  pose proof (AVI_WriteFrame_chunks_sizes fp g) as Ha.
  pose proof (AVI_WriteFrame_chunks_expected fp g) as Hexp.
  destruct (AVI_WriteFrame_chunks fp g) as [[[fp1 g1] a] ex]. cbn [fst snd] in *.
  subst fp1 a ex. cbv zeta in Hc.
  destruct Hc as (Hs1 & Hi1 & Hfw1 & Hn1 & Hcs1 & Hca1 & Hk1 & Hb1).
  set (a := pending_audio_size g) in *.
  pose proof (AVI_WriteFrame_index_setup a g1) as Hx. cbv zeta in Hx.
  pose proof (AVI_WriteFrame_index_entry a g1) as Hxe. cbv zeta in Hxe.
  set (g2 := AVI_WriteFrame_index a g1) in *.
  destruct Hx as (Hs2 & Hfw2 & Hcs2 & Hca2 & Hk2 & Hb2).
  set (fs := to_int (ftell (emit (frame_bytes g) fp) - to_int (ftell fp))).
  set (g3 := g2 <| byteswritten := to_ulong (byteswritten g2 + (fs + 32)) |>).
  assert (H3 : same_setup g2 g3 /\ frame_indexes g3 = frame_indexes g2 /\
               frames_written g3 = frames_written g2 /\
               num_frames_allocated g3 = num_frames_allocated g2 /\
               current_is_keyframe g3 = current_is_keyframe g2 /\
               byteswritten g3 = to_ulong (byteswritten g2 + (fs + 32)))
    by (repeat split).
  destruct H3 as (Hs3 & Hi3 & Hfw3 & Hn3 & Hk3 & Hb3).
  pose proof (AVI_WriteFrame_statistics_setup g3) as Hst. cbv zeta in Hst.
  set (g4 := AVI_WriteFrame_statistics g3) in *.
  destruct Hst as (Hs4 & Hi4 & Hfw4 & Hn4 & Hcs4 & Hca4 & Hk4 & Hb4).
  pose proof (AVI_WriteFrame_keyframe_setup g4) as Hkf. cbv zeta in Hkf.
  set (g5 := AVI_WriteFrame_keyframe g4) in *.
  destruct Hkf as (Hs5 & Hi5 & Hfw5 & Hn5 & Hcs5 & Hca5 & Hb5 & Hk5).
  set (g6 := g5 <| current_screen_size := -1 |> <| current_audio_samples := -1 |>).
  assert (H6 : same_setup g5 g6 /\ frame_indexes g6 = frame_indexes g5 /\
               frames_written g6 = frames_written g5 /\
               num_frames_allocated g6 = num_frames_allocated g5 /\
               current_is_keyframe g6 = current_is_keyframe g5 /\
               byteswritten g6 = byteswritten g5 /\
               current_screen_size g6 = -1 /\ current_audio_samples g6 = -1)
    by (repeat split).
  destruct H6 as (Hs6 & Hi6 & Hfw6 & Hn6 & Hk6 & Hb6 & Hcs6 & Hca6).
  assert (Hsetup4 : same_setup g g4).
  { apply (same_setup_trans g g1 g4 Hs1), (same_setup_trans g1 g2 g4 Hs2),
      (same_setup_trans g2 g3 g4 Hs3), Hs4. }
  assert (Hsetup : same_setup g g6).
  { apply (same_setup_trans g g4 g6 Hsetup4), (same_setup_trans g4 g5 g6 Hs5), Hs6. }
  assert (Hcodec : codec g4 = codec g).
  { unfold codec. destruct Hsetup4 as (_ & _ & -> & _). reflexivity. }
  intros Hw.
  assert (Hres : r = (fs =? expected_frame_size g)
                     && negb (MAX_RECORDING_SIZE <? byteswritten g6)
                 /\ fp' = emit (frame_bytes g) fp /\ g' = g6).
  { fold g6 in Hw. destruct (MAX_RECORDING_SIZE <? byteswritten g6);
      injection Hw as <- <- <-; rewrite ?andb_true_r, ?andb_false_r; auto. }
  destruct Hres as (-> & -> & ->).
  split; [reflexivity|]. split; [exact Hsetup|].
  split; [exact Hcs6|]. split; [exact Hca6|].
  split; [rewrite Hfw6, Hfw5, Hfw4, Hfw3, Hfw2, Hfw1; reflexivity|].
  split; [split; [rewrite Hb6, Hb5, Hb4, Hb3, Hb2, Hb1; reflexivity|reflexivity]|].
  split; [intros Hu; rewrite Hk6; apply Hk5; now rewrite Hcodec|].
  intros Hok Hmax.
  assert (Hok1 : index_ok g1) by (eapply index_ok_same; eauto).
  destruct (Hxe Hok1 ltac:(lia)) as (Hok2 & Hfwe & Hent & Hold).
  split; [|split].
  - eapply index_ok_same; [| | |exact Hok2].
    + rewrite Hi6, Hi5, Hi4, Hi3. reflexivity.
    + rewrite Hfw6, Hfw5, Hfw4, Hfw3. reflexivity.
    + rewrite Hn6, Hn5, Hn4, Hn3. reflexivity.
  - rewrite Hi6, Hi5, Hi4, Hi3, <- Hfw1, Hent, Hcs1, Hk1. reflexivity.
  - intros i Hi. rewrite Hi6, Hi5, Hi4, Hi3, Hold, Hi1 by lia. reflexivity.
Qed.
Arguments AVI_AddVideoFrame_encode : simpl never.
Arguments AVI_AddAudioSamples_copy : simpl never.

Lemma same_recording_refl g : same_recording g g.
Proof. repeat split. Qed.

Lemma same_recording_log s g : same_recording g (log s g).
Proof. repeat split. Qed.

Lemma AVI_AddVideoFrame_encode_spec e fp g :
  let '(r, fp', g') := AVI_AddVideoFrame_encode e fp g in
  fp' = fp /\ same_recording g g' /\
  r = (0 <=? current_screen_size g') /\
  current_audio_samples g' = current_audio_samples g /\
  audio_buffer g' = audio_buffer g /\
  trace g' = trace g ++ [Codec_frame (current_is_keyframe g)].
Proof.
  unfold AVI_AddVideoFrame_encode, call_frame.
  destruct (vc_frame _ _ _ _ _ _) as [[n buf] m]. repeat split.
Qed.

Lemma AVI_AddAudioSamples_copy_spec buf n fp g :
  let '(r, fp', g') := AVI_AddAudioSamples_copy buf n fp g in
  fp' = fp /\ same_recording g g' /\
  current_screen_size g' = current_screen_size g /\
  (if audio_buffer_size g <? to_int (n * sample_size g)
   then r = false /\ current_audio_samples g' = -2 /\ audio_buffer g' = audio_buffer g
   else r = true /\ current_audio_samples g' = n).
Proof.
  unfold AVI_AddAudioSamples_copy. cbv zeta.
  destruct (_ <? _); repeat split.
Qed.

(** A call either leaves the recording as it is, or writes the pending
    frame first. *)
Lemma do_call_cases c fp g r fp' g' :
  do_call c fp g = (r, fp', g') ->
  (fp' = fp /\ same_recording g g') \/
  (0 <= current_screen_size g /\
   exists r1 g1, AVI_WriteFrame fp g = (r1, fp', g1) /\ same_recording g1 g' /\
     (r = true -> r1 = true)).
Proof.
  destruct c as [e|buf n]; cbn [do_call].
  - unfold AVI_AddVideoFrame.
    destruct (Z.leb_spec 0 (current_screen_size g)) as [Hcs|Hcs].
    + destruct ((num_streams g =? 1) || (0 <? current_audio_samples g)).
      * destruct (AVI_WriteFrame fp g) as [[r1 fp1] g1] eqn:Ew.
        destruct r1; cbn [negb].
        -- pose proof (AVI_AddVideoFrame_encode_spec e fp1 g1) as He.
           destruct (AVI_AddVideoFrame_encode e fp1 g1) as [[r2 fp2] g2].
           destruct He as (-> & Hs & _). intros [= <- <- <-].
           right. split; [lia|]. exists true, g1. auto.
        -- intros [= <- <- <-]. right. split; [lia|]. exists false, g1.
           split; [reflexivity|]. split; [apply same_recording_refl|discriminate].
      * intros [= <- <- <-]. left. split; [reflexivity|apply same_recording_log].
    + destruct (_ || _).
      * intros [= <- <- <-]. left. split; [reflexivity|apply same_recording_refl].
      * pose proof (AVI_AddVideoFrame_encode_spec e fp g) as He.
        destruct (AVI_AddVideoFrame_encode e fp g) as [[r2 fp2] g2].
        destruct He as (-> & Hs & _). intros [= <- <- <-]. left. auto.
  - unfold AVI_AddAudioSamples.
    destruct (Z.leb_spec 0 (current_audio_samples g)) as [Hca|Hca].
    + destruct (Z.leb_spec 0 (current_screen_size g)) as [Hcs|Hcs].
      * destruct (AVI_WriteFrame fp g) as [[r1 fp1] g1] eqn:Ew.
        destruct r1; cbn [negb].
        -- pose proof (AVI_AddAudioSamples_copy_spec buf n fp1 g1) as He.
           destruct (AVI_AddAudioSamples_copy buf n fp1 g1) as [[r2 fp2] g2].
           destruct He as (-> & Hs & _). intros [= <- <- <-].
           right. split; [lia|]. exists true, g1. auto.
        -- intros [= <- <- <-]. right. split; [lia|]. exists false, g1.
           split; [reflexivity|]. split; [apply same_recording_refl|discriminate].
      * intros [= <- <- <-]. left. split; [reflexivity|apply same_recording_log].
    + destruct (_ || _).
      * intros [= <- <- <-]. left. split; [reflexivity|apply same_recording_refl].
      * pose proof (AVI_AddAudioSamples_copy_spec buf n fp g) as He.
        destruct (AVI_AddAudioSamples_copy buf n fp g) as [[r2 fp2] g2].
        destruct He as (-> & Hs & _). intros [= <- <- <-]. left. auto.
Qed.

(** ** Opening a recording *)

Ltac conjs := repeat match goal with |- _ /\ _ => split end.

(** What [AVI_WriteHeader] returns: the variables with the start of the
    [movi] payload recorded, and success when the header has its length. *)
Lemma AVI_WriteHeader_result e fp g ok fp' g' :
  AVI_WriteHeader e fp g = (ok, fp', g') ->
  (ok = true -> ftell fp' = if num_streams g =? 2 then 1394 else 1272) /\
  exists m, g' = g <| size_movi := m |>.
Proof.
  unfold AVI_WriteHeader. cbv zeta.
  match goal with
  | |- (ftell ?F =? ?N, _, ?G) = _ -> _ =>
      generalize F; intros F0;
      match G with context [to_ulong ?M] => generalize (to_ulong M); intros m end
  end.
  destruct (num_streams g =? 2); intros Hw; injection Hw as Ho Hf Hg; subst fp' g';
    (split; [intros Hok; rewrite Hok in Ho; apply Z.eqb_eq in Ho; exact Ho|]);
    exists m; reflexivity.
Qed.



Lemma AVI_OpenFile_fields e name g0 fp g :
  AVI_OpenFile e name g0 = (Some fp, g) ->
  ftell fp = (if Sound_enabled e then 1394 else 1272) /\
  byteswritten g = ftell fp + 8 /\
  frames_written g = 0 /\
  num_frames_allocated g = 1000 /\
  frame_indexes g = Some (replicate 1000 0) /\
  current_is_keyframe g = true /\
  current_screen_size g = -1 /\
  current_audio_samples g = -1 /\
  samples_written g = 0 /\
  num_streams g = (if Sound_enabled e then 2 else 1) /\
  0 <= video_buffer_size g /\
  video_buffer g = Some (replicate (Z.to_nat (video_buffer_size g)) 0) /\
  audio_buffer g = (if Sound_enabled e
                    then Some (replicate (Z.to_nat (audio_buffer_size g)) 0)
                    else None) /\
  (if Sound_enabled e then sample_size g = 1 \/ sample_size g = 2
   else sample_size g = 0 /\ audio_buffer_size g = 0) /\
  is_Some (video_codec g) /\
  trace g = trace g0 ++ [Codec_init].
Proof.
  unfold AVI_OpenFile. destruct (fopen_wb _ _) as [f|]; [|discriminate].
  cbv zeta.
  match goal with |- context [video_codec ?G] => set (g00 := G) end.
  assert (H0 : frames_written g00 = 0 /\ num_frames_allocated g00 = 1000 /\
               frame_indexes g00 = Some (replicate 1000 0) /\
               current_is_keyframe g00 = true /\
               current_screen_size g00 = -1 /\ trace g00 = trace g0)
    by (subst g00; conjs; reflexivity).
  clearbody g00.
  match goal with |- context [call_init ?G] => set (g1 := G) end.
  assert (H1 : frames_written g1 = 0 /\ num_frames_allocated g1 = 1000 /\
               frame_indexes g1 = Some (replicate 1000 0) /\
               current_is_keyframe g1 = true /\
               current_screen_size g1 = -1 /\ trace g1 = trace g0 /\
               is_Some (video_codec g1)).
  { destruct H0 as (? & ? & ? & ? & ? & ?).
    subst g1. destruct (video_codec g00) eqn:Ec; [|destruct (requested_video_codec g00)];
      conjs; try assumption; cbn; rewrite ?Ec; eauto. }
  clearbody g1. clear H0 g00.
  unfold call_init. destruct (vc_init _ _ _ _ _ _) as [r m].
  match goal with |- context [?A <? 0] => destruct (Z.ltb_spec A 0) as [|Hvb] end;
    [discriminate|].
  match goal with |- context [AVI_WriteHeader e f ?G] => set (g3 := G) end.
  assert (H3 : frames_written g3 = 0 /\ num_frames_allocated g3 = 1000 /\
               frame_indexes g3 = Some (replicate 1000 0) /\
               current_is_keyframe g3 = true /\
               current_screen_size g3 = -1 /\
               current_audio_samples g3 = -1 /\
               samples_written g3 = 0 /\
               num_streams g3 = (if Sound_enabled e then 2 else 1) /\
               0 <= video_buffer_size g3 /\
               video_buffer g3 = Some (replicate (Z.to_nat (video_buffer_size g3)) 0) /\
               audio_buffer g3 = (if Sound_enabled e
                    then Some (replicate (Z.to_nat (audio_buffer_size g3)) 0)
                    else None) /\
               (if Sound_enabled e then sample_size g3 = 1 \/ sample_size g3 = 2
                else sample_size g3 = 0 /\ audio_buffer_size g3 = 0) /\
               is_Some (video_codec g3) /\
               trace g3 = trace g0 ++ [Codec_init]).
  { destruct H1 as (? & ? & ? & ? & ? & Ht & ?).
    subst g3. destruct (Sound_enabled e); conjs; try assumption; try reflexivity;
      try exact Hvb; try (cbn; rewrite Ht; reflexivity).
    cbn. destruct (_ =? 0); auto. }
  clearbody g3. clear H1.
  destruct (AVI_WriteHeader e f g3) as [[ok fp0] g4] eqn:Ew.
  apply AVI_WriteHeader_result in Ew. destruct Ew as (Hlen & mv & ->).
  destruct ok; cbn [negb]; [|discriminate].
  intros [= <- <-].
  destruct H3 as (? & ? & ? & ? & ? & ? & ? & Hn & ? & ? & ? & ? & ? & ?).
  specialize (Hlen eq_refl). rewrite Hn in Hlen.
  assert (Hl : ftell fp0 = if Sound_enabled e then 1394 else 1272)
    by (rewrite Hlen; destruct (Sound_enabled e); reflexivity).
  split; [exact Hl|]. split.
  { cbn. rewrite Hl. destruct (Sound_enabled e); reflexivity. }
  conjs; assumption.
Qed.
Lemma AVI_OpenFile_spec e name g0 fp g :
  AVI_OpenFile e name g0 = (Some fp, g) -> recording_started e g.
Proof.
  intros Ho. apply AVI_OpenFile_fields in Ho.
  destruct Ho as (_ & _ & Hfw & Hn & Hi & Hk & Hcs & Hca & _ & Hs & _).
  unfold recording_started, index_ok. conjs; try assumption.
  exists (replicate 1000 0). rewrite Hfw, Hn, length_replicate.
  unfold FRAME_INDEX_ALLOC_SIZE. conjs; auto; lia.
Qed.


(** Property X2.  When [AVI_OpenFile] returns [NULL], either the file could
    not be created and no variable has changed, or the codec refused to
    initialise, which is logged, or the header could not be written and the
    codec's end hook has run.  In the last two cases the index array
    allocated for the recording is still allocated. *)
Theorem AVI_OpenFile_failure e name g0 g :
  AVI_OpenFile e name g0 = (None, g) ->
  (fopen_wb (filesystem e) name = None /\ g = g0) \/
  (trace g = trace g0 ++ [Codec_init; Log_print "Failed to initialize video codec"]
   /\ frame_indexes g = Some (replicate 1000 0) /\ video_buffer_size g < 0) \/
  (trace g = trace g0 ++ [Codec_init; Codec_end]
   /\ frame_indexes g = Some (replicate 1000 0)
   /\ video_buffer g = Some (replicate (Z.to_nat (video_buffer_size g)) 0)).
Proof.
  unfold AVI_OpenFile. destruct (fopen_wb _ _) as [f|]; [|intros [= <-]; auto].
  cbv zeta. intros Ho. right. revert Ho.
  match goal with |- context [video_codec ?G] => set (g00 := G) end.
  assert (H0 : frame_indexes g00 = Some (replicate 1000 0) /\ trace g00 = trace g0)
    by (subst g00; conjs; reflexivity).
  clearbody g00.
  match goal with |- context [call_init ?G] => set (g1 := G) end.
  assert (H1 : frame_indexes g1 = Some (replicate 1000 0) /\ trace g1 = trace g0).
  { destruct H0. subst g1.
    destruct (video_codec g00); [|destruct (requested_video_codec g00)];
      conjs; assumption. }
  clearbody g1. clear H0 g00. destruct H1 as (Hi & Ht).
  unfold call_init. destruct (vc_init _ _ _ _ _ _) as [r m].
  match goal with |- context [?A <? 0] => destruct (Z.ltb_spec A 0) as [Hvb|Hvb] end.
  - intros [= <-]. left. conjs; [|exact Hi|exact Hvb].
    transitivity ((trace g1 ++ [Codec_init])
      ++ [Log_print "Failed to initialize video codec"]); [reflexivity|].
    rewrite Ht, <- app_assoc. reflexivity.
  - match goal with |- context [AVI_WriteHeader e f ?G] => set (g3 := G) end.
    assert (H3 : frame_indexes g3 = Some (replicate 1000 0) /\
                 trace g3 = trace g0 ++ [Codec_init] /\
                 video_buffer g3 = Some (replicate (Z.to_nat (video_buffer_size g3)) 0)).
    { subst g3. destruct (Sound_enabled e); conjs; try assumption; try reflexivity;
        (transitivity (trace g1 ++ [Codec_init]); [reflexivity|]); rewrite Ht; reflexivity. }
    clearbody g3. destruct H3 as (Hi3 & Ht3 & Hv3).
    destruct (AVI_WriteHeader e f g3) as [[ok fp0] g4] eqn:Ew.
    apply AVI_WriteHeader_result in Ew. destruct Ew as (_ & mv & ->).
    destruct ok; cbn [negb]; [discriminate|].
    intros [= <-]. right. unfold call_end.
    destruct (vc_end _ _) as [x m']. conjs; try assumption.
    transitivity (trace g3 ++ [Codec_end]); [reflexivity|].
    rewrite Ht3, <- app_assoc. reflexivity.
Qed.

(** ** Single calls *)

(** Property X3.  In a recording with sound, [AVI_AddVideoFrame] called
    with a video frame pending and no audio samples pending - none at all,
    or an audio call that brought zero samples - is refused as out of
    phase: it returns 0 and logs the error; nothing is written, encoded or
    reset. *)
Theorem AVI_AddVideoFrame_out_of_phase e fp g :
  num_streams g <> 1 -> 0 <= current_screen_size g ->
  current_audio_samples g <= 0 ->
  AVI_AddVideoFrame e fp g
  = (false, fp,
     log "AVI write error: attempted to write video frame without audio data" g).
Proof.
  intros Hn Hcs Hca. unfold AVI_AddVideoFrame.
  rewrite (proj2 (Z.leb_le 0 _) Hcs).
  rewrite (proj2 (Z.eqb_neq _ _) Hn), (proj2 (Z.ltb_ge 0 _) Hca).
  reflexivity.
Qed.

Lemma log_fields s g :
  current_screen_size (log s g) = current_screen_size g /\
  current_audio_samples (log s g) = current_audio_samples g /\
  num_streams (log s g) = num_streams g.
Proof. repeat split. Qed.

Lemma set_trace_twice (g : state) t t' :
  g <| trace := t |> <| trace := t' |> = g <| trace := t' |>.
Proof. reflexivity. Qed.

Lemma set_trace_same (g : state) : g <| trace := trace g |> = g.
Proof. destruct g. reflexivity. Qed.

(** A call on a recording in error fails and changes nothing but the log. *)
Lemma do_call_poisoned c fp g :
  poisoned g ->
  exists msgs, do_call c fp g
    = (false, fp, g <| trace := trace g ++ (Log_print <$> msgs) |>).
Proof.
  intros Hp. destruct c as [e|buf n]; cbn [do_call].
  - unfold AVI_AddVideoFrame.
    destruct (Z.leb_spec 0 (current_screen_size g)) as [Hcs|Hcs].
    + destruct Hp as [Hp|[Hca Hn]]; [lia|].
      rewrite (proj2 (Z.eqb_neq _ _) Hn), (proj2 (Z.ltb_ge 0 _)) by lia.
      cbn [orb]. eexists [_]. reflexivity.
    + assert (E : (current_screen_size g <? -1) || (current_audio_samples g <? -1) = true).
      { destruct Hp as [Hp|[Hca Hn]]; apply orb_true_iff; [left|right];
          apply Z.ltb_lt; lia. }
      rewrite E. exists []. cbn [fmap list_fmap]. rewrite app_nil_r, set_trace_same.
      reflexivity.
  - unfold AVI_AddAudioSamples.
    destruct (Z.leb_spec 0 (current_audio_samples g)) as [Hca|Hca].
    + destruct Hp as [Hp|[Hca' Hn]]; [|lia].
      rewrite (proj2 (Z.leb_gt 0 _)) by lia. eexists [_]. reflexivity.
    + assert (E : (current_screen_size g <? -1) || (current_audio_samples g <? -1) = true).
      { destruct Hp as [Hp|[Hca' Hn]]; apply orb_true_iff; [left|right];
          apply Z.ltb_lt; lia. }
      rewrite E. exists []. cbn [fmap list_fmap]. rewrite app_nil_r, set_trace_same.
      reflexivity.
Qed.

Lemma poisoned_set_trace g t : poisoned g -> poisoned (g <| trace := t |>).
Proof. exact (fun H => H). Qed.

(** Property X4.  Once a sentinel is below -1 (the video one, or the audio
    one in a recording with sound), every later [AVI_AddVideoFrame] and
    [AVI_AddAudioSamples] returns 0, whatever the order of the calls: the
    file is not written to, the codec is not called, and no variable
    changes; only error messages are logged. *)
Theorem session_poisoned calls fp g :
  poisoned g ->
  exists msgs,
    session calls fp g
    = (replicate (length calls) false, fp,
       g <| trace := trace g ++ (Log_print <$> msgs) |>).
Proof.
  revert g. induction calls as [|c calls IH]; intros g Hp.
  - exists []. cbn [session fmap list_fmap length replicate].
    rewrite app_nil_r, set_trace_same. reflexivity.
  - destruct (do_call_poisoned c fp g Hp) as [m1 E1].
    destruct (IH _ (poisoned_set_trace g (trace g ++ (Log_print <$> m1)) Hp))
      as [m2 E2].
    exists (m1 ++ m2). cbn [session]. rewrite E1, E2.
    cbn [length replicate]. rewrite set_trace_twice, fmap_app, app_assoc.
    reflexivity.
Qed.
(** Property X5.  [AVI_AddAudioSamples] with more samples than the audio
    buffer holds returns 0 and copies nothing.  It sets the error sentinel
    -2, which in a recording with sound stops every later call, unless it
    returns before the size is looked at: when audio is pending without a
    video frame (out of phase, logged), when a sentinel is already in
    error, or when the pending frame could not be written. *)
Theorem AVI_AddAudioSamples_too_large buf n fp g r fp' g' :
  audio_buffer_size g < to_int (n * sample_size g) ->
  AVI_AddAudioSamples buf n fp g = (r, fp', g') ->
  r = false /\ audio_buffer g' = audio_buffer g /\
  ((current_audio_samples g' = -2 /\ (num_streams g <> 1 -> poisoned g')) \/
   (0 <= current_audio_samples g /\ current_screen_size g < 0 /\ fp' = fp /\
    g' = log "AVI write error: attempted to write audio data without video frame" g) \/
   (current_audio_samples g < 0 /\
    (current_screen_size g < -1 \/ current_audio_samples g < -1) /\
    fp' = fp /\ g' = g) \/
   (0 <= current_audio_samples g /\ 0 <= current_screen_size g /\
    AVI_WriteFrame fp g = (false, fp', g'))).
Proof.
  intros Hbig. unfold AVI_AddAudioSamples.
  assert (Hcopy : forall f g1, same_setup g g1 ->
            AVI_AddAudioSamples_copy buf n f g1 = (r, fp', g') ->
            r = false /\ audio_buffer g' = audio_buffer g /\
            current_audio_samples g' = -2 /\ (num_streams g <> 1 -> poisoned g')).
  { intros f g1 Hs Hc. pose proof (AVI_AddAudioSamples_copy_spec buf n f g1) as He.
    rewrite Hc in He. destruct He as (_ & Hr & _ & He).
    destruct Hs as (Hn & Hss & _ & Hab & Hau & _).
    rewrite Hab, Hss, (proj2 (Z.ltb_lt _ _) Hbig) in He.
    destruct He as (-> & Hca & Hau').
    split; [reflexivity|]. split; [congruence|]. split; [exact Hca|].
    intros Hne. right. split; [lia|].
    destruct Hr as (_ & _ & _ & _ & _ & Hn' & _). congruence. }
  destruct (Z.leb_spec 0 (current_audio_samples g)) as [Hca|Hca].
  - destruct (Z.leb_spec 0 (current_screen_size g)) as [Hcs|Hcs].
    + destruct (AVI_WriteFrame fp g) as [[r1 fp1] g1] eqn:Ew.
      pose proof (AVI_WriteFrame_spec _ _ _ _ _ Ew) as (_ & Hs & _).
      destruct r1; cbn [negb].
      * intros Hc. destruct (Hcopy _ _ Hs Hc) as (? & ? & ? & ?). auto.
      * intros [= <- <- <-]. split; [reflexivity|].
        split; [apply Hs|]. right. right. right. auto.
    + intros [= <- <- <-]. split; [reflexivity|]. split; [reflexivity|].
      right. left. auto.
  - destruct (_ || _) eqn:E.
    + intros [= <- <- <-]. split; [reflexivity|]. split; [reflexivity|].
      right. right. left. apply orb_true_iff in E.
      rewrite !Z.ltb_lt in E. auto.
    + intros Hc. destruct (Hcopy _ _ (same_setup_refl g) Hc) as (? & ? & ? & ?). auto.
Qed.

Lemma read_buf_app_exact (a b : list Z) n :
  Z.of_nat (length a) = n -> read_buf (a ++ b) n = a.
Proof.
  intros <-. unfold read_buf. rewrite Nat2Z.id, <- app_assoc.
  rewrite take_app_length. reflexivity.
Qed.

(** Property X6.  When [AVI_AddAudioSamples] succeeds in a recording with
    sound, the samples fit the audio buffer, their number is pending, and
    the audio chunk of the pending frame - the [01wb] chunk the next
    [AVI_WriteFrame] writes - carries exactly the first
    [num_samples * sample_size] bytes of the caller's buffer. *)
Theorem AVI_AddAudioSamples_chunk buf n fp g fp' g' l :
  num_streams g = 2 -> audio_buffer g = Some l ->
  0 <= n -> 0 < sample_size g -> n * sample_size g < 2 ^ 31 ->
  AVI_AddAudioSamples buf n fp g = (true, fp', g') ->
  n * sample_size g <= audio_buffer_size g /\
  current_audio_samples g' = n /\
  frame_bytes g'
  = chunk_bytes "00dc" (current_screen_size g')
      (fwrite_bytes (contents (video_buffer g')) 1 (current_screen_size g'))
    ++ chunk_bytes "01wb" (n * sample_size g)
         (read_buf buf (n * sample_size g)).
Proof.
  intros Hn Hl Hn0 Hss Hlt.
  assert (Hsz : to_int (n * sample_size g) = n * sample_size g)
    by (apply to_int_small; nia).
  assert (Hcopy : forall f g1, same_setup g g1 ->
            AVI_AddAudioSamples_copy buf n f g1 = (true, fp', g') ->
            n * sample_size g <= audio_buffer_size g /\
            current_audio_samples g' = n /\
            num_streams g' = 2 /\ sample_size g' = sample_size g /\
            audio_buffer g' = Some (read_buf buf (n * sample_size g)
                                    ++ drop (Z.to_nat (n * sample_size g)) l)).
  { intros f g1 (Hn1 & Hss1 & _ & Hab1 & Hau1 & _).
    unfold AVI_AddAudioSamples_copy. cbv zeta. rewrite Hss1, Hab1, Hsz.
    destruct (Z.ltb_spec (audio_buffer_size g) (n * sample_size g)); [discriminate|].
    intros [= <- <-]. split; [lia|]. split; [reflexivity|].
    split; [exact (eq_trans Hn1 Hn)|]. split; [exact Hss1|].
    change (memcpy (audio_buffer g1) buf (n * sample_size g)
            = Some (read_buf buf (n * sample_size g)
                    ++ drop (Z.to_nat (n * sample_size g)) l)).
    rewrite Hau1, Hl. reflexivity. }
  intros Hc.
  assert (Hres : n * sample_size g <= audio_buffer_size g /\
            current_audio_samples g' = n /\
            num_streams g' = 2 /\ sample_size g' = sample_size g /\
            audio_buffer g' = Some (read_buf buf (n * sample_size g)
                                    ++ drop (Z.to_nat (n * sample_size g)) l)).
  { revert Hc. unfold AVI_AddAudioSamples.
    destruct (0 <=? current_audio_samples g).
    - destruct (0 <=? current_screen_size g); [|discriminate].
      destruct (AVI_WriteFrame fp g) as [[r1 fp1] g1] eqn:Ew.
      pose proof (AVI_WriteFrame_spec _ _ _ _ _ Ew) as (_ & Hs & _).
      destruct r1; cbn [negb]; [|discriminate]. apply Hcopy, Hs.
    - destruct (_ || _); [discriminate|]. apply Hcopy, same_setup_refl. }
  destruct Hres as (Hfit & Hca & Hn' & Hss' & Hau').
  split; [exact Hfit|]. split; [exact Hca|].
  unfold frame_bytes. rewrite Hn', Hca, Hss', Hau', Hsz. cbn [Z.eqb Pos.eqb].
  f_equal. f_equal. unfold fwrite_bytes, contents. cbn [default].
  rewrite (proj2 (Z.leb_gt _ _) Hss). cbn [orb].
  destruct (Z.leb_spec n 0).
  - assert (n = 0) as -> by lia. reflexivity.
  - rewrite (Z.mul_comm (sample_size g) n). apply read_buf_app_exact.
    rewrite read_buf_length. lia.
Qed.
(** Property X7.  When [AVI_AddVideoFrame] succeeds, a pending frame - if
    there was one - has been written to the file first, and the codec has
    been called exactly once, on the screen, asked for a keyframe exactly
    when [current_is_keyframe] holds; the size it returned is pending and
    the video buffer holds what it produced. *)
Theorem AVI_AddVideoFrame_encodes e fp g fp' g' :
  AVI_AddVideoFrame e fp g = (true, fp', g') ->
  (if 0 <=? current_screen_size g
   then fp' = emit (frame_bytes g) fp /\
        frames_written g' = to_ulong (frames_written g + 1)
   else fp' = fp /\ frames_written g' = frames_written g) /\
  trace g' = trace g ++ [Codec_frame (current_is_keyframe g')] /\
  exists size buf m,
    vc_frame (codec g) (Screen_atari e) (current_is_keyframe g')
      (contents (video_buffer g)) (video_buffer_size g) (codec_memory g)
    = (size, buf, m) /\
    current_screen_size g' = to_int size /\ 0 <= to_int size /\
    video_buffer g' = Some buf /\ codec_memory g' = m.
Proof.
  assert (Henc : forall f g1, same_setup g g1 ->
            AVI_AddVideoFrame_encode e f g1 = (true, fp', g') ->
            fp' = f /\ frames_written g' = frames_written g1 /\
            trace g' = trace g ++ [Codec_frame (current_is_keyframe g')] /\
            exists size buf m,
              vc_frame (codec g) (Screen_atari e) (current_is_keyframe g')
                (contents (video_buffer g)) (video_buffer_size g) (codec_memory g)
              = (size, buf, m) /\
              current_screen_size g' = to_int size /\ 0 <= to_int size /\
              video_buffer g' = Some buf /\ codec_memory g' = m).
  { intros f g1 (_ & _ & Hc & _ & _ & Hvs & Hvb & _ & _ & _ & _ & Hm & Ht & _).
    unfold AVI_AddVideoFrame_encode, call_frame.
    assert (Hcodec : codec g1 = codec g) by (unfold codec; now rewrite Hc).
    rewrite Hcodec, Hvs, Hvb, Hm.
    destruct (vc_frame _ _ _ _ _ _) as [[size buf] m] eqn:Ef.
    intros [= Hr <- <-]. apply Z.leb_le in Hr.
    split; [reflexivity|]. split; [reflexivity|].
    split; [change (trace g1 ++ [Codec_frame (current_is_keyframe g1)]
                    = trace g ++ [Codec_frame (current_is_keyframe g1)]);
            now rewrite Ht|].
    exists size, buf, m. split; [exact Ef|]. repeat split. exact Hr. }
  unfold AVI_AddVideoFrame.
  destruct (0 <=? current_screen_size g).
  - destruct (_ || _); [|discriminate].
    destruct (AVI_WriteFrame fp g) as [[r1 fp1] g1] eqn:Ew.
    pose proof (AVI_WriteFrame_spec _ _ _ _ _ Ew) as (Hf & Hs & _ & _ & Hfw & _).
    destruct r1; cbn [negb]; [|discriminate].
    intros He. destruct (Henc _ _ Hs He) as (-> & Hfw' & Ht & Hx).
    split; [split; [exact Hf|congruence]|]. split; assumption.
  - destruct (_ || _); [discriminate|].
    intros He. destruct (Henc _ _ (same_setup_refl g) He) as (-> & Hfw' & Ht & Hx).
    split; [split; [reflexivity|exact Hfw']|]. split; assumption.
Qed.

Lemma to_int_sub_to_int a b : to_int (a - to_int b) = to_int (a - b).
Proof.
  unfold to_int. f_equal.
  change (2 ^ 31) with 2147483648. change (2 ^ 32) with 4294967296.
  set (m := (b + 2147483648) mod 4294967296).
  replace (a - (m - 2147483648) + 2147483648) with ((a + 4294967296) - m) by lia.
  subst m. rewrite Zminus_mod_idemp_r.
  f_equal. lia.
Qed.

Lemma chunk_bytes_length (tag : string) size payload :
  String.length tag = 4%nat -> 0 <= size -> Z.of_nat (length payload) = size ->
  Z.of_nat (length (chunk_bytes tag size payload)) = 8 + size + Z.rem size 2.
Proof.
  intros Ht Hs Hp. unfold chunk_bytes.
  rewrite !length_app, le32_length. unfold bytes_of_string.
  rewrite length_fmap.
  replace (length (String.list_ascii_of_string tag)) with 4%nat.
  2:{ rewrite <- Ht. clear. induction tag; simpl; congruence. }
  rewrite Z.rem_mod_nonneg by lia.
  pose proof (Z.mod_pos_bound size 2 ltac:(lia)).
  destruct (Z.eqb_spec (size mod 2) 0); cbn [negb length]; lia.
Qed.

Lemma fwrite_bytes_size ptr size nmemb :
  0 <= size -> 0 <= nmemb ->
  Z.of_nat (length (fwrite_bytes ptr size nmemb)) = size * nmemb.
Proof.
  intros Hs Hn. unfold fwrite_bytes.
  destruct (Z.leb_spec size 0); cbn [orb]; [cbn [length]; nia|].
  destruct (Z.leb_spec nmemb 0); [cbn [length]; nia|].
  rewrite read_buf_length. nia.
Qed.

(** The pending frame takes [expected_frame_size] bytes, an even number. *)
Lemma frame_bytes_length g :
  0 <= current_screen_size g < 2 ^ 29 ->
  (num_streams g = 2 ->
   0 <= current_audio_samples g /\ 0 <= sample_size g /\
   current_audio_samples g * sample_size g < 2 ^ 29) ->
  Z.of_nat (length (frame_bytes g)) = expected_frame_size g /\
  Z.even (expected_frame_size g) = true /\
  0 < expected_frame_size g < 2 ^ 31.
Proof.
  intros Hcs Ha. unfold frame_bytes, expected_frame_size. cbv zeta.
  set (v := current_screen_size g) in *.
  assert (Hv : Z.of_nat (length (chunk_bytes "00dc" v
                (fwrite_bytes (contents (video_buffer g)) 1 v)))
               = 8 + v + Z.rem v 2).
  { apply chunk_bytes_length; [reflexivity|lia|].
    rewrite fwrite_bytes_size by lia. lia. }
  assert (Hrv : 0 <= Z.rem v 2 < 2)
    by (rewrite Z.rem_mod_nonneg by lia; apply Z.mod_pos_bound; lia).
  assert (Hev : forall x, 0 <= x -> Z.even (8 + x + Z.rem x 2) = true).
  { intros x Hx. rewrite Z.rem_mod_nonneg by lia.
    rewrite (Z.div_mod x 2) at 1 by lia.
    replace (8 + (2 * (x / 2) + x mod 2) + x mod 2)
      with (2 * (4 + x / 2 + x mod 2)) by lia.
    apply Z.even_mul. }
  rewrite (to_int_small (8 + v + Z.rem v 2)) by lia.
  destruct (Z.eqb_spec (num_streams g) 2) as [Hn|Hn].
  - destruct (Ha Hn) as (Hca & Hss & Hlt).
    set (a := current_audio_samples g * sample_size g) in *.
    assert (Ha0 : 0 <= a) by (subst a; nia).
    rewrite (to_int_small a) by lia.
    assert (Hra : 0 <= Z.rem a 2 < 2)
      by (rewrite Z.rem_mod_nonneg by lia; apply Z.mod_pos_bound; lia).
    rewrite (to_int_small (8 + v + Z.rem v 2 + (8 + a + Z.rem a 2)))
      by (clear - Hcs Hlt Ha0 Hrv Hra; clearbody v a; lia).
    rewrite length_app, Nat2Z.inj_add, Hv.
    rewrite chunk_bytes_length; [|reflexivity|lia|].
    2:{ rewrite fwrite_bytes_size by lia. subst a. lia. }
    split; [lia|]. split; [|lia].
    rewrite Z.even_add, !Hev by lia. reflexivity.
  - rewrite app_nil_r, Hv. split; [reflexivity|]. split; [apply Hev; lia|lia].
Qed.

(** Property X8.  [AVI_WriteFrame] at the end of a file with room for the
    pending frame appends the frame's chunks and nothing else: the [00dc]
    chunk and, with sound, the [01wb] chunk, each padded to an even length,
    [expected_frame_size] bytes in all.  It adds that and 32 bytes for the
    index to the size counter, counts the frame, resets both sentinels
    to -1, and returns 1 unless the counter has passed
    [MAX_RECORDING_SIZE]. *)
Theorem AVI_WriteFrame_appends fp g r fp' g' :
  at_end fp -> f_seekable fp = true ->
  0 <= current_screen_size g < 2 ^ 29 ->
  (num_streams g = 2 ->
   0 <= current_audio_samples g /\ 0 <= sample_size g /\
   current_audio_samples g * sample_size g < 2 ^ 29) ->
  f_pos fp + expected_frame_size g <= f_limit fp ->
  AVI_WriteFrame fp g = (r, fp', g') ->
  f_data fp' = f_data fp ++ (to_ubyte <$> frame_bytes g) /\
  at_end fp' /\
  Z.of_nat (length (frame_bytes g)) = expected_frame_size g /\
  Z.even (expected_frame_size g) = true /\
  byteswritten g' = to_ulong (byteswritten g + (expected_frame_size g + 32)) /\
  frames_written g' = to_ulong (frames_written g + 1) /\
  current_screen_size g' = -1 /\ current_audio_samples g' = -1 /\
  r = negb (MAX_RECORDING_SIZE <? byteswritten g').
Proof.
  intros He Hsk Hcs Ha Hroom Hw.
  destruct (frame_bytes_length g Hcs Ha) as (Hlen & Hev & Hex).
  pose proof (AVI_WriteFrame_spec _ _ _ _ _ Hw)
    as (Hf & _ & Hcs' & Hca' & Hfw & Hb & _).
  cbv zeta in Hb. destruct Hb as (Hbw & Hr).
  assert (Hemit := emit_at_end_room (frame_bytes g) fp He ltac:(lia)).
  rewrite <- Hf in Hemit.
  assert (Hfs : to_int (ftell fp' - to_int (ftell fp)) = expected_frame_size g).
  { rewrite to_int_sub_to_int. unfold ftell. destruct He as [Ho Hp].
    rewrite Hemit. cbn [f_open f_seekable f_pos]. rewrite Ho, Hsk. cbn [andb].
    replace (f_pos fp + Z.of_nat (length (frame_bytes g)) - f_pos fp)
      with (expected_frame_size g) by lia.
    apply to_int_small. lia. }
  rewrite Hfs in Hbw, Hr. rewrite Z.eqb_refl in Hr.
  split; [rewrite Hemit; reflexivity|].
  split.
  { rewrite Hf. apply emit_at_end_keeps, He. }
  repeat (split; [assumption|]). exact Hr.
Qed.

(** ** Whole recordings *)

Lemma index_is_keyframe_entry v a : index_is_keyframe (frame_index_entry v a true) = 0x10.
Proof.
  unfold index_is_keyframe, frame_index_entry. cbv zeta.
  set (x := to_ulong _).
  assert (E : Z.land (Z.lor x KEYFRAME_BITMASK) KEYFRAME_BITMASK = KEYFRAME_BITMASK).
  { apply Z.bits_inj'. intros i Hi. rewrite Z.land_spec, Z.lor_spec.
    destruct (Z.testbit KEYFRAME_BITMASK i);
      [rewrite orb_true_r; reflexivity|apply andb_false_r]. }
  rewrite E. reflexivity.
Qed.

(** What a call does to the index: nothing, or one more entry, for the
    frame that was pending. *)
Lemma do_call_index c fp g r fp' g' :
  do_call c fp g = (r, fp', g') ->
  index_ok g -> frames_written g + 2000 < 2 ^ 31 ->
  index_ok g' /\ video_codec g' = video_codec g /\
  ((frames_written g' = frames_written g /\
    frame_indexes g' = frame_indexes g /\
    current_is_keyframe g' = current_is_keyframe g) \/
   (frames_written g' = frames_written g + 1 /\
    array_get (frame_indexes g') (frames_written g)
    = frame_index_entry (current_screen_size g) (pending_audio_size g)
        (current_is_keyframe g) /\
    (forall i, 0 <= i < frames_written g ->
       array_get (frame_indexes g') i = array_get (frame_indexes g) i) /\
    (vc_uses_interframes (codec g) = false -> current_is_keyframe g' = true))).
Proof.
  intros Hc Hok Hfw.
  destruct (do_call_cases _ _ _ _ _ _ Hc) as [(_ & Hs)|(_ & r1 & g1 & Hw & Hs & _)].
  - destruct Hs as (Hi & Hf & Hn & Hk & _ & _ & _ & Hv & _).
    split; [eapply index_ok_same; eauto|]. split; [exact Hv|]. left. auto.
  - pose proof (AVI_WriteFrame_spec _ _ _ _ _ Hw)
      as (_ & Hset & _ & _ & Hfw1 & _ & Hkf & Hidx).
    destruct (Hidx Hok Hfw) as (Hok1 & Hent & Hold).
    destruct Hs as (Hi & Hf & Hn & Hk & _ & _ & _ & Hv & _).
    assert (H0 : 0 <= frames_written g) by (destruct Hok as (? & _ & _ & ? & _); lia).
    rewrite to_ulong_small in Hfw1 by lia.
    split; [eapply index_ok_same; eauto|].
    split; [rewrite Hv; apply Hset|].
    right. rewrite Hi, Hf, Hk. auto.
Qed.

(** Property X9.  Through a whole recording, whatever calls are made and
    whether they succeed or not, the index array is allocated and has room
    for the next frame: [frames_written] stays below
    [num_frames_allocated], the length of the array, and no more frames
    are written than calls were made.  So [AVI_WriteFrame] never stores an
    index entry out of bounds. *)
Theorem session_index_in_bounds e name g0 fp0 g1 calls rs fp g :
  AVI_OpenFile e name g0 = (Some fp0, g1) ->
  session calls fp0 g1 = (rs, fp, g) ->
  Z.of_nat (length calls) + 2000 < 2 ^ 31 ->
  0 <= frames_written g <= Z.of_nat (length calls) /\
  frames_written g < num_frames_allocated g /\
  exists l, frame_indexes g = Some l /\
            Z.of_nat (length l) = num_frames_allocated g.
Proof.
  intros Ho Hs Hlen. apply AVI_OpenFile_spec in Ho.
  destruct Ho as (Hfw0 & _ & _ & _ & Hok0 & _).
  assert (G : forall calls fp0 g1 rs fp g,
            index_ok g1 -> session calls fp0 g1 = (rs, fp, g) ->
            frames_written g1 + Z.of_nat (length calls) + 2000 < 2 ^ 31 ->
            index_ok g /\
            frames_written g1 <= frames_written g
            <= frames_written g1 + Z.of_nat (length calls)).
  { clear. induction calls as [|c calls IH]; intros fp0 g1 rs fp g Hok Hs Hlen.
    - injection Hs as <- <- <-. split; [exact Hok|]. cbn [length]. lia.
    - cbn [session] in Hs.
      destruct (do_call c fp0 g1) as [[r fp1] g2] eqn:Ec.
      destruct (session calls fp1 g2) as [[rs' fp2] g3] eqn:Es.
      injection Hs as <- <- <-. cbn [length] in Hlen |- *.
      destruct (do_call_index _ _ _ _ _ _ Ec Hok ltac:(lia)) as (Hok2 & _ & Hstep).
      assert (Hle : frames_written g1 <= frames_written g2 <= frames_written g1 + 1)
        by (destruct Hstep as [(-> & _)|(-> & _)]; lia).
      destruct (IH _ _ _ _ _ Hok2 Es ltac:(lia)) as (Hok3 & Hb).
      split; [exact Hok3|lia]. }
  destruct (G _ _ _ _ _ _ Hok0 Hs ltac:(lia)) as (Hok & Hb).
  destruct Hok as (l & Hl & Hll & Hr & _).
  split; [lia|]. split; [lia|]. eauto.
Qed.
Lemma codec_same g g' : video_codec g' = video_codec g -> codec g' = codec g.
Proof. unfold codec. now intros ->. Qed.

(** Property X10.  With a codec that has no inter-frames, every frame of a
    recording is a keyframe: whatever calls are made, [current_is_keyframe]
    holds after each, and every index entry in use has the keyframe bit,
    which [AVI_WriteIndex] turns into the flags 0x10. *)
Theorem session_all_keyframes e name g0 fp0 g1 calls rs fp g :
  AVI_OpenFile e name g0 = (Some fp0, g1) ->
  vc_uses_interframes (codec g1) = false ->
  session calls fp0 g1 = (rs, fp, g) ->
  Z.of_nat (length calls) + 2000 < 2 ^ 31 ->
  current_is_keyframe g = true /\
  forall i, 0 <= i < frames_written g ->
    index_is_keyframe (array_get (frame_indexes g) i) = 0x10.
Proof.
  intros Ho Hu Hs Hlen. apply AVI_OpenFile_spec in Ho.
  destruct Ho as (Hfw0 & Hk0 & _ & _ & Hok0 & _).
  assert (G : forall calls fp0 g1 rs fp g,
            index_ok g1 -> vc_uses_interframes (codec g1) = false ->
            current_is_keyframe g1 = true ->
            (forall i, 0 <= i < frames_written g1 ->
               index_is_keyframe (array_get (frame_indexes g1) i) = 0x10) ->
            session calls fp0 g1 = (rs, fp, g) ->
            frames_written g1 + Z.of_nat (length calls) + 2000 < 2 ^ 31 ->
            current_is_keyframe g = true /\
            forall i, 0 <= i < frames_written g ->
              index_is_keyframe (array_get (frame_indexes g) i) = 0x10).
  { clear. induction calls as [|c calls IH]; intros fp0 g1 rs fp g Hok Hu Hk Hall Hs Hlen.
    - injection Hs as <- <- <-. auto.
    - cbn [session] in Hs.
      destruct (do_call c fp0 g1) as [[r fp1] g2] eqn:Ec.
      destruct (session calls fp1 g2) as [[rs' fp2] g3] eqn:Es.
      injection Hs as <- <- <-. cbn [length] in Hlen.
      destruct (do_call_index _ _ _ _ _ _ Ec Hok ltac:(lia)) as (Hok2 & Hv & Hstep).
      assert (H0 : 0 <= frames_written g1) by (destruct Hok as (? & _ & _ & ? & _); lia).
      apply (IH fp1 g2 rs' fp2 g3 Hok2).
      + rewrite (codec_same _ _ Hv). exact Hu.
      + destruct Hstep as [(_ & _ & ->)|(_ & _ & _ & Hkf)]; auto.
      + destruct Hstep as [(-> & -> & _)|(-> & Hent & Hold & _)]; [exact Hall|].
        intros i Hi. destruct (Z.eq_dec i (frames_written g1)) as [->|Hne].
        * rewrite Hent, Hk. apply index_is_keyframe_entry.
        * rewrite Hold by lia. apply Hall. lia.
      + exact Es.
      + destruct Hstep as [(-> & _)|(-> & _)]; lia. }
  apply (G calls fp0 g1 rs fp g); auto; try lia.
Qed.

(** Property X11.  The first frame of a recording is a keyframe, whatever
    the codec: until a frame is written [current_is_keyframe] holds, and
    from then on the first index entry has the keyframe bit. *)
Theorem session_first_keyframe e name g0 fp0 g1 calls rs fp g :
  AVI_OpenFile e name g0 = (Some fp0, g1) ->
  session calls fp0 g1 = (rs, fp, g) ->
  Z.of_nat (length calls) + 2000 < 2 ^ 31 ->
  if frames_written g =? 0 then current_is_keyframe g = true
  else index_is_keyframe (array_get (frame_indexes g) 0) = 0x10.
Proof.
  intros Ho Hs Hlen. apply AVI_OpenFile_spec in Ho.
  destruct Ho as (Hfw0 & Hk0 & _ & _ & Hok0 & _).
  assert (G : forall calls fp0 g1 rs fp g,
            index_ok g1 ->
            (if frames_written g1 =? 0 then current_is_keyframe g1 = true
             else index_is_keyframe (array_get (frame_indexes g1) 0) = 0x10) ->
            session calls fp0 g1 = (rs, fp, g) ->
            frames_written g1 + Z.of_nat (length calls) + 2000 < 2 ^ 31 ->
            if frames_written g =? 0 then current_is_keyframe g = true
            else index_is_keyframe (array_get (frame_indexes g) 0) = 0x10).
  { clear. induction calls as [|c calls IH]; intros fp0 g1 rs fp g Hok Hf Hs Hlen.
    - injection Hs as <- <- <-. auto.
    - cbn [session] in Hs.
      destruct (do_call c fp0 g1) as [[r fp1] g2] eqn:Ec.
      destruct (session calls fp1 g2) as [[rs' fp2] g3] eqn:Es.
      injection Hs as <- <- <-. cbn [length] in Hlen.
      destruct (do_call_index _ _ _ _ _ _ Ec Hok ltac:(lia)) as (Hok2 & Hv & Hstep).
      assert (H0 : 0 <= frames_written g1) by (destruct Hok as (? & _ & _ & ? & _); lia).
      apply (IH fp1 g2 rs' fp2 g3 Hok2); [|exact Es|].
      + destruct Hstep as [(-> & -> & ->)|(E & Hent & Hold & _)]; [exact Hf|].
        rewrite E. rewrite (proj2 (Z.eqb_neq _ 0)) by lia.
        destruct (Z.eqb_spec (frames_written g1) 0) as [E0|E0].
        * rewrite E0 in Hent. rewrite Hent, Hf. apply index_is_keyframe_entry.
        * rewrite Hold by lia. exact Hf.
      + destruct Hstep as [(-> & _)|(-> & _)]; lia. }
  apply (G calls fp0 g1 rs fp g); auto; try lia.
  rewrite Hfw0. exact Hk0.
Qed.

(** A call that returns 1 leaves the size counter within the limit. *)
Lemma do_call_byteswritten c fp g fp' g' :
  do_call c fp g = (true, fp', g') ->
  byteswritten g <= MAX_RECORDING_SIZE -> byteswritten g' <= MAX_RECORDING_SIZE.
Proof.
  intros Hc Hb.
  destruct (do_call_cases _ _ _ _ _ _ Hc) as [(_ & Hs)|(_ & r1 & g1 & Hw & Hs & Hr)].
  - destruct Hs as (_ & _ & _ & _ & -> & _). exact Hb.
  - pose proof (AVI_WriteFrame_spec _ _ _ _ _ Hw) as (_ & _ & _ & _ & _ & Hbw & _).
    cbv zeta in Hbw. destruct Hbw as (_ & Hr1). rewrite (Hr eq_refl) in Hr1.
    symmetry in Hr1. apply andb_true_iff in Hr1 as (_ & Hr1).
    apply negb_true_iff, Z.ltb_ge in Hr1.
    destruct Hs as (_ & _ & _ & _ & -> & _). exact Hr1.
Qed.

(** Property X12.  As long as every call of a recording has returned 1,
    the size counter [byteswritten] is at most [MAX_RECORDING_SIZE]: the
    call that takes it past the limit returns 0. *)
Theorem session_within_limit e name g0 fp0 g1 calls rs fp g :
  AVI_OpenFile e name g0 = (Some fp0, g1) ->
  session calls fp0 g1 = (rs, fp, g) ->
  Forall (fun r => r = true) rs ->
  byteswritten g <= MAX_RECORDING_SIZE.
Proof.
  intros Ho Hs Hall. apply AVI_OpenFile_fields in Ho.
  destruct Ho as (Hl & Hb & _).
  assert (Hb0 : byteswritten g1 <= MAX_RECORDING_SIZE).
  { rewrite Hb, Hl. unfold MAX_RECORDING_SIZE. destruct (Sound_enabled e); lia. }
  clear Hl Hb. revert fp0 g1 rs fp g Hs Hall Hb0.
  induction calls as [|c calls IH]; intros fp0 g1 rs fp g Hs Hall Hb0.
  - injection Hs as <- <- <-. exact Hb0.
  - cbn [session] in Hs.
    destruct (do_call c fp0 g1) as [[r fp1] g2] eqn:Ec.
    destruct (session calls fp1 g2) as [[rs' fp2] g3] eqn:Es.
    injection Hs as <- <- <-. apply Forall_cons in Hall as [-> Hall].
    eapply IH; [exact Es|exact Hall|].
    eapply do_call_byteswritten; eauto.
Qed.

(** ** The index and the end of a recording *)

Lemma index_video_size_range index : 0 <= index_video_size index < 2 ^ 18.
Proof.
  unfold index_video_size, VIDEO_BITMASK. change 0x3ffff with (Z.ones 18).
  rewrite Z.land_ones by lia.
  pose proof (Z.mod_pos_bound index (2 ^ 18) ltac:(lia)).
  rewrite to_int_small; lia.
Qed.

Lemma index_audio_size_range index : 0 <= index_audio_size index < 2 ^ 13.
Proof.
  unfold index_audio_size, AUDIO_BITMASK, AUDIO_BITSHIFT.
  change 0x7ffc0000 with (Z.ldiff (Z.ones 31) (Z.ones 18)).
  rewrite land_bit_field by lia. change 0x40000 with (2 ^ 18).
  rewrite Z.mul_comm, Z.div_mul by lia.
  pose proof (Z.mod_pos_bound index (2 ^ 31) ltac:(lia)).
  assert (0 <= index mod 2 ^ 31 / 2 ^ 18 < 2 ^ 13).
  { split; [apply Z.div_pos; lia|]. apply Z.div_lt_upper_bound; lia. }
  rewrite to_int_small; lia.
Qed.

Lemma chunk_span_range size : 0 <= size -> size + 8 <= chunk_span size <= size + 9.
Proof.
  intros Hs. unfold chunk_span. rewrite Z.rem_mod_nonneg by lia.
  pose proof (Z.mod_pos_bound size 2 ltac:(lia)). lia.
Qed.

Lemma frame_span_range index : 16 <= frame_span index < 2 ^ 19.
Proof.
  unfold frame_span.
  pose proof (index_video_size_range index) as Hv.
  pose proof (index_audio_size_range index) as Ha.
  pose proof (chunk_span_range _ (proj1 Hv)).
  pose proof (chunk_span_range _ (proj1 Ha)). lia.
Qed.

Lemma foldr_add_app (l : list Z) x : foldr Z.add 0 (l ++ [x]) = foldr Z.add 0 l + x.
Proof. induction l as [|y l IH]; cbn [foldr app]; lia. Qed.

Lemma frame_offset_succ g k : 0 <= k ->
  frame_offset g (k + 1) = frame_offset g k + frame_span (array_get (frame_indexes g) k).
Proof.
  intros Hk. unfold frame_offset.
  rewrite seqZ_app by lia. rewrite fmap_app, Z.add_0_l.
  change (seqZ k 1) with [k]. cbn [fmap list_fmap]. rewrite foldr_add_app. lia.
Qed.

Lemma frame_offset_mono g k (n : nat) : 0 <= k ->
  frame_offset g k <= frame_offset g (k + Z.of_nat n).
Proof.
  intros Hk. induction n as [|n IH]; [rewrite Z.add_0_r; lia|].
  replace (k + Z.of_nat (S n)) with (k + Z.of_nat n + 1) by lia.
  rewrite frame_offset_succ by lia.
  pose proof (frame_span_range (array_get (frame_indexes g) (k + Z.of_nat n))). lia.
Qed.

Lemma frame_offset_0 g : frame_offset g 0 = 4.
Proof. reflexivity. Qed.

(** One turn of the loop of [AVI_WriteIndex]. *)
Lemma AVI_WriteIndex_frame_bytes g fp k :
  0 <= k -> frame_offset g (k + 1) < 2 ^ 31 ->
  AVI_WriteIndex_frame g (fp, frame_offset g k) k
  = (emit (en ← idx1_frame_entries g k; idx1_entry_bytes en) fp,
     frame_offset g (k + 1)).
Proof.
  intros Hk Hlt. unfold AVI_WriteIndex_frame. cbv zeta.
  pose proof (frame_offset_mono g 0 (Z.to_nat k) ltac:(lia)) as H0.
  rewrite frame_offset_0, Z.add_0_l, Z2Nat.id in H0 by lia.
  rewrite frame_offset_succ in Hlt |- * by lia.
  set (index := array_get (frame_indexes g) k) in *.
  pose proof (index_video_size_range index) as Hv.
  pose proof (index_audio_size_range index) as Ha.
  pose proof (chunk_span_range _ (proj1 Hv)) as Hsv.
  pose proof (chunk_span_range _ (proj1 Ha)) as Hsa.
  unfold frame_span in *.
  fold (chunk_span (index_video_size index)).
  rewrite (to_int_small (frame_offset g k + chunk_span (index_video_size index))) by lia.
  fold (chunk_span (index_audio_size index)).
  rewrite to_int_small by lia.
  apply f_equal2; [|lia].
  rewrite ?fputs_emit, ?fputl_emit, ?emit_emit.
  unfold idx1_frame_entries. fold index.
  cbn [mbind list_bind fmap list_fmap mjoin list_join idx1_entry_bytes ckid dwFlags
       dwChunkOffset dwChunkLength].
  rewrite <- ?app_assoc, ?app_nil_r. reflexivity.
Qed.

(** The loop of [AVI_WriteIndex] over the frames from [a] on. *)
Lemma AVI_WriteIndex_loop g (n : nat) : forall fp a,
  0 <= a -> frame_offset g (a + Z.of_nat n) < 2 ^ 31 ->
  foldl (AVI_WriteIndex_frame g) (fp, frame_offset g a) (seqZ a (Z.of_nat n))
  = (emit (k ← seqZ a (Z.of_nat n);
           en ← idx1_frame_entries g k; idx1_entry_bytes en) fp,
     frame_offset g (a + Z.of_nat n)).
Proof.
  induction n as [|n IH]; intros fp a Ha Hlt.
  - cbn. rewrite Z.add_0_r. reflexivity.
  - rewrite Nat2Z.inj_succ, seqZ_cons by lia.
    replace (Z.pred (Z.succ (Z.of_nat n))) with (Z.of_nat n) by lia.
    cbn [foldl]. rewrite AVI_WriteIndex_frame_bytes.
    + rewrite IH.
      * rewrite emit_emit. apply f_equal2; [reflexivity|f_equal; lia].
      * lia.
      * replace (Z.succ a + Z.of_nat n) with (a + Z.succ (Z.of_nat n)) by lia.
        rewrite <- Nat2Z.inj_succ. exact Hlt.
    + exact Ha.
    + pose proof (frame_offset_mono g (a + 1) n ltac:(lia)).
      rewrite Nat2Z.inj_succ in Hlt.
      replace (a + 1 + Z.of_nat n) with (a + Z.succ (Z.of_nat n)) in * by lia. lia.
Qed.

(** Property X13.  [AVI_WriteIndex] returns 0 and writes nothing when no
    frame has been written.  Otherwise it writes the chunk [idx1]: its
    length of 32 bytes per frame, and for every frame a [00dc] entry and a
    [01wb] entry - the second also in a recording without sound - whose
    offsets count from 4, each chunk taking its size, 8 bytes and the
    padding to an even length; the [00dc] entry has the flags 0x10 when
    the keyframe bit of the frame's index word is set, the [01wb] entry
    always.  It returns 1 when the file position has advanced by the
    length of the chunk. *)
Theorem AVI_WriteIndex_bytes fp g :
  0 <= 32 * frames_written g < 2 ^ 31 ->
  frame_offset g (frames_written g) < 2 ^ 31 ->
  AVI_WriteIndex fp g
  = if frames_written g =? 0 then (false, fp)
    else
      let fp' := emit (idx1_bytes g) fp in
      (to_int (ftell fp' - to_int (ftell fp)) =? 8 + 32 * frames_written g, fp').
Proof.
  intros Hfw Hlt. unfold AVI_WriteIndex.
  destruct (Z.eqb_spec (frames_written g) 0) as [E|E]; [reflexivity|].
  cbv zeta.
  pose proof (frame_offset_mono g 0 (Z.to_nat (frames_written g)) ltac:(lia)) as Hm.
  rewrite Z.add_0_l, Z2Nat.id, frame_offset_0 in Hm by lia.
  pose proof (frame_span_range (array_get (frame_indexes g) 0)) as Hs0.
  assert (Hsz : to_int (to_ulong (frames_written g * 16 * 2)) = 32 * frames_written g).
  { rewrite to_ulong_small, to_int_small; lia. }
  rewrite Hsz.
  match goal with
  | |- context [foldl _ (?F, 4) _] =>
      pose proof (AVI_WriteIndex_loop g (Z.to_nat (frames_written g)) F 0
                    ltac:(lia)) as Hloop
  end.
  rewrite Z.add_0_l, Z2Nat.id, frame_offset_0 in Hloop by lia.
  rewrite (Hloop Hlt).
  rewrite ?fputs_emit, ?fputl_emit, ?emit_emit.
  unfold idx1_bytes. rewrite <- ?app_assoc. reflexivity.
Qed.
(** Property X14.  [AVI_CloseFile] on a recording with no frame written
    and no complete frame pending returns 0: it writes no [idx1] chunk and
    does not rewrite the header, so the file keeps the bytes it had, with
    the sizes in its header still 0.  The file is closed all the same, the
    codec's end hook is called, and the buffers and the index are
    released. *)
Theorem AVI_CloseFile_no_frames e fp g :
  frames_written g = 0 ->
  current_screen_size g < 0 \/ current_audio_samples g < 0 ->
  exists g',
    AVI_CloseFile e fp g = (false, fclose fp, g') /\
    trace g' = trace g ++ [Codec_end] /\
    video_buffer g' = None /\ frame_indexes g' = None /\
    audio_buffer g' = (if 0 <? audio_buffer_size g then None else audio_buffer g) /\
    video_buffer_size g' = 0 /\ audio_buffer_size g' = 0 /\
    num_frames_allocated g' = 0 /\
    current_screen_size g' = -1 /\ current_audio_samples g' = -1 /\
    size_riff g' = size_riff g.
Proof.
  intros Hfw Hp. unfold AVI_CloseFile.
  assert (E : (0 <=? current_screen_size g) && (0 <=? current_audio_samples g) = false).
  { apply andb_false_iff. destruct Hp; [left|right]; apply Z.leb_gt; lia. }
  rewrite E, Hfw. cbn [Z.ltb Z.compare].
  unfold AVI_WriteIndex.
  change (frames_written (g <| size_movi := to_ulong (ftell fp - size_movi g) |>))
    with (frames_written g).
  rewrite Hfw. cbn [Z.eqb]. unfold call_end.
  match goal with |- context [vc_end ?c ?m] => destruct (vc_end c m) as [x m'] end.
  eexists. split; [reflexivity|].
  destruct (0 <? audio_buffer_size g) eqn:Ea.
  - change (audio_buffer_size (g <| size_movi := to_ulong (ftell fp - size_movi g) |>))
      with (audio_buffer_size g). rewrite Ea. repeat split.
  - change (audio_buffer_size (g <| size_movi := to_ulong (ftell fp - size_movi g) |>))
      with (audio_buffer_size g). rewrite Ea. repeat split.
Qed.
Lemma released_fields g g4 msgs :
  audio_buffer_size g4 = audio_buffer_size g ->
  audio_buffer g4 = audio_buffer g ->
  trace g4 = trace g ++ (Log_print <$> msgs) ->
  let g' := released g4 in
  trace g' = trace g ++ (Log_print <$> msgs) ++ [Codec_end] /\
  video_buffer g' = None /\ video_buffer_size g' = 0 /\
  frame_indexes g' = None /\ num_frames_allocated g' = 0 /\
  audio_buffer g' = (if 0 <? audio_buffer_size g then None else audio_buffer g) /\
  audio_buffer_size g' = 0 /\
  current_screen_size g' = -1 /\ current_audio_samples g' = -1.
Proof.
  intros Hab Hau Ht. cbv zeta. unfold released, call_end.
  match goal with |- context [vc_end ?c ?m] => destruct (vc_end c m) as [x m'] end.
  rewrite <- Hab, <- Hau.
  split.
  { transitivity (trace g4 ++ [Codec_end]).
    - destruct (0 <? audio_buffer_size g4); reflexivity.
    - rewrite Ht, <- app_assoc. reflexivity. }
  destruct (0 <? audio_buffer_size g4); repeat split.
Qed.

(** [AVI_CloseFile] as its steps: the pending frame, the statistics, the
    index, the header, and the release of everything. *)
Lemma AVI_CloseFile_steps e fp g :
  exists r1 fp1 g1 gl g2 r3 fp3 r4 fp4 g4,
    AVI_CloseFile e fp g = (r4, fclose fp4, released g4) /\
    (if (0 <=? current_screen_size g) && (0 <=? current_audio_samples g)
     then AVI_WriteFrame fp g else (true, fp, g)) = (r1, fp1, g1) /\
    gl = (if 0 <? frames_written g1
          then log "AVI stats: %d:%02d:%02d, %dMB, %d frames; video codec avg frame size %.1fkB, min=%.1fkB, max=%.1fkB" g1
          else g1) /\
    g2 = gl <| size_movi := to_ulong (ftell fp1 - size_movi gl) |> /\
    (if r1 then AVI_WriteIndex fp1 g2 else (false, fp1)) = (r3, fp3) /\
    (if r3 then AVI_WriteHeader e fp3 (g2 <| size_riff := to_ulong (ftell fp3 - 8) |>)
     else (false, fp3, if r1 then g2 else gl)) = (r4, fp4, g4).
Proof.
  unfold AVI_CloseFile.
  destruct (if (0 <=? current_screen_size g) && (0 <=? current_audio_samples g)
            then AVI_WriteFrame fp g else (true, fp, g)) as [[r1 fp1] g1].
  exists r1, fp1, g1.
  match goal with
  | |- context [if 0 <? frames_written g1 then ?A else g1] =>
      set (gl := if 0 <? frames_written g1 then A else g1)
  end.
  exists gl, (gl <| size_movi := to_ulong (ftell fp1 - size_movi gl) |>).
  destruct r1; cbv beta iota zeta.
  - destruct (AVI_WriteIndex fp1 _) as [r3 fp3] eqn:Ei. exists r3, fp3.
    destruct r3.
    + destruct (AVI_WriteHeader e fp3 _) as [[r4 fp4] g4] eqn:Eh.
      exists r4, fp4, g4. split; [reflexivity|]. split; [reflexivity|].
      split; [reflexivity|]. split; [reflexivity|]. split; reflexivity.
    + eexists _, _, _. split; [reflexivity|]. split; [reflexivity|].
      split; [reflexivity|]. split; [reflexivity|]. split; reflexivity.
  - eexists _, _, _, _, _. split; [reflexivity|]. split; [reflexivity|].
    split; [reflexivity|]. split; [reflexivity|]. split; reflexivity.
Qed.

(** Property X15.  However [AVI_CloseFile] ends - with the index and the
    header written or not - it closes the file, calls the codec's end hook
    exactly once, as the last thing it asks of the codec, frees the video
    buffer and the index, frees the audio buffer when there is one, and
    resets the sizes and both sentinels.  It logs at most one line, the
    statistics. *)
Theorem AVI_CloseFile_releases e fp g r fp' g' :
  AVI_CloseFile e fp g = (r, fp', g') ->
  f_open fp' = false /\
  (exists msgs, (length msgs <= 1)%nat /\
     trace g' = trace g ++ (Log_print <$> msgs) ++ [Codec_end]) /\
  video_buffer g' = None /\ video_buffer_size g' = 0 /\
  frame_indexes g' = None /\ num_frames_allocated g' = 0 /\
  audio_buffer g' = (if 0 <? audio_buffer_size g then None else audio_buffer g) /\
  audio_buffer_size g' = 0 /\
  current_screen_size g' = -1 /\ current_audio_samples g' = -1.
Proof.
  destruct (AVI_CloseFile_steps e fp g)
    as (r1 & fp1 & g1 & gl & g2 & r3 & fp3 & r4 & fp4 & g4
        & -> & H1 & Hl & H2 & H3 & H4).
  intros [= <- <- <-]. split; [reflexivity|].
  assert (F1 : audio_buffer_size g1 = audio_buffer_size g /\
               audio_buffer g1 = audio_buffer g /\ trace g1 = trace g).
  { destruct (_ && _).
    - pose proof (AVI_WriteFrame_spec _ _ _ _ _ H1) as (_ & Hs & _).
      destruct Hs as (_ & _ & _ & Hab & Hau & _ & _ & _ & _ & _ & _ & _ & Ht & _).
      auto.
    - injection H1 as <- <- <-. auto. }
  destruct F1 as (Hab & Hau & Ht).
  assert (Fl : exists msgs, (length msgs <= 1)%nat /\
                 audio_buffer_size gl = audio_buffer_size g /\
                 audio_buffer gl = audio_buffer g /\
                 trace gl = trace g ++ (Log_print <$> msgs)).
  { subst gl. destruct (0 <? frames_written g1).
    - eexists [_]. split; [cbn; lia|]. split; [exact Hab|]. split; [exact Hau|].
      unfold log. cbn [fmap list_fmap].
      etransitivity; [|rewrite <- Ht; reflexivity]. reflexivity.
    - exists []. split; [cbn; lia|]. split; [exact Hab|]. split; [exact Hau|].
      cbn [fmap list_fmap]. now rewrite app_nil_r. }
  destruct Fl as (msgs & Hm & Habl & Haul & Htl).
  assert (F4 : audio_buffer_size g4 = audio_buffer_size g /\
               audio_buffer g4 = audio_buffer g /\
               trace g4 = trace g ++ (Log_print <$> msgs)).
  { destruct r3.
    - apply AVI_WriteHeader_result in H4. destruct H4 as (_ & m & ->).
      subst g2. auto.
    - injection H4 as _ _ <-. destruct r1; subst; auto. }
  destruct F4 as (Hab4 & Hau4 & Ht4).
  pose proof (released_fields g g4 msgs Hab4 Hau4 Ht4) as Hf. cbv zeta in Hf.
  destruct Hf as (Htr & Hrest).
  split; [exists msgs; auto|exact Hrest].
Qed.

(** ** More on WAV files *)

(** Property X16.  The file [WAV_OpenFile] returns holds exactly the 44
    bytes of the header: [RIFF], a length of 0, [WAVE]; the [fmt ] chunk of
    16 bytes with format 1 (PCM), [POKEYSND_num_pokeys] channels, the
    sample rate [POKEYSND_playback_freq], the rate times the size of a
    sample as bytes per second - not times the block align, so for two
    POKEYs it is half of what the format asks for -, the block align
    channels times sample size, and 8 or 16 bits per sample; [data] and a
    length of 0.  The sample size is 2 when [POKEYSND_BIT16] is set in
    [POKEYSND_snd_flags] and 1 otherwise, and both counters are 0. *)
Theorem WAV_OpenFile_header e name g0 fp g :
  WAV_OpenFile e name g0 = (Some fp, g) ->
  sample_size g
  = (if Z.land (POKEYSND_snd_flags e) POKEYSND_BIT16 =? 0 then 1 else 2) /\
  f_data fp
  = bytes_of_string "RIFF" ++ le32 0 ++ bytes_of_string "WAVE"
    ++ bytes_of_string "fmt " ++ le32 16 ++ le16 1
    ++ le16 (POKEYSND_num_pokeys e)
    ++ le32 (POKEYSND_playback_freq e)
    ++ le32 (POKEYSND_playback_freq e * sample_size g)
    ++ le16 (POKEYSND_num_pokeys e * sample_size g)
    ++ le16 (sample_size g * 8)
    ++ bytes_of_string "data" ++ le32 0 /\
  slice (f_data fp) 22 2 = le16 (POKEYSND_num_pokeys e) /\
  slice (f_data fp) 24 4 = le32 (POKEYSND_playback_freq e) /\
  slice (f_data fp) 28 4 = le32 (POKEYSND_playback_freq e * sample_size g) /\
  slice (f_data fp) 32 2 = le16 (POKEYSND_num_pokeys e * sample_size g) /\
  slice (f_data fp) 34 2 = le16 (sample_size g * 8) /\
  ftell fp = 44 /\ byteswritten g = 0 /\ frames_written g = 0.
Proof.
  unfold WAV_OpenFile. destruct (fopen_wb _ _) as [fp0|] eqn:Ef; [|discriminate].
  assert (He0 : at_end fp0 /\ f_pos fp0 = 0 /\ f_data fp0 = []).
  { unfold fopen_wb in Ef. destruct (filesystem e name) as [[l s]|]; [|discriminate].
    injection Ef as <-. repeat split. }
  destruct He0 as (He0 & Hp0 & Hd0).
  record.simp. rewrite ?fputs_emit, ?fputl_emit, ?fputw_emit, ?emit_emit.
  set (ss := if Z.land (POKEYSND_snd_flags e) POKEYSND_BIT16 =? 0 then 1 else 2).
  match goal with |- context [emit ?l fp0] => set (hdr := l) end.
  assert (Hlen : length hdr = 44%nat) by reflexivity.
  assert (Hb : to_ubyte <$> hdr = hdr).
  { subst hdr. rewrite !fmap_app, !le32_bytes, !le16_bytes. reflexivity. }
  destruct (Z.eqb_spec (ftell (emit hdr fp0)) 44) as [Ht|Ht]; simpl; [|discriminate].
  intros [= <- <-]. record.simp.
  assert (Ht' := Ht). apply ftell_eq in Ht'; [|lia]. destruct Ht' as (Ho & Hs & Hp).
  assert (Hall := emit_at_end_all hdr fp0 He0 ltac:(rewrite Hp, Hp0, Hlen; reflexivity)).
  rewrite Hall. cbn [f_data]. rewrite Hd0, Hb. cbn [app].
  split; [reflexivity|]. split; [subst hdr; rewrite <- ?app_assoc; reflexivity|].
  rewrite Hall in Ht. subst hdr.
  repeat (split; [reflexivity|]). split; [exact Ht|]. split; reflexivity.
Qed.


(** ** Little-endian output *)

Lemma le16_value x : nth 0 (le16 x) 0 + 2 ^ 8 * nth 1 (le16 x) 0 = to_uword x.
Proof.
  unfold le16. cbn [nth]. rewrite !land_ff, !Z.shiftr_div_pow2 by lia.
  assert (Hr : 0 <= to_uword x < 2 ^ 16) by (apply Z.mod_pos_bound; lia).
  set (y := to_uword x) in *.
  pose proof (Z.div_mod y 256 ltac:(lia)) as E.
  rewrite (Z.mod_small (y / 2 ^ 8) 256).
  - change (2 ^ 8) with 256. lia.
  - change (2 ^ 8) with 256. split; [apply Z.div_pos; lia|].
    apply Z.div_lt_upper_bound; lia.
Qed.

Lemma read16_le16 (a b : list Z) x off :
  off = Z.of_nat (length a) -> read16 (a ++ le16 x ++ b) off = to_uword x.
Proof.
  intros ->. unfold read16.
  replace (Z.to_nat (Z.of_nat (length a))) with (length a + 0)%nat by lia.
  replace (Z.to_nat (Z.of_nat (length a) + 1)) with (length a + 1)%nat by lia.
  rewrite !app_nth2_plus. rewrite <- le16_value. reflexivity.
Qed.

(** Property X18.  [fputl] and [fputw] at the end of a file with room
    append the four, respectively two, bytes of the value in little-endian
    order, low byte first, whatever the host; read back as a little-endian
    number they give the value reduced to 32, respectively 16, bits. *)
Theorem fputl_fputw_little_endian x fp :
  at_end fp ->
  (f_pos fp + 4 <= f_limit fp ->
   let fp' := fputl x fp in
   f_data fp' = f_data fp ++ le32 x /\ f_pos fp' = f_pos fp + 4 /\
   read32 (f_data fp') (f_pos fp) = x mod 2 ^ 32 /\
   Forall (fun b => 0 <= b < 256) (le32 x)) /\
  (f_pos fp + 2 <= f_limit fp ->
   let fp' := fputw x fp in
   f_data fp' = f_data fp ++ le16 x /\ f_pos fp' = f_pos fp + 2 /\
   read16 (f_data fp') (f_pos fp) = x mod 2 ^ 16 /\
   Forall (fun b => 0 <= b < 256) (le16 x)).
Proof.
  intros He. split; intros Hroom; cbv zeta.
  - rewrite fputl_emit, emit_at_end_room by (rewrite ?le32_length; auto).
    cbn [f_data f_pos]. rewrite le32_bytes, le32_length.
    split; [reflexivity|]. split; [reflexivity|]. split.
    + rewrite <- (app_nil_r (le32 x)) at 1. rewrite read32_le32; [reflexivity|apply He].
    + rewrite <- le32_bytes. apply Forall_fmap, Forall_forall. intros b _.
      apply to_ubyte_range.
  - rewrite fputw_emit, emit_at_end_room by (rewrite ?le16_length; auto).
    cbn [f_data f_pos]. rewrite le16_bytes, le16_length.
    split; [reflexivity|]. split; [reflexivity|]. split.
    + rewrite <- (app_nil_r (le16 x)) at 1. rewrite read16_le16; [reflexivity|apply He].
    + rewrite <- le16_bytes. apply Forall_fmap, Forall_forall. intros b _.
      apply to_ubyte_range.
Qed.

(** ** More on PCX files *)

Lemma bind_length_const {A B} (f : A -> list B) (l : list A) n :
  (forall x, length (f x) = n) -> length (x ← l; f x) = (length l * n)%nat.
Proof.
  intros Hf. induction l as [|x l IH]; [reflexivity|].
  cbn [mbind list_bind]. change (length (f x ++ (y ← l; f y)) = (length (x :: l) * n)%nat).
  rewrite length_app, IH, Hf. simpl. lia.
Qed.
Lemma pcx_pixel_range e ptr1 ptr2 plane p : 0 <= pcx_pixel e ptr1 ptr2 plane p < 256.
Proof.
  unfold pcx_pixel. destruct ptr2 as [a2|]; [|apply rd_range].
  rewrite !land_ff, Z.shiftr_div_pow2 by lia. change (2 ^ 1) with 2.
  pose proof (Z.mod_pos_bound (Z.shiftr (Colours_table e (rd ptr1 p)) plane) 256 ltac:(lia)).
  pose proof (Z.mod_pos_bound (Z.shiftr (Colours_table e (rd a2 p)) plane) 256 ltac:(lia)).
  split; [apply Z.div_pos; lia|apply Z.div_lt_upper_bound; lia].
Qed.

(** With interlace, the three scan lines of one line of the window. *)
Lemma pcx_rows_three e ptr1 a2 width height : 0 < width ->
  forall fuel out p y, y < height ->
  exists r16 r8 r0,
    pcx_rows (S (S (S fuel))) e ptr1 (Some a2) width height out p 16 y
    = pcx_rows fuel e ptr1 (Some a2) width height
        (out ++ pcx_encode r16 ++ pcx_encode r8 ++ pcx_encode r0)
        (p + Screen_WIDTH) 16 (y + 1) /\
    Forall pcx_run_ok r16 /\ Forall pcx_run_ok r8 /\ Forall pcx_run_ok r0 /\
    pcx_expand r16 = pcx_pixel e ptr1 (Some a2) 16 <$> seqZ p width /\
    pcx_expand r8 = pcx_pixel e ptr1 (Some a2) 8 <$> seqZ p width /\
    pcx_expand r0 = pcx_pixel e ptr1 (Some a2) 0 <$> seqZ p width.
Proof.
  intros Hw fuel out p y Hy.
  destruct (pcx_line_spec (pcx_pixel e ptr1 (Some a2) 16) width
              (pcx_pixel_range e ptr1 (Some a2) 16)
              (Z.to_nat (Z.max 1 width)) out p 0) as (r16 & E16 & Hok16 & Hex16); try lia.
  destruct (pcx_line_spec (pcx_pixel e ptr1 (Some a2) 8) width
              (pcx_pixel_range e ptr1 (Some a2) 8)
              (Z.to_nat (Z.max 1 width)) (out ++ pcx_encode r16) p 0)
    as (r8 & E8 & Hok8 & Hex8); try lia.
  destruct (pcx_line_spec (pcx_pixel e ptr1 (Some a2) 0) width
              (pcx_pixel_range e ptr1 (Some a2) 0)
              (Z.to_nat (Z.max 1 width)) ((out ++ pcx_encode r16) ++ pcx_encode r8) p 0)
    as (r0 & E0 & Hok0 & Hex0); try lia.
  rewrite Z.sub_0_r in *.
  exists r16, r8, r0. split; [|auto 10].
  cbn [pcx_rows]. rewrite (proj2 (Z.ltb_lt y height) Hy).
  match goal with
  | |- context [@bool_decide ?P ?D] =>
      rewrite (@bool_decide_eq_true_2 P D) by discriminate
  end.
  change (to_ubyte (16 - 8)) with 8. change (to_ubyte (8 - 8)) with 0.
  cbn [andb negb Z.eqb Pos.eqb].
  rewrite E16. cbv beta iota.
  replace (p + width - width) with p by lia.
  rewrite E8. cbv beta iota.
  replace (p + width - width) with p by lia.
  rewrite E0. cbv beta iota.
  replace (p + width + (Screen_WIDTH - width)) with (p + Screen_WIDTH) by lia.
  rewrite <- !app_assoc. reflexivity.
Qed.

(** The loop over the scan lines, with interlace. *)
Lemma pcx_rows_interlaced e ptr1 a2 width height : 0 < width ->
  forall (n : nat) fuel out p y, 0 <= y -> height - y <= Z.of_nat n ->
  (3 * n < fuel)%nat ->
  exists rows : list (list (Z * Z)),
    pcx_rows fuel e ptr1 (Some a2) width height out p 16 y
    = Some (out ++ concat (pcx_encode <$> rows)) /\
    Forall (Forall pcx_run_ok) rows /\
    pcx_expand <$> rows
    = (j ← seqZ 0 (height - y); plane ← [16; 8; 0];
       [pcx_pixel e ptr1 (Some a2) plane <$> seqZ (p + Screen_WIDTH * j) width]).
Proof.
  intros Hw. induction n as [|n IH]; intros fuel out p y Hy Hn Hf.
  - destruct fuel as [|fuel]; [lia|]. cbn [pcx_rows].
    rewrite (proj2 (Z.ltb_ge y height)) by lia.
    exists []. split; [cbn; now rewrite app_nil_r|]. split; [constructor|].
    rewrite seqZ_nil by lia. reflexivity.
  - destruct (Z.lt_ge_cases y height) as [Hlt|Hge].
    + destruct fuel as [|[|[|fuel]]]; try lia.
      destruct (pcx_rows_three e ptr1 a2 width height Hw fuel out p y Hlt)
        as (r16 & r8 & r0 & -> & Hok16 & Hok8 & Hok0 & Hex16 & Hex8 & Hex0).
      destruct (IH fuel (out ++ pcx_encode r16 ++ pcx_encode r8 ++ pcx_encode r0)
                  (p + Screen_WIDTH) (y + 1)) as (rows & -> & Hoks & Hexs); try lia.
      exists (r16 :: r8 :: r0 :: rows). split; [|split].
      * cbn [fmap list_fmap concat]. rewrite <- !app_assoc. reflexivity.
      * repeat constructor; assumption.
      * cbn [fmap list_fmap]. rewrite Hex16, Hex8, Hex0, Hexs.
        rewrite (seqZ_cons 0 (height - y)) by lia.
        cbn [mbind list_bind app]. rewrite Z.mul_0_r, Z.add_0_r.
        do 3 f_equal.
        replace (Z.pred (height - y)) with (height - (y + 1)) by lia.
        rewrite <- (fmap_add_seqZ 1 0).
        rewrite list_fmap_bind. apply list_bind_ext; [|reflexivity].
        intros j. unfold compose. cbn [mbind list_bind app].
        replace (p + Screen_WIDTH + Screen_WIDTH * j)
          with (p + Screen_WIDTH * (1 + j)) by lia. reflexivity.
    + destruct fuel as [|fuel]; [lia|]. cbn [pcx_rows].
      rewrite (proj2 (Z.ltb_ge y height)) by lia.
      exists []. split; [cbn; now rewrite app_nil_r|]. split; [constructor|].
      rewrite seqZ_nil by lia. reflexivity.
Qed.
(** Property X19.  With a second screen, [PCX_SaveScreen] writes a header
    for three bit planes, then for every line of the window three scan
    lines - the red, green and blue planes of the average of the two
    screens' colours - each a sequence of runs of 1 to 63 equal bytes that
    never crosses the scan line, and no palette.  A version-5 decoder
    reads the three planes of every line back from it. *)
Theorem PCX_SaveScreen_interlaced e fp ptr1 ptr2 g :
  let g' := set_video_margins e g in
  0 < video_width g' ->
  exists rows : list (list (Z * Z)),
    let stream := concat (pcx_encode <$> rows) in
    PCX_SaveScreen e fp ptr1 (Some ptr2) g
    = Some (emit (PCX_header g' 3 ++ stream) fp, g') /\
    Forall (Forall pcx_run_ok) rows /\
    pcx_expand <$> rows = blended e ptr1 ptr2 g' /\
    pcx_decode (3 * Z.to_nat (video_height g')) (video_width g') stream
    = Some (blended e ptr1 ptr2 g', []).
Proof.
  intros g' Hw.
  destruct (pcx_rows_interlaced e ptr1 ptr2 (video_width g') (video_height g') Hw
              (Z.to_nat (Z.max 0 (video_height g')))
              (Z.to_nat (3 * Z.max 0 (video_height g') + 1)) []
              (Screen_WIDTH * video_top_margin g' + video_left_margin g') 0)
    as (rows & Hpix & Hok & Hex); try lia.
  rewrite Z.sub_0_r in Hex. cbn [app] in Hpix.
  change (PCX_pixels e ptr1 (Some ptr2) g' = Some (concat (pcx_encode <$> rows))) in Hpix.
  assert (Hbl : pcx_expand <$> rows = blended e ptr1 ptr2 g').
  { rewrite Hex. unfold blended. apply list_bind_ext; [|reflexivity].
    intros y. cbn [mbind list_bind app].
    replace (Screen_WIDTH * video_top_margin g' + video_left_margin g' + Screen_WIDTH * y)
      with (Screen_WIDTH * (video_top_margin g' + y) + video_left_margin g') by lia.
    reflexivity. }
  assert (Hlen : length rows = (3 * Z.to_nat (video_height g'))%nat).
  { rewrite <- (length_fmap pcx_expand), Hbl. unfold blended.
    rewrite (bind_length_const _ _ 3) by reflexivity.
    rewrite length_seqZ. lia. }
  assert (Hwidth : Forall (fun runs => Z.of_nat (length (pcx_expand runs)) = video_width g') rows).
  { assert (F : Forall (fun px : list Z => Z.of_nat (length px) = video_width g')
                  (pcx_expand <$> rows)).
    { rewrite Hbl. unfold blended. apply Forall_bind, Forall_forall. intros y _.
      unfold compose. cbn [mbind list_bind app].
      repeat constructor; rewrite length_fmap, length_seqZ; lia. }
    apply Forall_fmap in F. exact F. }
  exists rows. cbv zeta.
  split; [|split; [exact Hok|split; [exact Hbl|]]].
  - unfold PCX_SaveScreen. cbv zeta. fold g'. rewrite Hpix.
    rewrite bool_decide_eq_false_2 by discriminate.
    match goal with
    | |- context [@bool_decide ?P ?D] =>
        rewrite (@bool_decide_eq_true_2 P D) by discriminate
    end.
    rewrite ?fputc__emit, ?fputw_emit, ?emit_emit.
    unfold PCX_header. rewrite <- !app_assoc. reflexivity.
  - rewrite <- Hlen, <- Hbl, <- (app_nil_r (concat _)).
    now apply pcx_decode_encode.
Qed.

Lemma pcx_encode_length runs :
  Forall pcx_run_ok runs ->
  (length (pcx_encode runs) <= 2 * length (pcx_expand runs))%nat.
Proof.
  induction 1 as [|[n v] runs [Hn Hv] _ IH]; [cbn; lia|].
  rewrite pcx_encode_cons, pcx_expand_cons, !length_app, length_replicate.
  cbn [fst snd] in *. unfold pcx_group.
  destruct ((n =? 1) && (v <? 192)); cbn [length]; lia.
Qed.

(** Property X20.  Run-length encoding at most doubles the picture: the
    pixel data [PCX_SaveScreen] writes for a window of [video_width] by
    [video_height] pixels is at most twice as many bytes, and at least one
    byte for every 63 pixels of a line. *)
Theorem PCX_pixels_size e ptr1 g stream :
  0 < video_width g ->
  PCX_pixels e ptr1 None g = Some stream ->
  Z.of_nat (length stream) <= 2 * video_width g * Z.max 0 (video_height g) /\
  video_width g * Z.max 0 (video_height g) <= 63 * Z.of_nat (length stream).
Proof.
  intros Hw Hp.
  destruct (pcx_rows_spec e ptr1 (video_width g) (video_height g) Hw
              (Z.to_nat (3 * Z.max 0 (video_height g) + 1)) []
              (Screen_WIDTH * video_top_margin g + video_left_margin g) 16 0)
    as (rows & Hpix & Hok & Hex); try lia.
  rewrite Z.sub_0_r in Hex. cbn [app] in Hpix.
  change (PCX_pixels e ptr1 None g = Some (concat (pcx_encode <$> rows))) in Hpix.
  rewrite Hpix in Hp. injection Hp as <-.
  assert (Hlen : Z.of_nat (length rows) = Z.max 0 (video_height g)).
  { rewrite <- (length_fmap pcx_expand), Hex, length_fmap, length_seqZ. lia. }
  assert (Hwidth : Forall (fun runs => Z.of_nat (length (pcx_expand runs)) = video_width g) rows).
  { assert (F : Forall (fun px : list Z => Z.of_nat (length px) = video_width g)
                  (pcx_expand <$> rows)).
    { rewrite Hex. apply Forall_fmap, Forall_forall. intros j _. unfold compose.
      rewrite length_fmap, length_seqZ. lia. }
    apply Forall_fmap in F. exact F. }
  rewrite <- Hlen. clear Hpix Hex Hlen.
  induction rows as [|runs rows IH]; [cbn; lia|].
  apply Forall_cons in Hok as [Hok1 Hok], Hwidth as [Hw1 Hwidth].
  specialize (IH Hok Hwidth).
  cbn [fmap list_fmap concat length]. rewrite length_app.
  pose proof (pcx_encode_length runs Hok1) as Hup.
  assert (Hlow : Z.of_nat (length (pcx_expand runs)) <= 63 * Z.of_nat (length (pcx_encode runs))).
  { clear -Hok1. induction Hok1 as [|[n v] runs [Hn Hv] _ IH]; [cbn; lia|].
    rewrite pcx_encode_cons, pcx_expand_cons, !length_app, length_replicate.
    cbn [fst snd] in *. unfold pcx_group.
    destruct ((n =? 1) && (v <? 192)) eqn:E; cbn [length]; [|lia].
    apply andb_true_iff in E as [E _]. apply Z.eqb_eq in E. lia. }
  lia.
Qed.

End Proofs.

(** * Options and configuration *)

Section Configured.
Context `{Config}.


Lemma match_video_codec_from_spec id v :
  match match_video_codec_from v id with
  | Some c =>
      exists before after, v = before ++ c :: after /\
        Util_stricmp id (vc_codec_id c) = 0 /\
        Forall (fun c' => Util_stricmp id (vc_codec_id c') <> 0) before
  | None => Forall (fun c' => Util_stricmp id (vc_codec_id c') <> 0) v
  end.
Proof.
  induction v as [|c v IH]; cbn [match_video_codec_from]; [constructor|].
  destruct (Z.eqb_spec (Util_stricmp id (vc_codec_id c)) 0) as [E|E].
  - exists [], v. split; [reflexivity|]. split; [exact E|constructor].
  - destruct (match_video_codec_from v id) as [c'|].
    + destruct IH as (before & after & -> & E' & Hb).
      exists (c :: before), after. split; [reflexivity|]. split; [exact E'|].
      constructor; assumption.
    + constructor; assumption.
Qed.

(** Property X21.  [match_video_codec] returns the first codec of the
    table [known_video_codecs] whose name equals the argument but for
    case, and [NULL] when the table has none. *)
Theorem match_video_codec_first id :
  match match_video_codec id with
  | Some c =>
      exists before after, known_video_codecs = before ++ c :: after /\
        Util_stricmp id (vc_codec_id c) = 0 /\
        Forall (fun c' => Util_stricmp id (vc_codec_id c') <> 0) before
  | None =>
      Forall (fun c' => Util_stricmp id (vc_codec_id c') <> 0) known_video_codecs
  end.
Proof. apply match_video_codec_from_spec. Qed.

Lemma match_video_codec_known id c :
  match_video_codec id = Some c -> c ∈ known_video_codecs.
Proof.
  intros E. pose proof (match_video_codec_from_spec id known_video_codecs) as S.
  unfold match_video_codec in E. rewrite E in S.
  destruct S as (before & after & -> & _). apply elem_of_app. right. left.
Qed.

(** Property X22.  [File_Export_ReadConfig] keeps the settings valid
    whatever line it is given: it never leaves a keyframe interval below
    1, a compression level outside 0 to 9, or a requested codec that is
    not in the table.  When it returns [FALSE] the settings are as they
    were, except that a [VIDEO_CODEC] line with an unknown name has reset
    the request to the best available codec.  It touches no other
    variable of the recorder. *)
Theorem File_Export_ReadConfig_valid key value s r s' :
  File_Export_ReadConfig key value s = (r, s') ->
  (valid_settings s -> valid_settings s') /\
  same_recorder (vars s) (vars s') /\
  trace (vars s') = trace (vars s) /\
  (r = false ->
   s' = s \/
   (key = "VIDEO_CODEC" /\ match_video_codec value = None /\
    s' = set_requested_video_codec None s)).
Proof.
  unfold File_Export_ReadConfig.
  assert (Hsame : forall g : state, same_recorder g g) by reflexivity.
  destruct (streq key "VIDEO_CODEC") eqn:Ek.
  { apply String.eqb_eq in Ek. subst key.
    destruct (Util_stricmp value "auto" =? 0).
    - intros [= <- <-]. split; [|split; [|split]].
      + intros (Hk & Hl & Hc). split; [exact Hk|]. split; [exact Hl|].
        intros c. cbn. discriminate.
      + reflexivity.
      + reflexivity.
      + discriminate.
    - cbv zeta.
      change (requested_video_codec (vars (set_requested_video_codec
                (match_video_codec value) s))) with (match_video_codec value).
      destruct (match_video_codec value) as [c|] eqn:Em; intros [= <- <-].
      + split; [|split; [|split]].
        * intros (Hk & Hl & Hc). split; [exact Hk|]. split; [exact Hl|].
          intros c'. cbn. intros [= <-]. eapply match_video_codec_known, Em.
        * reflexivity.
        * reflexivity.
        * discriminate.
      + split; [|split; [|split]].
        * intros (Hk & Hl & Hc). split; [exact Hk|]. split; [exact Hl|].
          intros c'. cbn. discriminate.
        * reflexivity.
        * reflexivity.
        * intros _. right. auto. }
  destruct (streq key "VIDEO_CODEC_KEYFRAME_INTERVAL").
  { cbv zeta. destruct (Z.ltb_spec 0 (to_int (Util_sscandec value))); intros [= <- <-].
    - split; [|split; [|split]].
      + intros (Hk & Hl & Hc).
        split; [change (1 <= to_int (Util_sscandec value)); lia|].
        split; [exact Hl|exact Hc].
      + reflexivity.
      + reflexivity.
      + discriminate.
    - split; [auto|]. split; [apply Hsame|]. split; [reflexivity|auto]. }
  destruct (have_compression && streq key "COMPRESSION_LEVEL").
  { cbv zeta.
    destruct (Z.leb_spec 0 (to_int (Util_sscandec value)));
      destruct (Z.leb_spec (to_int (Util_sscandec value)) 9); cbn [andb];
      intros [= <- <-].
    - split; [|split; [|split]].
      + intros (Hk & Hl & Hc). split; [exact Hk|].
        split; [change (0 <= to_int (Util_sscandec value) <= 9); lia|exact Hc].
      + apply Hsame.
      + reflexivity.
      + discriminate.
    - split; [auto|]. split; [apply Hsame|]. split; [reflexivity|auto].
    - split; [auto|]. split; [apply Hsame|]. split; [reflexivity|auto].
    - split; [auto|]. split; [apply Hsame|]. split; [reflexivity|auto]. }
  intros [= <- <-]. split; [auto|]. split; [apply Hsame|]. split; [reflexivity|auto].
Qed.
Lemma arg_drop argv i :
  0 <= i < Z.of_nat (length argv) ->
  drop (Z.to_nat i) argv = arg argv i :: drop (Z.to_nat (i + 1)) argv.
Proof.
  intros Hi. replace (Z.to_nat (i + 1)) with (S (Z.to_nat i)) by lia.
  apply drop_S. destruct (lookup_lt_is_Some_2 argv (Z.to_nat i)) as [x Hx]; [lia|].
  rewrite Hx. f_equal. symmetry. unfold arg. now apply nth_lookup_Some.
Qed.

Lemma kept_option a v rest : is_option a = true -> kept (a :: v :: rest) = kept rest.
Proof. intros E. cbn [kept]. now rewrite E. Qed.

Lemma kept_other a rest : is_option a = false -> kept (a :: rest) = a :: kept rest.
Proof. intros E. cbn [kept]. now rewrite E. Qed.

Lemma valid_requested (s : settings) c :
  valid_settings s -> (forall c', c = Some c' -> c' ∈ known_video_codecs) ->
  valid_settings (set_requested_video_codec c s).
Proof. intros (Hk & Hl & _) Hc. split; [exact Hk|]. split; [exact Hl|exact Hc]. Qed.

Lemma valid_log msg (s : settings) : valid_settings s -> valid_settings (log_s msg s).
Proof. exact (fun H => H). Qed.

Lemma valid_help (s : settings) : valid_settings s -> valid_settings (help s).
Proof. unfold help. cbv zeta. destruct have_compression; exact (fun H => H). Qed.

Lemma same_recorder_help (s : settings) : same_recorder (vars s) (vars (help s)).
Proof. unfold help. cbv zeta. destruct have_compression; reflexivity. Qed.

(** The loop of [File_Export_Initialise]. *)
Lemma File_Export_Initialise_from_spec argc : forall fuel i j argv s r argc' argv' s',
  1 <= j <= i -> i <= argc -> argc = Z.of_nat (length argv) ->
  argc - i <= Z.of_nat fuel ->
  File_Export_Initialise_from fuel argc i j argv s = (r, argc', argv', s') ->
  length argv' = length argv /\
  same_recorder (vars s) (vars s') /\
  (r = false -> argc' = argc) /\
  (r = true ->
   j <= argc' <= argc /\
   take (Z.to_nat argc') argv'
   = take (Z.to_nat j) argv ++ kept (drop (Z.to_nat i) argv) /\
   (valid_settings s -> valid_settings s')).
Proof.
  induction fuel as [|fuel IH]; intros i j argv s r argc' argv' s' Hj Hi Hlen Hf.
  - cbn [File_Export_Initialise_from]. intros [= <- <- <- <-].
    assert (i = argc) as -> by lia.
    split; [reflexivity|]. split; [reflexivity|]. split; [discriminate|]. intros _.
    split; [lia|]. split; [|auto].
    rewrite drop_ge by lia. cbn [kept]. now rewrite app_nil_r.
  - cbn [File_Export_Initialise_from].
    destruct (Z.ltb_spec i argc) as [Hlt|Hge].
    2:{ intros [= <- <- <- <-]. assert (i = argc) as -> by lia.
        split; [reflexivity|]. split; [reflexivity|]. split; [discriminate|]. intros _.
        split; [lia|]. split; [|auto].
        rewrite drop_ge by lia. cbn [kept]. now rewrite app_nil_r. }
    cbv zeta.
    pose proof (arg_drop argv i ltac:(lia)) as Hd.
    assert (Hfail : forall msg s1,
              same_recorder (vars s) (vars s1) ->
              (false, argc, argv, log_s msg s1) = (r, argc', argv', s') ->
              length argv' = length argv /\
              same_recorder (vars s) (vars s') /\
              (r = false -> argc' = argc) /\
              (r = true ->
               j <= argc' <= argc /\
               take (Z.to_nat argc') argv'
               = take (Z.to_nat j) argv ++ kept (drop (Z.to_nat i) argv) /\
               (valid_settings s -> valid_settings s'))).
    { intros msg s1 Hs1 [= <- <- <- <-]. split; [reflexivity|].
      split; [exact Hs1|]. split; [reflexivity|discriminate]. }
    assert (Hnext : forall s1,
              is_option (arg argv i) = true -> i + 1 < argc ->
              same_recorder (vars s) (vars s1) ->
              (valid_settings s -> valid_settings s1) ->
              File_Export_Initialise_from fuel argc (i + 1 + 1) j argv s1
              = (r, argc', argv', s') ->
              length argv' = length argv /\
              same_recorder (vars s) (vars s') /\
              (r = false -> argc' = argc) /\
              (r = true ->
               j <= argc' <= argc /\
               take (Z.to_nat argc') argv'
               = take (Z.to_nat j) argv ++ kept (drop (Z.to_nat i) argv) /\
               (valid_settings s -> valid_settings s'))).
    { intros s1 Hopt Hia Hs1 Hv1 Hrec.
      destruct (IH (i + 1 + 1) j argv s1 r argc' argv' s'
                  ltac:(lia) ltac:(lia) Hlen ltac:(lia) Hrec)
        as (Hl & Hs & Hfa & Htr).
      split; [exact Hl|]. split; [exact (eq_trans Hs Hs1)|]. split; [exact Hfa|].
      intros Hr. destruct (Htr Hr) as (Hb & Ht & Hv).
      split; [exact Hb|]. split; [|auto].
      rewrite Ht, Hd. rewrite (arg_drop argv (i + 1)) by lia.
      now rewrite kept_option. }
    destruct (streq (arg argv i) "-videocodec") eqn:E1.
    { assert (Hopt : is_option (arg argv i) = true) by (unfold is_option; now rewrite E1).
      destruct (Z.ltb_spec (i + 1) argc) as [Hia|Hia]; [|apply Hfail; reflexivity].
      destruct (streq (arg argv (i + 1)) "auto").
      - apply Hnext; auto; [reflexivity|].
        intros Hv. apply valid_requested; [exact Hv|discriminate].
      - change (requested_video_codec (vars (set_requested_video_codec
                  (match_video_codec (arg argv (i + 1))) s)))
          with (match_video_codec (arg argv (i + 1))).
        destruct (match_video_codec (arg argv (i + 1))) as [c|] eqn:Em.
        + apply Hnext; auto; [reflexivity|].
          intros Hv. apply valid_requested; [exact Hv|].
          intros c' [= <-]. eapply match_video_codec_known, Em.
        + apply Hfail. reflexivity. }
    destruct (streq (arg argv i) "-keyframe-interval") eqn:E2.
    { assert (Hopt : is_option (arg argv i) = true)
        by (unfold is_option; rewrite E2; now rewrite orb_true_r).
      destruct (Z.ltb_spec (i + 1) argc) as [Hia|Hia]; [|apply Hfail; reflexivity].
      change (keyframe_interval (vars (set_keyframe_interval
                (to_int (Util_sscandec (arg argv (i + 1)))) s)))
        with (to_int (Util_sscandec (arg argv (i + 1)))).
      destruct (Z.ltb_spec (to_int (Util_sscandec (arg argv (i + 1)))) 1) as [Hk|Hk];
        [apply Hfail; reflexivity|].
      apply Hnext; auto; [reflexivity|].
      intros (_ & Hl & Hc). split; [exact Hk|]. split; [exact Hl|exact Hc]. }
    destruct (have_compression && streq (arg argv i) "-compression-level") eqn:E3.
    { assert (Hopt : is_option (arg argv i) = true)
        by (unfold is_option; rewrite E3; now rewrite orb_true_r).
      destruct (Z.ltb_spec (i + 1) argc) as [Hia|Hia]; [|apply Hfail; reflexivity].
      change (FILE_EXPORT_compression_level (set_compression_level
                (to_int (Util_sscandec (arg argv (i + 1)))) s))
        with (to_int (Util_sscandec (arg argv (i + 1)))).
      destruct (Z.ltb_spec (to_int (Util_sscandec (arg argv (i + 1)))) 0) as [Hc0|Hc0];
        [apply Hfail; reflexivity|].
      destruct (Z.ltb_spec 9 (to_int (Util_sscandec (arg argv (i + 1))))) as [Hc9|Hc9];
        [apply Hfail; reflexivity|]. cbn [orb].
      apply Hnext; auto; [reflexivity|].
      intros (Hk & _ & Hc). split; [exact Hk|]. split; [|exact Hc].
      change (0 <= to_int (Util_sscandec (arg argv (i + 1))) <= 9). lia. }
    assert (Hopt : is_option (arg argv i) = false)
      by (unfold is_option; now rewrite E1, E2, E3).
    set (s1 := if streq (arg argv i) "-help" then help s else s).
    assert (Hs1 : same_recorder (vars s) (vars s1))
      by (subst s1; destruct (streq _ "-help"); [apply same_recorder_help|reflexivity]).
    assert (Hv1 : valid_settings s -> valid_settings s1)
      by (subst s1; destruct (streq _ "-help"); [apply valid_help|auto]).
    clearbody s1. intros Hrec.
    destruct (IH (i + 1) (j + 1) (<[Z.to_nat j := arg argv i]> argv) s1 r argc' argv' s'
                ltac:(lia) ltac:(lia) ltac:(rewrite length_insert; exact Hlen)
                ltac:(lia) Hrec) as (Hl & Hs & Hfa & Htr).
    rewrite length_insert in Hl.
    split; [exact Hl|]. split; [exact (eq_trans Hs Hs1)|]. split; [exact Hfa|].
    intros Hr. destruct (Htr Hr) as (Hb & Ht & Hv).
    split; [lia|]. split; [|auto].
    rewrite Ht, Hd, (kept_other _ _ Hopt).
    rewrite drop_insert_lt by lia.
    replace (Z.to_nat (j + 1)) with (S (Z.to_nat j)) by lia.
    rewrite (take_S_r _ _ (arg argv i)).
    + rewrite take_insert_ge by lia. now rewrite <- app_assoc.
    + apply list_lookup_insert_eq. lia.
Qed.

(** Property X23.  When [File_Export_Initialise] returns [TRUE], the first
    [*argc] entries of [argv] are the program name followed by the
    arguments that are not options of this file, in their order: each
    [-videocodec], [-keyframe-interval] and (when compiled in)
    [-compression-level] is removed together with its value, everything
    else, [-help] too, is left for the caller.  The array keeps its
    length and [*argc] does not grow. *)
Theorem File_Export_Initialise_keeps argc argv s argc' argv' s' :
  argc = Z.of_nat (length argv) -> 1 <= argc ->
  File_Export_Initialise argc argv s = (true, argc', argv', s') ->
  1 <= argc' <= argc /\ length argv' = length argv /\
  take (Z.to_nat argc') argv' = take 1 argv ++ kept (drop 1 argv).
Proof.
  intros Hlen Hargc Hi. unfold File_Export_Initialise in Hi.
  destruct (File_Export_Initialise_from_spec argc (Z.to_nat argc) 1 1 argv s
              true argc' argv' s' ltac:(lia) ltac:(lia) Hlen ltac:(lia) Hi)
    as (Hl & _ & _ & Htr).
  destruct (Htr eq_refl) as (Hb & Ht & _).
  split; [exact Hb|]. split; [exact Hl|exact Ht].
Qed.

(** Property X24.  [File_Export_Initialise] touches no variable of the
    recorder but the requested codec, the keyframe interval and the log.
    When it returns [TRUE] the settings are valid if they were: the
    keyframe interval is at least 1, the compression level is between 0
    and 9, and the requested codec is one of the table.  When it returns
    [FALSE], [*argc] is as it was. *)
Theorem File_Export_Initialise_valid argc argv s r argc' argv' s' :
  argc = Z.of_nat (length argv) -> 1 <= argc ->
  File_Export_Initialise argc argv s = (r, argc', argv', s') ->
  same_recorder (vars s) (vars s') /\
  (r = true -> valid_settings s -> valid_settings s') /\
  (r = false -> argc' = argc).
Proof.
  intros Hlen Hargc Hi. unfold File_Export_Initialise in Hi.
  destruct (File_Export_Initialise_from_spec argc (Z.to_nat argc) 1 1 argv s
              r argc' argv' s' ltac:(lia) ltac:(lia) Hlen ltac:(lia) Hi)
    as (_ & Hs & Hf & Htr).
  split; [exact Hs|]. split; [|exact Hf].
  intros Hr. apply (Htr Hr).
Qed.

End Configured.

(** * The theorems on concrete inputs *)

Lemma frame_index_entry_roundtrip_witness :
  (0 <= 1000 <= 262143) /\ (0 <= 1764 <= 8191) /\
  let entry := frame_index_entry 1000 1764 true in
  index_video_size entry = 1000 /\
  index_audio_size entry = 1764 /\
  index_is_keyframe entry = 0x10 /\
  (forall i, 0 <= i < 18 -> Z.testbit entry i = Z.testbit 1000 i) /\
  (forall i, 18 <= i < 31 -> Z.testbit entry i = Z.testbit 1764 (i - 18)) /\
  Z.testbit entry 31 = true /\
  (forall i, 31 < i -> Z.testbit entry i = false).
Proof.
  split; [lia|]. split; [lia|].
  apply (frame_index_entry_roundtrip 1000 1764 true); lia.
Defined.

(** A mono 8-bit recording of three samples: an odd number of bytes. *)
Lemma WAV_CloseFile_header_witness :
  let e := (Example.machine true 1000 4 2 []) <| POKEYSND_snd_flags := 0 |> in
  exists fp0 g1 fp g fp',
    WAV_OpenFile e "sound.wav" (Example.start None) = (Some fp0, g1) /\
    wav_session [([10; 20; 30], 3)] (Some fp0) g1 = ([3], fp, g) /\
    WAV_CloseFile fp g = (true, fp') /\
    (exists f, fp = Some f /\ Z.of_nat (length (f_data f)) = 44 + 3) /\
    (exists f', fp' = Some f' /\ f_open f' = false /\
       read32 (f_data f') 4 = 3 + 36 + 1 /\
       read32 (f_data f') 40 = 3 /\
       Z.of_nat (length (f_data f')) = 44 + 3 + 1).
Proof.
  intros e. do 5 eexists.
  split; [vm_compute; reflexivity|].
  split; [vm_compute; reflexivity|].
  split; [vm_compute; reflexivity|].
  eapply (WAV_CloseFile_header e "sound.wav" (Example.start None) _ _
            [([10; 20; 30], 3)] [3]);
    [vm_compute; reflexivity | vm_compute; reflexivity | reflexivity
    | vm_compute; reflexivity | vm_compute; reflexivity].
Defined.

(** The window of [Example.small_screen] saved as a PCX file. *)
Lemma PCX_SaveScreen_roundtrip_witness :
  let e := Example.machine false 0 6 2 [] in
  let g := Example.start None in
  let g' := set_video_margins e g in
  0 < video_width g' /\
  exists rows : list (list (Z * Z)),
    let stream := concat (pcx_encode <$> rows) in
    PCX_pixels e Example.small_screen None g' = Some stream /\
    PCX_SaveScreen e (Example.new_file 2000) Example.small_screen None g
    = Some (emit (PCX_header g' 1 ++ stream ++ 0xc :: PCX_palette e)
              (Example.new_file 2000), g') /\
    length (PCX_header g' 1) = 128%nat /\
    Forall (Forall pcx_run_ok) rows /\
    pcx_expand <$> rows = cropped Example.small_screen g' /\
    pcx_decode (Z.to_nat (video_height g')) (video_width g') stream
    = Some (cropped Example.small_screen g', []).
Proof.
  intros e g g'. split; [reflexivity|].
  apply (PCX_SaveScreen_roundtrip e (Example.new_file 2000) Example.small_screen g).
  reflexivity.
Defined.

(** * The properties of recordings on concrete inputs *)


(** A codec that refuses to initialise. *)
Lemma AVI_OpenFile_failure_witness :
  let e := Demo.sound in
  let g0 := Example.start (Some Demo.refusing) in
  let g := Demo.refused in
  AVI_OpenFile e "video.avi" g0 = (None, g) /\
  ((fopen_wb (filesystem e) "video.avi" = None /\ g = g0) \/
   (trace g = trace g0 ++ [Codec_init; Log_print "Failed to initialize video codec"]
    /\ frame_indexes g = Some (replicate 1000 0) /\ video_buffer_size g < 0) \/
   (trace g = trace g0 ++ [Codec_init; Codec_end]
    /\ frame_indexes g = Some (replicate 1000 0)
    /\ video_buffer g = Some (replicate (Z.to_nat (video_buffer_size g)) 0))).
Proof.
  intros e g0 g.
  assert (Ho : AVI_OpenFile e "video.avi" g0 = (None, g))
    by exact (@eq_refl _ (@None FILE, g)
              <: AVI_OpenFile e "video.avi" g0 = (None, g)).
  split; [exact Ho|].
  exact (AVI_OpenFile_failure e "video.avi" g0 g Ho).
Defined.

(** A frame, then an audio call without samples, then the next frame. *)
Lemma AVI_AddVideoFrame_out_of_phase_witness :
  let fp := Demo.no_samples.1 in
  let g := Demo.no_samples.2 in
  num_streams g <> 1 /\ 0 <= current_screen_size g /\
  current_audio_samples g <= 0 /\
  AVI_AddVideoFrame Demo.sound fp g
  = (false, fp,
     log "AVI write error: attempted to write video frame without audio data" g).
Proof.
  intros fp g.
  assert (H1 : num_streams g <> 1) by (vm_compute; discriminate).
  assert (H2 : 0 <= current_screen_size g) by (vm_compute; discriminate).
  assert (H3 : current_audio_samples g <= 0) by (vm_compute; discriminate).
  split; [exact H1|]. split; [exact H2|]. split; [exact H3|].
  exact (AVI_AddVideoFrame_out_of_phase Demo.sound fp g H1 H2 H3).
Defined.

(** After an audio call with too many samples. *)
Lemma session_poisoned_witness :
  let fp := Demo.overrun.1 in
  let g := Demo.overrun.2 in
  let calls := [Video Demo.sound; Audio [1; 2] 1; Video Demo.sound] in
  poisoned g /\
  exists msgs,
    session calls fp g
    = (replicate (length calls) false, fp,
       g <| trace := trace g ++ (Log_print <$> msgs) |>).
Proof.
  intros fp g calls.
  assert (Hp : poisoned g) by (right; split; [vm_compute; reflexivity|vm_compute; discriminate]).
  split; [exact Hp|].
  exact (session_poisoned calls fp g Hp).
Defined.

(** Five thousand samples for a buffer of 4561 bytes. *)
Lemma AVI_AddAudioSamples_too_large_witness :
  let fp := Demo.opened.1 in
  let g := Demo.opened.2 in
  let r := Demo.audio_too_large.1.1 in
  let fp' := Demo.audio_too_large.1.2 in
  let g' := Demo.audio_too_large.2 in
  audio_buffer_size g < to_int (5000 * sample_size g) /\
  AVI_AddAudioSamples [] 5000 fp g = (r, fp', g') /\
  r = false /\ audio_buffer g' = audio_buffer g /\
  ((current_audio_samples g' = -2 /\ (num_streams g <> 1 -> poisoned g')) \/
   (0 <= current_audio_samples g /\ current_screen_size g < 0 /\ fp' = fp /\
    g' = log "AVI write error: attempted to write audio data without video frame" g) \/
   (current_audio_samples g < 0 /\
    (current_screen_size g < -1 \/ current_audio_samples g < -1) /\
    fp' = fp /\ g' = g) \/
   (0 <= current_audio_samples g /\ 0 <= current_screen_size g /\
    AVI_WriteFrame fp g = (false, fp', g'))).
Proof.
  intros fp g r fp' g'.
  assert (H1 : audio_buffer_size g < to_int (5000 * sample_size g))
    by (vm_compute; reflexivity).
  assert (H2 : AVI_AddAudioSamples [] 5000 fp g = (r, fp', g'))
    by exact (@eq_refl _ (r, fp', g') <: AVI_AddAudioSamples [] 5000 fp g = (r, fp', g')).
  split; [exact H1|]. split; [exact H2|].
  exact (AVI_AddAudioSamples_too_large [] 5000 fp g r fp' g' H1 H2).
Defined.

(** Four 16-bit samples after a frame was encoded. *)
Lemma AVI_AddAudioSamples_chunk_witness :
  let buf := [1; 2; 3; 4; 5; 6; 7; 8] in
  let fp := Demo.encoded.1 in
  let g := Demo.encoded.2 in
  let fp' := Demo.audio_added.1.2 in
  let g' := Demo.audio_added.2 in
  let l := replicate 4561 0 in
  num_streams g = 2 /\ audio_buffer g = Some l /\
  0 <= 4 /\ 0 < sample_size g /\ 4 * sample_size g < 2 ^ 31 /\
  AVI_AddAudioSamples buf 4 fp g = (true, fp', g') /\
  4 * sample_size g <= audio_buffer_size g /\
  current_audio_samples g' = 4 /\
  frame_bytes g'
  = chunk_bytes "00dc" (current_screen_size g')
      (fwrite_bytes (contents (video_buffer g')) 1 (current_screen_size g'))
    ++ chunk_bytes "01wb" (4 * sample_size g) (read_buf buf (4 * sample_size g)).
Proof.
  intros buf fp g fp' g' l.
  assert (H1 : num_streams g = 2) by (vm_compute; reflexivity).
  assert (H2 : audio_buffer g = Some l) by (vm_compute; reflexivity).
  assert (H3 : 0 <= 4) by lia.
  assert (H4 : 0 < sample_size g) by (vm_compute; reflexivity).
  assert (H5 : 4 * sample_size g < 2 ^ 31) by (vm_compute; reflexivity).
  assert (H6 : AVI_AddAudioSamples buf 4 fp g = (true, fp', g'))
    by exact (@eq_refl _ (true, fp', g') <: AVI_AddAudioSamples buf 4 fp g = (true, fp', g')).
  split; [exact H1|]. split; [exact H2|]. split; [exact H3|].
  split; [exact H4|]. split; [exact H5|]. split; [exact H6|].
  exact (AVI_AddAudioSamples_chunk buf 4 fp g fp' g' l H1 H2 H3 H4 H5 H6).
Defined.

(** A whole frame pending, and the next frame encoded. *)
Lemma AVI_AddVideoFrame_encodes_witness :
  let e := Demo.sound in
  let fp := Demo.pending.1 in
  let g := Demo.pending.2 in
  let fp' := Demo.video_added.1.2 in
  let g' := Demo.video_added.2 in
  AVI_AddVideoFrame e fp g = (true, fp', g') /\
  (if 0 <=? current_screen_size g
   then fp' = emit (frame_bytes g) fp /\
        frames_written g' = to_ulong (frames_written g + 1)
   else fp' = fp /\ frames_written g' = frames_written g) /\
  trace g' = trace g ++ [Codec_frame (current_is_keyframe g')] /\
  exists size buf m,
    vc_frame (codec g) (Screen_atari e) (current_is_keyframe g')
      (contents (video_buffer g)) (video_buffer_size g) (codec_memory g)
    = (size, buf, m) /\
    current_screen_size g' = to_int size /\ 0 <= to_int size /\
    video_buffer g' = Some buf /\ codec_memory g' = m.
Proof.
  intros e fp g fp' g'.
  assert (H1 : AVI_AddVideoFrame e fp g = (true, fp', g'))
    by exact (@eq_refl _ (true, fp', g') <: AVI_AddVideoFrame e fp g = (true, fp', g')).
  split; [exact H1|].
  exact (AVI_AddVideoFrame_encodes e fp g fp' g' H1).
Defined.

(** The pending frame of [Demo.pending]: 3 bytes of video and 8 bytes of
    audio. *)
Lemma AVI_WriteFrame_appends_witness :
  let fp := Demo.pending.1 in
  let g := Demo.pending.2 in
  let r := Demo.frame_written.1.1 in
  let fp' := Demo.frame_written.1.2 in
  let g' := Demo.frame_written.2 in
  at_end fp /\ f_seekable fp = true /\
  0 <= current_screen_size g < 2 ^ 29 /\
  (num_streams g = 2 ->
   0 <= current_audio_samples g /\ 0 <= sample_size g /\
   current_audio_samples g * sample_size g < 2 ^ 29) /\
  f_pos fp + expected_frame_size g <= f_limit fp /\
  AVI_WriteFrame fp g = (r, fp', g') /\
  f_data fp' = f_data fp ++ (to_ubyte <$> frame_bytes g) /\
  at_end fp' /\
  Z.of_nat (length (frame_bytes g)) = expected_frame_size g /\
  Z.even (expected_frame_size g) = true /\
  byteswritten g' = to_ulong (byteswritten g + (expected_frame_size g + 32)) /\
  frames_written g' = to_ulong (frames_written g + 1) /\
  current_screen_size g' = -1 /\ current_audio_samples g' = -1 /\
  r = negb (MAX_RECORDING_SIZE <? byteswritten g').
Proof.
  intros fp g r fp' g'.
  assert (H1 : at_end fp) by (split; vm_compute; reflexivity).
  assert (H2 : f_seekable fp = true) by reflexivity.
  assert (H3 : 0 <= current_screen_size g < 2 ^ 29)
    by (split; vm_compute; [discriminate|reflexivity]).
  assert (H4 : num_streams g = 2 ->
               0 <= current_audio_samples g /\ 0 <= sample_size g /\
               current_audio_samples g * sample_size g < 2 ^ 29)
    by (intros _; repeat split; vm_compute; (discriminate || reflexivity)).
  assert (H5 : f_pos fp + expected_frame_size g <= f_limit fp)
    by (vm_compute; discriminate).
  assert (H6 : AVI_WriteFrame fp g = (r, fp', g'))
    by exact (@eq_refl _ (r, fp', g') <: AVI_WriteFrame fp g = (r, fp', g')).
  split; [exact H1|]. split; [exact H2|]. split; [exact H3|].
  split; [exact H4|]. split; [exact H5|]. split; [exact H6|].
  exact (AVI_WriteFrame_appends fp g r fp' g' H1 H2 H3 H4 H5 H6).
Defined.

(** The five calls of [Demo.five_calls]: two frames written. *)
Lemma session_index_in_bounds_witness :
  let e := Demo.sound in
  let fp0 := Demo.opened.1 in
  let g1 := Demo.opened.2 in
  let rs := Demo.ran.1.1 in
  let fp := Demo.ran.1.2 in
  let g := Demo.ran.2 in
  AVI_OpenFile e "video.avi" (Example.start None) = (Some fp0, g1) /\
  session Demo.five_calls fp0 g1 = (rs, fp, g) /\
  Z.of_nat (length Demo.five_calls) + 2000 < 2 ^ 31 /\
  0 <= frames_written g <= Z.of_nat (length Demo.five_calls) /\
  frames_written g < num_frames_allocated g /\
  exists l, frame_indexes g = Some l /\
            Z.of_nat (length l) = num_frames_allocated g.
Proof.
  intros e fp0 g1 rs fp g.
  assert (H1 : AVI_OpenFile e "video.avi" (Example.start None) = (Some fp0, g1))
    by exact (@eq_refl _ (Some fp0, g1)
              <: AVI_OpenFile e "video.avi" (Example.start None) = (Some fp0, g1)).
  assert (H2 : session Demo.five_calls fp0 g1 = (rs, fp, g))
    by exact (@eq_refl _ (rs, fp, g) <: session Demo.five_calls fp0 g1 = (rs, fp, g)).
  assert (H3 : Z.of_nat (length Demo.five_calls) + 2000 < 2 ^ 31)
    by (vm_compute; reflexivity).
  split; [exact H1|]. split; [exact H2|]. split; [exact H3|].
  exact (session_index_in_bounds e "video.avi" (Example.start None) fp0 g1
           Demo.five_calls rs fp g H1 H2 H3).
Defined.

(** The same calls with the codec [Demo.intra]. *)
Lemma session_all_keyframes_witness :
  let e := Demo.sound in
  let g0 := Example.start (Some Demo.intra) in
  let fp0 := Demo.opened_intra.1 in
  let g1 := Demo.opened_intra.2 in
  let rs := Demo.ran_intra.1.1 in
  let fp := Demo.ran_intra.1.2 in
  let g := Demo.ran_intra.2 in
  AVI_OpenFile e "video.avi" g0 = (Some fp0, g1) /\
  vc_uses_interframes (codec g1) = false /\
  session Demo.five_calls fp0 g1 = (rs, fp, g) /\
  Z.of_nat (length Demo.five_calls) + 2000 < 2 ^ 31 /\
  current_is_keyframe g = true /\
  forall i, 0 <= i < frames_written g ->
    index_is_keyframe (array_get (frame_indexes g) i) = 0x10.
Proof.
  intros e g0 fp0 g1 rs fp g.
  assert (H1 : AVI_OpenFile e "video.avi" g0 = (Some fp0, g1))
    by exact (@eq_refl _ (Some fp0, g1)
              <: AVI_OpenFile e "video.avi" g0 = (Some fp0, g1)).
  assert (H2 : vc_uses_interframes (codec g1) = false) by reflexivity.
  assert (H3 : session Demo.five_calls fp0 g1 = (rs, fp, g))
    by exact (@eq_refl _ (rs, fp, g) <: session Demo.five_calls fp0 g1 = (rs, fp, g)).
  assert (H4 : Z.of_nat (length Demo.five_calls) + 2000 < 2 ^ 31)
    by (vm_compute; reflexivity).
  split; [exact H1|]. split; [exact H2|]. split; [exact H3|]. split; [exact H4|].
  exact (session_all_keyframes e "video.avi" g0 fp0 g1 Demo.five_calls rs fp g
           H1 H2 H3 H4).
Defined.

(** The five calls with the default codec, which has inter-frames. *)
Lemma session_first_keyframe_witness :
  let e := Demo.sound in
  let fp0 := Demo.opened.1 in
  let g1 := Demo.opened.2 in
  let rs := Demo.ran.1.1 in
  let fp := Demo.ran.1.2 in
  let g := Demo.ran.2 in
  AVI_OpenFile e "video.avi" (Example.start None) = (Some fp0, g1) /\
  session Demo.five_calls fp0 g1 = (rs, fp, g) /\
  Z.of_nat (length Demo.five_calls) + 2000 < 2 ^ 31 /\
  if frames_written g =? 0 then current_is_keyframe g = true
  else index_is_keyframe (array_get (frame_indexes g) 0) = 0x10.
Proof.
  intros e fp0 g1 rs fp g.
  assert (H1 : AVI_OpenFile e "video.avi" (Example.start None) = (Some fp0, g1))
    by exact (@eq_refl _ (Some fp0, g1)
              <: AVI_OpenFile e "video.avi" (Example.start None) = (Some fp0, g1)).
  assert (H2 : session Demo.five_calls fp0 g1 = (rs, fp, g))
    by exact (@eq_refl _ (rs, fp, g) <: session Demo.five_calls fp0 g1 = (rs, fp, g)).
  assert (H3 : Z.of_nat (length Demo.five_calls) + 2000 < 2 ^ 31)
    by (vm_compute; reflexivity).
  split; [exact H1|]. split; [exact H2|]. split; [exact H3|].
  exact (session_first_keyframe e "video.avi" (Example.start None) fp0 g1
           Demo.five_calls rs fp g H1 H2 H3).
Defined.

Lemma session_within_limit_witness :
  let e := Demo.sound in
  let fp0 := Demo.opened.1 in
  let g1 := Demo.opened.2 in
  let rs := Demo.ran.1.1 in
  let fp := Demo.ran.1.2 in
  let g := Demo.ran.2 in
  AVI_OpenFile e "video.avi" (Example.start None) = (Some fp0, g1) /\
  session Demo.five_calls fp0 g1 = (rs, fp, g) /\
  Forall (fun r => r = true) rs /\
  byteswritten g <= MAX_RECORDING_SIZE.
Proof.
  intros e fp0 g1 rs fp g.
  assert (H1 : AVI_OpenFile e "video.avi" (Example.start None) = (Some fp0, g1))
    by exact (@eq_refl _ (Some fp0, g1)
              <: AVI_OpenFile e "video.avi" (Example.start None) = (Some fp0, g1)).
  assert (H2 : session Demo.five_calls fp0 g1 = (rs, fp, g))
    by exact (@eq_refl _ (rs, fp, g) <: session Demo.five_calls fp0 g1 = (rs, fp, g)).
  assert (H3 : Forall (fun r => r = true) rs)
    by (repeat constructor).
  split; [exact H1|]. split; [exact H2|]. split; [exact H3|].
  exact (session_within_limit e "video.avi" (Example.start None) fp0 g1
           Demo.five_calls rs fp g H1 H2 H3).
Defined.

(** The index of the two frames of [Demo.two_frames]. *)
Lemma AVI_WriteIndex_bytes_witness :
  let fp := Demo.two_frames.1 in
  let g := Demo.two_frames.2 in
  0 <= 32 * frames_written g < 2 ^ 31 /\
  frame_offset g (frames_written g) < 2 ^ 31 /\
  AVI_WriteIndex fp g
  = if frames_written g =? 0 then (false, fp)
    else
      let fp' := emit (idx1_bytes g) fp in
      (to_int (ftell fp' - to_int (ftell fp)) =? 8 + 32 * frames_written g, fp').
Proof.
  intros fp g.
  assert (H1 : 0 <= 32 * frames_written g < 2 ^ 31)
    by (split; vm_compute; [discriminate|reflexivity]).
  assert (H2 : frame_offset g (frames_written g) < 2 ^ 31)
    by (vm_compute; reflexivity).
  split; [exact H1|]. split; [exact H2|].
  exact (AVI_WriteIndex_bytes fp g H1 H2).
Defined.

(** Closing a recording that has just been opened. *)
Lemma AVI_CloseFile_no_frames_witness :
  let e := Demo.sound in
  let fp := Demo.opened.1 in
  let g := Demo.opened.2 in
  frames_written g = 0 /\
  (current_screen_size g < 0 \/ current_audio_samples g < 0) /\
  exists g',
    AVI_CloseFile e fp g = (false, fclose fp, g') /\
    trace g' = trace g ++ [Codec_end] /\
    video_buffer g' = None /\ frame_indexes g' = None /\
    audio_buffer g' = (if 0 <? audio_buffer_size g then None else audio_buffer g) /\
    video_buffer_size g' = 0 /\ audio_buffer_size g' = 0 /\
    num_frames_allocated g' = 0 /\
    current_screen_size g' = -1 /\ current_audio_samples g' = -1 /\
    size_riff g' = size_riff g.
Proof.
  intros e fp g.
  assert (H1 : frames_written g = 0) by reflexivity.
  assert (H2 : current_screen_size g < 0 \/ current_audio_samples g < 0)
    by (left; reflexivity).
  split; [exact H1|]. split; [exact H2|].
  exact (AVI_CloseFile_no_frames e fp g H1 H2).
Defined.

(** Closing the recording of [Demo.pending]. *)
Lemma AVI_CloseFile_releases_witness :
  let e := Demo.sound in
  let fp := Demo.pending.1 in
  let g := Demo.pending.2 in
  let r := Demo.closed.1.1 in
  let fp' := Demo.closed.1.2 in
  let g' := Demo.closed.2 in
  AVI_CloseFile e fp g = (r, fp', g') /\
  f_open fp' = false /\
  (exists msgs, (length msgs <= 1)%nat /\
     trace g' = trace g ++ (Log_print <$> msgs) ++ [Codec_end]) /\
  video_buffer g' = None /\ video_buffer_size g' = 0 /\
  frame_indexes g' = None /\ num_frames_allocated g' = 0 /\
  audio_buffer g' = (if 0 <? audio_buffer_size g then None else audio_buffer g) /\
  audio_buffer_size g' = 0 /\
  current_screen_size g' = -1 /\ current_audio_samples g' = -1.
Proof.
  intros e fp g r fp' g'.
  assert (H1 : AVI_CloseFile e fp g = (r, fp', g'))
    by exact (@eq_refl _ (r, fp', g') <: AVI_CloseFile e fp g = (r, fp', g')).
  split; [exact H1|].
  exact (AVI_CloseFile_releases e fp g r fp' g' H1).
Defined.

(** * The properties of sound files, screenshots and options on concrete inputs *)

(** A 16-bit recording from two POKEYs at 44100 Hz. *)
Lemma WAV_OpenFile_header_witness :
  let e := Stills.stereo 1000 in
  exists fp g,
    WAV_OpenFile e "sound.wav" (Example.start None) = (Some fp, g) /\
    sample_size g = 2 /\
    slice (f_data fp) 28 4 = le32 (44100 * 2) /\
    slice (f_data fp) 32 2 = le16 4 /\
    ftell fp = 44 /\ byteswritten g = 0 /\ frames_written g = 0.
Proof.
  intros e.
  destruct Stills.wav_opened as [fp g] eqn:Hd.
  destruct fp as [fp|]; [|vm_compute in Hd; discriminate Hd].
  assert (Ho : WAV_OpenFile e "sound.wav" (Example.start None) = (Some fp, g))
    by (rewrite <- Hd; vm_compute; reflexivity).
  exists fp, g. split; [exact Ho|].
  destruct (WAV_OpenFile_header e "sound.wav" (Example.start None) fp g Ho)
    as (A & _ & _ & _ & B & C & _ & D & E & F).
  assert (Hs : sample_size g = 2) by exact A.
  rewrite Hs in B, C.
  split; [exact Hs|]. split; [exact B|]. split; [exact C|].
  split; [exact D|]. split; [exact E|exact F].
Defined.

(** A word and a double word at the start of a new file. *)
Lemma fputl_fputw_little_endian_witness :
  let fp := Example.new_file 100 in
  at_end fp /\ f_pos fp + 4 <= f_limit fp /\ f_pos fp + 2 <= f_limit fp /\
  (f_data (fputl 0x12345678 fp) = [0x78; 0x56; 0x34; 0x12] /\
   read32 (f_data (fputl 0x12345678 fp)) 0 = 0x12345678) /\
  (f_data (fputw 0x12345678 fp) = [0x78; 0x56] /\
   read16 (f_data (fputw 0x12345678 fp)) 0 = 0x5678).
Proof.
  intros fp.
  assert (H1 : at_end fp) by (split; reflexivity).
  assert (H2 : f_pos fp + 4 <= f_limit fp) by discriminate.
  assert (H3 : f_pos fp + 2 <= f_limit fp) by discriminate.
  split; [exact H1|]. split; [exact H2|]. split; [exact H3|].
  destruct (fputl_fputw_little_endian 0x12345678 fp H1) as [L W].
  destruct (L H2) as (A & _ & B & _).
  destruct (W H3) as (C & _ & D & _).
  split; [split; [exact A|exact B]|split; [exact C|exact D]].
Defined.

(** Two screens of 6 by 2 pixels, one shifted against the other. *)
Lemma PCX_SaveScreen_interlaced_witness :
  let e := Stills.stereo 0 in
  let g := Example.start None in
  let g' := set_video_margins e g in
  let fp := Example.new_file 2000 in
  0 < video_width g' /\
  exists rows : list (list (Z * Z)),
    let stream := concat (pcx_encode <$> rows) in
    PCX_SaveScreen e fp Example.small_screen (Some Stills.second_screen) g
    = Some (emit (PCX_header g' 3 ++ stream) fp, g') /\
    Forall (Forall pcx_run_ok) rows /\
    pcx_expand <$> rows
    = blended e Example.small_screen Stills.second_screen g' /\
    pcx_decode (3 * Z.to_nat (video_height g')) (video_width g') stream
    = Some (blended e Example.small_screen Stills.second_screen g', []).
Proof.
  intros e g g' fp. split; [reflexivity|].
  apply (PCX_SaveScreen_interlaced e fp Example.small_screen
           Stills.second_screen g).
  reflexivity.
Defined.

(** The ten bytes that encode the twelve pixels of [Example.small_screen]. *)
Lemma PCX_pixels_size_witness :
  let e := Stills.stereo 0 in
  let g := Stills.window in
  0 < video_width g /\
  PCX_pixels e Example.small_screen None g = Some Stills.pixels /\
  Z.of_nat (length Stills.pixels) <= 2 * 6 * 2 /\
  6 * 2 <= 63 * Z.of_nat (length Stills.pixels).
Proof.
  intros e g.
  assert (H1 : 0 < video_width g) by reflexivity.
  assert (H2 : PCX_pixels e Example.small_screen None g = Some Stills.pixels)
    by (vm_compute; reflexivity).
  split; [exact H1|]. split; [exact H2|].
  exact (PCX_pixels_size e Example.small_screen g Stills.pixels H1 H2).
Defined.

Import Setup.

(** A line of the configuration file that sets the keyframe interval. *)
Lemma File_Export_ReadConfig_valid_witness :
  let s := Setup.defaults in
  let s' := Setup.configured.2 in
  File_Export_ReadConfig "VIDEO_CODEC_KEYFRAME_INTERVAL" "250" s = (true, s') /\
  valid_settings s /\ valid_settings s' /\
  same_recorder (vars s) (vars s') /\ keyframe_interval (vars s') = 250.
Proof.
  intros s s'.
  assert (H1 : File_Export_ReadConfig "VIDEO_CODEC_KEYFRAME_INTERVAL" "250" s
               = (true, s')) by (vm_compute; reflexivity).
  assert (H2 : valid_settings s).
  { split; [discriminate|]. split; [split; discriminate|].
    intros c Hc. discriminate Hc. }
  split; [exact H1|]. split; [exact H2|].
  destruct (File_Export_ReadConfig_valid _ _ s true s' H1) as (A & B & _).
  split; [exact (A H2)|]. split; [exact B|reflexivity].
Defined.

(** A command line with two options of this file, [-help] and two
    arguments of others. *)
Lemma File_Export_Initialise_keeps_witness :
  let argv := Setup.command_line in
  let argv' := Setup.parsed.1.2 in
  let s' := Setup.parsed.2 in
  8 = Z.of_nat (length argv) /\ 1 <= 8 /\
  File_Export_Initialise 8 argv Setup.defaults = (true, 4, argv', s') /\
  1 <= 4 <= 8 /\ length argv' = length argv /\
  take 4 argv' = ["atari800"; "-nobasic"; "-help"; "game.xex"].
Proof.
  intros argv argv' s'.
  assert (H1 : 8 = Z.of_nat (length argv)) by reflexivity.
  assert (H2 : 1 <= 8) by discriminate.
  assert (H3 : File_Export_Initialise 8 argv Setup.defaults
               = (true, 4, argv', s')) by (vm_compute; reflexivity).
  split; [exact H1|]. split; [exact H2|]. split; [exact H3|].
  exact (File_Export_Initialise_keeps 8 argv Setup.defaults 4 argv' s'
           H1 H2 H3).
Defined.

(** A command line that is rejected: its keyframe interval is no number. *)
Lemma File_Export_Initialise_valid_witness :
  let argv := Setup.bad_command_line in
  let s := Setup.defaults in
  let s' := Setup.rejected.2 in
  5 = Z.of_nat (length argv) /\ 1 <= 5 /\
  File_Export_Initialise 5 argv s = (false, 5, argv, s') /\
  same_recorder (vars s) (vars s') /\
  keyframe_interval (vars s') = -1.
Proof.
  intros argv s s'.
  assert (H1 : 5 = Z.of_nat (length argv)) by reflexivity.
  assert (H2 : 1 <= 5) by discriminate.
  assert (H3 : File_Export_Initialise 5 argv s = (false, 5, argv, s'))
    by (vm_compute; reflexivity).
  split; [exact H1|]. split; [exact H2|]. split; [exact H3|].
  destruct (File_Export_Initialise_valid 5 argv s false 5 argv s' H1 H2 H3)
    as (A & _ & _).
  split; [exact A|reflexivity].
Defined.
